(** * eBay public API MCP server: the spec-driven request pipeline

    A shallow embedding of the TypeScript sources

    - [src/constant/constants.ts]      (environments and domains),
    - [src/helper/validation-helper.ts] (the generic validation engine and
      the routing resolver),
    - [src/helper/http-helper.ts]      (environment rewriting, default headers,
      the request of a generated operation),
    - [src/helper/openapi-helper.ts]   (the specification loaders, the schema
      of an operation),
    - [src/service/openapi-service.ts] (the generic invoke operation),
    - [src/index.ts]                   (the check of the environment variables),

    followed by the properties of the design document that concern them.

    Conventions.  A JavaScript string is a [string] of 8-bit characters, so
    the development is exact on ASCII text.  A [Record<string, T>] that the
    code only reads and writes by key is a [gmap string T]; an object whose
    [Object.keys] order is observable (the path-variable object, the [paths]
    object of a document) is an association list in that order.  An object
    is kept with the properties it has of its own: the ones that every object
    inherits, such as [constructor], are not represented, and statements that
    depend on a read of such a name say so.  A call that may throw returns an
    [option] or an [Outcome], or runs in the [Check] or [Prog] monad below. *)

From Stdlib Require Import String Ascii ZArith Bool Lia.
From stdpp Require Import base option list gmap strings pretty.

Set Default Proof Using "Type".
Set Warnings "-register-all".

(** ** JavaScript values and the built-ins the sources call *)

Module Js.

(** *** Characters and strings *)

Definition charIn (c : ascii) (s : string) : bool :=
  existsb (Ascii.eqb c) (list_ascii_of_string s).

Definition isDigit (c : ascii) : bool := charIn c "0123456789".

Definition isUpper (c : ascii) : bool := charIn c "ABCDEFGHIJKLMNOPQRSTUVWXYZ".

Definition isLower (c : ascii) : bool := charIn c "abcdefghijklmnopqrstuvwxyz".

(** Line terminators that [.] in a regular expression refuses. *)
Definition isLineTerminator (c : ascii) : bool :=
  Ascii.eqb c "010" || Ascii.eqb c "013".

(** The white space of the ASCII range that [Number] trims: TAB, LF, VT, FF,
    CR and SPACE. *)
Definition isWhiteSpace (c : ascii) : bool :=
  let n := nat_of_ascii c in
  (Nat.leb 9 n && Nat.leb n 13) || Nat.eqb n 32.

Definition lowerChar (c : ascii) : ascii :=
  if isUpper c then ascii_of_nat (nat_of_ascii c + 32) else c.

(** [s.toLowerCase()] *)
Fixpoint toLowerCase (s : string) : string :=
  match s with
  | EmptyString => EmptyString
  | String c s' => String (lowerChar c) (toLowerCase s')
  end.

(** [l.join(sep)] *)
Fixpoint join (sep : string) (l : list string) : string :=
  match l with
  | [] => ""
  | [x] => x
  | x :: rest => x +:+ sep +:+ join sep rest
  end.

(** [s.split(sep)] for a one-character separator: never the empty list. *)
Fixpoint split (sep : ascii) (s : string) : list string :=
  match s with
  | EmptyString => [""]
  | String c s' =>
      if Ascii.eqb c sep then "" :: split sep s'
      else match split sep s' with
           | h :: t => String c h :: t
           | [] => [String c ""]
           end
  end.

(** [stripPrefix p s] is the rest of [s] after its prefix [p]. *)
Fixpoint stripPrefix (p s : string) : option string :=
  match p, s with
  | EmptyString, _ => Some s
  | String a p', String b s' => if Ascii.eqb a b then stripPrefix p' s' else None
  | String _ _, EmptyString => None
  end.

(** [s.includes(pat)] *)
Fixpoint includes (s pat : string) : bool :=
  match stripPrefix pat s with
  | Some _ => true
  | None => match s with
            | EmptyString => false
            | String _ s' => includes s' pat
            end
  end.

(** [s.replace(pat, rep)] with a string pattern: the first occurrence only
    ([rep] holds no [$] replacement pattern in the sources). *)
Fixpoint replaceFirst (s pat rep : string) : string :=
  match stripPrefix pat s with
  | Some rest => rep +:+ rest
  | None => match s with
            | EmptyString => EmptyString
            | String c s' => String c (replaceFirst s' pat rep)
            end
  end.

(** The longest prefix of characters satisfying [p], and the rest. *)
Fixpoint span (p : ascii -> bool) (s : string) : string * string :=
  match s with
  | EmptyString => (EmptyString, EmptyString)
  | String c s' =>
      if p c then let '(a, b) := span p s' in (String c a, b)
      else (EmptyString, s)
  end.

Fixpoint allChars (p : ascii -> bool) (s : string) : bool :=
  match s with
  | EmptyString => true
  | String c s' => p c && allChars p s'
  end.

Definition isEmpty (s : string) : bool :=
  match s with EmptyString => true | _ => false end.

(** Whether [s] is empty or starts with a character that fails [p]. *)
Definition startsOutside (p : ascii -> bool) (s : string) : bool :=
  match s with
  | EmptyString => true
  | String c _ => negb (p c)
  end.

(** *** Numbers

    A finite number is a decimal [mantissa * 10 ^ exponent]; rounding to a
    double and the sign of zero are not represented. *)

Inductive JsNumber :=
| NaN
| Infinity (negative : bool)
| Decimal (mantissa exponent : Z).

Definition digitValue (c : ascii) : Z := (Z.of_nat (nat_of_ascii c) - 48)%Z.

Definition hexValue (c : ascii) : option Z :=
  if isDigit c then Some (digitValue c)
  else if charIn c "abcdef" then Some (Z.of_nat (nat_of_ascii c) - 87)%Z
  else if charIn c "ABCDEF" then Some (Z.of_nat (nat_of_ascii c) - 55)%Z
  else None.

(** The value of a non-empty run of digits in base [base]. *)
Fixpoint digitsIn (base : Z) (acc : Z) (s : string) : option Z :=
  match s with
  | EmptyString => Some acc
  | String c s' =>
      match hexValue c with
      | Some d => if (d <? base)%Z then digitsIn base (acc * base + d)%Z s' else None
      | None => None
      end
  end.

Definition radixLiteral (base : Z) (s : string) : JsNumber :=
  match s with
  | EmptyString => NaN
  | _ => match digitsIn base 0 s with
         | Some n => Decimal n 0
         | None => NaN
         end
  end.

Definition trim (s : string) : string :=
  let s1 := snd (span isWhiteSpace s) in
  let r := String.rev s1 in
  String.rev (snd (span isWhiteSpace r)).

(** [ExponentPart]: [e] or [E], an optional sign, at least one digit; the
    empty string is the absent exponent. *)
Definition exponentPart (s : string) : option Z :=
  match s with
  | EmptyString => Some 0%Z
  | String c s' =>
      if charIn c "eE" then
        let '(neg, ds) :=
          match s' with
          | String "-" r => (true, r)
          | String "+" r => (false, r)
          | _ => (false, s')
          end in
        if isEmpty ds || negb (allChars isDigit ds) then None
        else match digitsIn 10 0 ds with
             | Some n => Some (if neg then (- n)%Z else n)
             | None => None
             end
      else None
  end.

(** [StrUnsignedDecimalLiteral] other than [Infinity]. *)
Definition unsignedDecimal (s : string) : JsNumber :=
  let '(ip, r1) := span isDigit s in
  let '(fp, r2) :=
    match r1 with
    | String "." r => span isDigit r
    | _ => (EmptyString, r1)
    end in
  if isEmpty ip && isEmpty fp then NaN
  else match digitsIn 10 0 (ip +:+ fp), exponentPart r2 with
       | Some m, Some e => Decimal m (e - Z.of_nat (String.length fp))%Z
       | _, _ => NaN
       end.

Definition negate (n : JsNumber) : JsNumber :=
  match n with
  | NaN => NaN
  | Infinity b => Infinity (negb b)
  | Decimal m e => Decimal (- m)%Z e
  end.

Definition strDecimalLiteral (s : string) : JsNumber :=
  if String.eqb s "Infinity" then Infinity false else unsignedDecimal s.

(** [Number(s)] on a string: the [StringToNumber] grammar. *)
Definition Number (s : string) : JsNumber :=
  match trim s with
  | EmptyString => Decimal 0 0
  | String "0" (String c r) as t =>
      if charIn c "xX" then radixLiteral 16 r
      else if charIn c "oO" then radixLiteral 8 r
      else if charIn c "bB" then radixLiteral 2 r
      else strDecimalLiteral t
  | String "-" r => negate (strDecimalLiteral r)
  | String "+" r => strDecimalLiteral r
  | t => strDecimalLiteral t
  end.

Definition isInteger (n : JsNumber) : bool :=
  match n with
  | Decimal m e =>
      if (0 <=? e)%Z then true else (m mod 10 ^ (- e) =? 0)%Z
  | _ => false
  end.

Definition isFinite (n : JsNumber) : bool :=
  match n with Decimal _ _ => true | _ => false end.

(** *** Values *)

Inductive Value :=
| VUndefined
| VNull
| VBool (b : bool)
| VNum (n : JsNumber)
| VStr (s : string)
| VArr (items : list Value)
| VObj (props : list (string * Value)).

(** An object read in [Object.keys] order. *)
Definition Obj := list (string * Value).

(** [o[k]]: [undefined] for a missing own property (the properties every
    object inherits, such as [constructor], are not represented). *)
Fixpoint get (o : Obj) (k : string) : Value :=
  match o with
  | [] => VUndefined
  | (k', v) :: rest => if String.eqb k' k then v else get rest k
  end.

(** [Object.keys(o)] *)
Definition keys {A} (o : list (string * A)) : list string := o.*1.

(** [m[k]] on a record kept as a finite map (own properties only, as for
    [get]). *)
Definition lookup (m : gmap string Value) (k : string) : Value :=
  default VUndefined (m !! k).

(** [o[k] = v] on an object created as [{}]: the key [__proto__] reaches the
    accessor that every object inherits and adds no property. *)
Definition setProperty {A} (o : gmap string A) (k : string) (v : A) : gmap string A :=
  if String.eqb k "__proto__" then o else <[k := v]> o.

(** [!!v] *)
Definition truthy (v : Value) : bool :=
  match v with
  | VUndefined | VNull => false
  | VBool b => b
  | VNum NaN => false
  | VNum (Decimal m _) => negb (m =? 0)%Z
  | VNum (Infinity _) => true
  | VStr s => negb (isEmpty s)
  | VArr _ | VObj _ => true
  end.

(** [a || b] *)
Definition or (a b : Value) : Value := if truthy a then a else b.

Definition isUndefined (v : Value) : bool :=
  match v with VUndefined => true | _ => false end.

Definition isNull (v : Value) : bool :=
  match v with VNull => true | _ => false end.

(** [v === ""] *)
Definition isEmptyString (v : Value) : bool :=
  match v with VStr s => isEmpty s | _ => false end.

(** [l.includes(x)] on an array of strings. *)
Definition includesStr (l : list string) (x : string) : bool :=
  existsb (String.eqb x) l.

End Js.

Export Js (Value(..), JsNumber(..)).


(** ** Regular expressions of the routing resolver

    [validatePath] builds its expressions as
    [new RegExp(`${template.replace(/\{[^}]+\}/g, "[^/]+")}$`)] and only
    calls [test] on them.  The fragment modelled here is what such a source
    holds when the template is made of ordinary characters: literal
    characters, [.], the class-plus [[^/]+] and the end anchor [$].  A source
    with any other metacharacter is outside the fragment ([RegExp_new] gives
    [None]); in JavaScript it is either a [SyntaxError] or an expression this
    model does not interpret. *)

Module RegExp.

Inductive atom :=
| Lit (c : ascii)      (* an ordinary character *)
| AnyChar              (* [.] *)
| Segment              (* [[^/]+] *)
| EndAnchor.           (* [$] *)

Definition regex := list atom.

(** Characters with a meaning of their own in a pattern, [.] and [$] apart. *)
Definition isSyntaxChar (c : ascii) : bool := Js.charIn c "\^*+?()[]|".

(** Whether the text after a [{] completes a quantifier [{n}], [{n,}] or
    [{n,m}]; any other brace is a literal character (Annex B of ECMAScript,
    for expressions without the [u] flag). *)
Definition completesQuantifier (s : string) : bool :=
  let '(n, r) := Js.span Js.isDigit s in
  negb (Js.isEmpty n) &&
  match r with
  | String "}" _ => true
  | String "," r' =>
      match snd (Js.span Js.isDigit r') with
      | String "}" _ => true
      | _ => false
      end
  | _ => false
  end.

Definition atomOfChar (c : ascii) (rest : string) : option atom :=
  if Ascii.eqb c "." then Some AnyChar
  else if Ascii.eqb c "$" then Some EndAnchor
  else if isSyntaxChar c then None
  else if Ascii.eqb c "{" && completesQuantifier rest then None
  else Some (Lit c).

(** [new RegExp(source)] *)
Fixpoint RegExp_new (source : string) : option regex :=
  match source with
  | EmptyString => Some []
  | String c1 t =>
      let single := a ← atomOfChar c1 t; r ← RegExp_new t; Some (a :: r) in
      match t with
      | String c2 (String c3 (String c4 (String c5 rest))) =>
          if String.eqb (String c1 (String c2 (String c3 (String c4 (String c5 "")))))
                        "[^/]+"
          then r ← RegExp_new rest; Some (Segment :: r)
          else single
      | _ => single
      end
  end.

(** Whether [r] matches a prefix of [s] (backtracking over the lengths of
    every [Segment]). *)
Fixpoint matchHere (r : regex) (s : string) : bool :=
  match r with
  | [] => true
  | EndAnchor :: r' =>
      match s with EmptyString => matchHere r' EmptyString | _ => false end
  | Lit c :: r' =>
      match s with
      | String x s' => Ascii.eqb x c && matchHere r' s'
      | EmptyString => false
      end
  | AnyChar :: r' =>
      match s with
      | String x s' => negb (Js.isLineTerminator x) && matchHere r' s'
      | EmptyString => false
      end
  | Segment :: r' =>
      (fix seg (s : string) : bool :=
         match s with
         | EmptyString => false
         | String x s' => negb (Ascii.eqb x "/") && (seg s' || matchHere r' s')
         end) s
  end.

(** [r.test(s)]: a match starting anywhere in [s]. *)
Fixpoint test (r : regex) (s : string) : bool :=
  matchHere r s ||
  match s with
  | EmptyString => false
  | String _ s' => test r s'
  end.

End RegExp.

(** ** Path templates *)

Module Template.

(** A template read as [template.replace(/\{[^}]+\}/g, ...)] reads it: the
    matches of [\{[^}]+\}] from left to right, and the characters between. *)
Inductive token :=
| Char (c : ascii)
| Hole (name : string).

(** [inside] is [Some acc] after a [{] whose [}] has not been seen, [acc]
    being the characters since, latest first.  A [{] that no [}] follows, or
    that [}] follows at once, matches nothing and stays a character. *)
Fixpoint scan (inside : option (list ascii)) (s : string) : list token :=
  match s, inside with
  | EmptyString, None => []
  | EmptyString, Some acc => Char "{" :: (Char <$> rev acc)
  | String c t, None =>
      if Ascii.eqb c "{" then scan (Some []) t else Char c :: scan None t
  | String c t, Some acc =>
      if Ascii.eqb c "}" then
        match acc with
        | [] => Char "{" :: Char "}" :: scan None t
        | _ => Hole (string_of_list_ascii (rev acc)) :: scan None t
        end
      else scan (Some (c :: acc)) t
  end.

Definition tokens (template : string) : list token := scan None template.

Definition render (t : token) : string :=
  match t with
  | Char c => String c ""
  | Hole _ => "[^/]+"
  end.

Fixpoint concat (l : list string) : string :=
  match l with
  | [] => ""
  | x :: rest => x +:+ concat rest
  end.

(** [template.replace(/\{[^}]+\}/g, "[^/]+")] *)
Definition replacePlaceholders (template : string) : string :=
  concat (render <$> tokens template).

(** [new RegExp(`${template.replace(/\{[^}]+\}/g, "[^/]+")}$`)] *)
Definition toRegExp (template : string) : option RegExp.regex :=
  RegExp.RegExp_new (replacePlaceholders template +:+ "$").

End Template.

(** ** OpenAPI documents: the fields the sources read *)

Module OpenAPIV3.

(** A value schema, or a [$ref] to one.  Of a schema the sources read only
    [type]; [items] is kept so that array schemas can be written down. *)
Inductive SchemaObject :=
| SchemaRef (ref : string)
| Schema (type : option string) (items : option SchemaObject).

Record ParameterObject := {
  name : string;
  in_ : string;
  required : option bool;
  schema : option SchemaObject;
  style : option string;
  explode : option bool
}.

Record ReferenceObject := { ref : string }.

Record MediaTypeObject := { media_schema : option SchemaObject }.

(** [content] is the map from content type to media type; a missing
    [content] reads like an empty one under [?.]. *)
Record RequestBodyObject := {
  body_required : option bool;
  content : gmap string MediaTypeObject
}.

Record OperationObject := {
  operationId : option string;
  parameters : option (list (ReferenceObject + ParameterObject));
  requestBody : option (ReferenceObject + RequestBodyObject)
}.

(** A path item, read by (lower-case) method name. *)
Definition PathItemObject := gmap string OperationObject.

Record ServerVariableObject := { default_ : string }.

Record ServerObject := {
  url : string;
  variables : option (list (string * ServerVariableObject))
}.

(** [paths] in [Object.keys] order; a key may hold no path item. *)
Record Document := {
  servers : option (list ServerObject);
  paths : option (list (string * option PathItemObject))
}.

(** [{}] *)
Definition emptyDocument : Document := {| servers := None; paths := None |}.

End OpenAPIV3.

Import OpenAPIV3.

(** ** The platform's URL interface

    [new URL(s)] ([None] when it throws), the [hostname] and [pathname]
    getters, the [hostname] setter, [toString()], and
    [decodeURIComponent] ([None] when it throws). *)

Class UrlApi := {
  URL : Type;
  URL_new : string -> option URL;
  URL_hostname : URL -> string;
  URL_pathname : URL -> string;
  URL_set_hostname : URL -> string -> URL;
  URL_toString : URL -> string;
  decodeURIComponent : string -> option string
}.

(** The two facts of the URL standard that environment rewriting rests on:
    a parsed URL whose host was set serialises to a string that parses back
    to it, and setting the same host twice is setting it once. *)
Class UrlLaws (api : UrlApi) : Prop := {
  URL_reparse : forall s u h,
    URL_new s = Some u ->
    URL_new (URL_toString (URL_set_hostname u h)) = Some (URL_set_hostname u h);
  URL_set_hostname_twice : forall u h,
    URL_set_hostname (URL_set_hostname u h) h = URL_set_hostname u h
}.

(** ** src/constant/constants.ts *)

Inductive ApiEnvironment := SANDBOX | PRODUCTION.

Definition envName (e : ApiEnvironment) : string :=
  match e with SANDBOX => "sandbox" | PRODUCTION => "production" end.

Definition DOMAIN_NAME (e : ApiEnvironment) : string :=
  match e with
  | SANDBOX => "api.sandbox.ebay.com"
  | PRODUCTION => "api.ebay.com"
  end.

(** [Object.entries(DOMAIN_NAME)] *)
Definition DOMAIN_NAME_entries : list (ApiEnvironment * string) :=
  [(SANDBOX, DOMAIN_NAME SANDBOX); (PRODUCTION, DOMAIN_NAME PRODUCTION)].

Definition sameEnv (a b : ApiEnvironment) : bool :=
  String.eqb (envName a) (envName b).

(** [findApiEnvironmentByValue]: the environment whose name is [value] in
    lower case, else [fallback] ([PRODUCTION] in [constants.ts]). *)
Definition findApiEnvironmentByValue (fallback : ApiEnvironment) (value : string)
  : ApiEnvironment :=
  let lowercaseValue := Js.toLowerCase value in
  match List.find (fun e => String.eqb (Js.toLowerCase (envName e)) lowercaseValue)
                  [SANDBOX; PRODUCTION] with
  | Some e => e
  | None => fallback
  end.

(** ** Errors, and computations on the violation list *)

Record JsError := {
  message : string;
  (** [error.response.data] of an axios error *)
  responseData : option Value
}.

(** How a call ends. *)
Inductive Outcome (R : Type) :=
| Returned (r : R)
| Threw (e : JsError).

Arguments Returned {R} r.
Arguments Threw {R} e.

(** The validators of [validation-helper.ts] push their violations to the
    array [errors] that their caller passes, and throw what [ajv.compile]
    throws.  A computation takes the array as it is; it gives what it returns,
    or the error it throws, and the array as it leaves it. *)
Definition Check (A : Type) : Type := list string -> (A + JsError) * list string.

Module Check.

Definition ret {A} (a : A) : Check A := fun errors => (inl a, errors).

Definition bind {A B} (c : Check A) (f : A -> Check B) : Check B :=
  fun errors =>
    match c errors with
    | (inl a, errors) => f a errors
    | (inr e, errors) => (inr e, errors)
    end.

(** [errors.push(text)] *)
Definition push (text : string) : Check unit :=
  fun errors => (inl tt, errors ++ [text]).

(** [for (const a of l) { f a }] *)
Fixpoint forEach {A} (f : A -> Check unit) (l : list A) : Check unit :=
  match l with
  | [] => ret tt
  | a :: rest => bind (f a) (fun _ => forEach f rest)
  end.

End Check.

#[export] Instance check_ret : MRet Check := @Check.ret.
#[export] Instance check_bind : MBind Check := fun A B f c => Check.bind c f.

(** ** src/helper/validation-helper.ts *)

(** The options the sources pass to [new Ajv(...)]. *)
Record AjvOptions := { allErrors : bool; strict : bool }.

Record PathResult := {
  pathValidateRes : bool;
  apiPath : string;
  specPath : string;
  specPathItem : option PathItemObject
}.

Record ValidationInput := {
  urlVariables : option Js.Obj;
  urlQueryParams : option (gmap string Value);
  headers : option (gmap string Value);
  requestBody : option Js.Obj
}.

Record ValidationResult := { isValid : bool; errors : list string }.

(** [inputUrl.match(re)] for the fallback expression of
    [parseApiPathFromUrl]: [https?:\/\/[^/]+] followed by a capture group
    of any characters but line terminators, up to the end of the input.  The
    result is that capture group of the leftmost match.  At a given start the
    greedy [[^/]+] stops at the first [/]; giving characters back cannot help
    the group, which fails only on a line terminator further on. *)
Fixpoint matchHttpUrlPath (s : string) : option string :=
  let here :=
    r ← match Js.stripPrefix "https://" s with
        | Some r => Some r
        | None => Js.stripPrefix "http://" s
        end;
    let '(host, rest) := Js.span (fun c => negb (Ascii.eqb c "/")) r in
    if Js.isEmpty host
       || negb (Js.allChars (fun c => negb (Js.isLineTerminator c)) rest)
    then None else Some rest in
  match here with
  | Some p => Some p
  | None => match s with
            | EmptyString => None
            | String _ s' => matchHttpUrlPath s'
            end
  end.

(** [openApiDoc.paths?.[specPath]] *)
Fixpoint lookupPath (paths : list (string * option PathItemObject)) (specPath : string)
  : option PathItemObject :=
  match paths with
  | [] => None
  | (k, item) :: rest => if String.eqb k specPath then item else lookupPath rest specPath
  end.

(** The [basePath] server variable's default, [""] without one. *)
Definition basePathOf (openApiDoc : Document) : string :=
  let variables :=
    match servers openApiDoc with
    | Some (serverObj :: _) => default [] (variables serverObj)
    | _ => []
    end in
  foldl (fun basePath '(key, value) =>
           if String.eqb key "basePath" then default_ value else basePath)
        "" variables.

Definition notFound (apiPath : string) : PathResult :=
  {| pathValidateRes := false; apiPath := apiPath; specPath := "";
     specPathItem := None |}.

(** The loop of [validatePath] over [Object.keys(openApiDoc.paths || {})]. *)
Fixpoint findSpecPath (paths : list (string * option PathItemObject))
    (apiPath : string) (specPaths : list string) : option PathResult :=
  match specPaths with
  | [] => Some (notFound apiPath)
  | specPath :: rest =>
      specPathRegex ← Template.toRegExp specPath;
      match RegExp.test specPathRegex apiPath, lookupPath paths specPath with
      | true, Some specPathItem =>
          Some {| pathValidateRes := true; apiPath := apiPath;
                  specPath := specPath; specPathItem := Some specPathItem |}
      | _, _ => findSpecPath paths apiPath rest
      end
  end.

(** Reading a parameter list as [.filter(param => !("$ref" in param) &&
    param.in === location)] does. *)
Definition paramsIn (location : string)
    (parameters : option (list (ReferenceObject + ParameterObject)))
  : list ParameterObject :=
  omap (fun param =>
          match param with
          | inr p => if String.eqb (in_ p) location then Some p else None
          | inl _ => None
          end)
       (default [] parameters).

Definition isTrue (b : option bool) : bool := default false b.

Section Validation.

Context `{api : UrlApi}.

(** [ajv opts schema] is [new Ajv(opts).compile(schema)]: the function
    [validate], or the error that [compile] throws (for a reference that it
    cannot resolve, for a schema that is not valid).  [validate value] is
    [None] when the value is valid, and [ajv.errorsText(validate.errors)]
    otherwise. *)
Variable ajv : AjvOptions -> SchemaObject -> (Value -> option string) + JsError.

(** [ajv.compile(schema)] inside a validator; the array is left as it is. *)
Definition compile (opts : AjvOptions) (schema : SchemaObject)
  : Check (Value -> option string) :=
  fun errors => (ajv opts schema, errors).

Definition parseApiPathFromUrl (inputUrl : string) : string :=
  let manual := default "" (matchHttpUrlPath inputUrl) in
  match URL_new inputUrl with
  | Some urlObj => default manual (decodeURIComponent (URL_pathname urlObj))
  | None => manual
  end.

Definition validatePath (openApiDoc : Document) (inputUrl : string)
  : option PathResult :=
  (* Extract the path from the URL (remove base URL part) *)
  let apiPath := parseApiPathFromUrl inputUrl in
  if Js.isEmpty apiPath then Some (notFound "")
  else
    (* bathPath validation *)
    let basePath := basePathOf openApiDoc in
    basePathRegex ← Template.toRegExp basePath;
    if negb (Js.isEmpty basePath) && negb (RegExp.test basePathRegex apiPath)
    then Some (notFound apiPath)
    else
      (* specPath validation *)
      let paths := default [] (paths openApiDoc) in
      findSpecPath paths apiPath (Js.keys paths).

(** One turn of the loop over the path parameters. *)
Definition checkPathParam (urlVariables : Js.Obj) (param : ParameterObject)
  : Check unit :=
  let value := Js.get urlVariables (name param) in
  if isTrue (required param) && (Js.isUndefined value || Js.isNull value)
  then Check.push ("Missing required path parameter: " +:+ name param)
  else
    match schema param with
    | Some s =>
        if negb (Js.isUndefined value) then
          validate ← compile {| allErrors := true; strict := true |} s;
          match validate value with
          | Some text =>
              Check.push ("Invalid path parameter " +:+ name param +:+ ": " +:+ text)
          | None => mret tt
          end
        else mret tt
    | None => mret tt
    end.

Definition validateUrlPathParam (urlVariables : option Js.Obj)
    (parameters : option (list (ReferenceObject + ParameterObject)))
  : Check unit :=
  match urlVariables with
  | Some urlVariables =>
      let pathParams := paramsIn "path" parameters in
      Check.forEach (checkPathParam urlVariables) pathParams;;
      (* Check for extra path parameters not defined in spec *)
      let definedPathParams := name <$> pathParams in
      let extraParams :=
        List.filter (fun key => negb (Js.includesStr definedPathParams key))
                    (Js.keys urlVariables) in
      (if Nat.ltb 0 (length extraParams)
       then Check.push ("Unknown path parameters: " +:+ Js.join ", " extraParams)
       else mret tt);;
      (* Check for required path parameters that might be missing from urlVariables *)
      let requiredPathParams :=
        name <$> List.filter (fun param => isTrue (required param))
                             (paramsIn "path" parameters) in
      let providedPathParams := Js.keys urlVariables in
      let missingPathParams :=
        List.filter (fun param => negb (Js.includesStr providedPathParams param))
                    requiredPathParams in
      if Nat.ltb 0 (length missingPathParams)
      then Check.push ("Missing required path parameters: "
                         +:+ Js.join ", " missingPathParams)
      else mret tt
  | None => mret tt
  end.

(** The value a query parameter is validated as. *)
Definition coerceQueryValue (param : ParameterObject) (value : Value) : Value :=
  match value, schema param with
  | VStr s, Some (Schema (Some type) _) =>
      if Js.isEmpty type then value
      else if String.eqb type "integer" || String.eqb type "number"
      then VNum (Js.Number s)
      else if String.eqb type "boolean"
      then VBool (String.eqb (Js.toLowerCase s) "true")
      else if String.eqb type "array"
      then (if match style param with Some st => String.eqb st "form" | None => false end
               && negb (isTrue (explode param))
            then VArr (VStr <$> Js.split "," s)
            else value)
      else value
  | _, _ => value
  end.

Definition checkQueryParam (urlQueryParams : gmap string Value)
    (param : ParameterObject) : Check unit :=
  let value := Js.lookup urlQueryParams (name param) in
  if isTrue (required param)
     && (Js.isUndefined value || Js.isNull value || Js.isEmptyString value)
  then Check.push ("Missing required query parameter: " +:+ name param)
  else
    match schema param with
    | Some s =>
        if negb (Js.isUndefined value) then
          validate ← compile {| allErrors := true; strict := true |} s;
          (* Convert string values to appropriate types for validation *)
          let validationValue := coerceQueryValue param value in
          match validate validationValue with
          | Some text =>
              Check.push ("Invalid query parameter " +:+ name param +:+ ": " +:+ text)
          | None => mret tt
          end
        else mret tt
    | None => mret tt
    end.

Definition validateUrlQueryParam (urlQueryParams : option (gmap string Value))
    (parameters : option (list (ReferenceObject + ParameterObject)))
  : Check unit :=
  match urlQueryParams with
  | Some urlQueryParams =>
      Check.forEach (checkQueryParam urlQueryParams) (paramsIn "query" parameters)
  | None => mret tt
  end.

Definition checkHeaderParam (headers : gmap string Value)
    (param : ParameterObject) : Check unit :=
  let headerName := Js.toLowerCase (name param) in
  let value := Js.or (Js.lookup headers headerName) (Js.lookup headers (name param)) in
  if isTrue (required param)
     && (Js.isUndefined value || Js.isNull value || Js.isEmptyString value)
  then Check.push ("Missing required header parameter: " +:+ name param)
  else
    match schema param with
    | Some s =>
        if negb (Js.isUndefined value) then
          validate ← compile {| allErrors := true; strict := true |} s;
          match validate value with
          | Some text =>
              Check.push ("Invalid header parameter " +:+ name param +:+ ": " +:+ text)
          | None => mret tt
          end
        else mret tt
    | None => mret tt
    end.

Definition validateUrlHeaders (headers : option (gmap string Value))
    (parameters : option (list (ReferenceObject + ParameterObject)))
  : Check unit :=
  match headers with
  | Some headers =>
      Check.forEach (checkHeaderParam headers) (paramsIn "header" parameters)
  | None => mret tt
  end.

Definition contentTypes : list string :=
  ["application/json"; "application/x-www-form-urlencoded"; "multipart/form-data"].

(** The schema of the first content type of [contentTypes] that declares one. *)
Definition bodySchema (requestBody : RequestBodyObject) : option SchemaObject :=
  head (omap (fun contentType =>
                content requestBody !! contentType ≫= media_schema)
             contentTypes).

Definition validateUrlRequestBody (inputBody : option Js.Obj)
    (operationBody : option (ReferenceObject + RequestBodyObject))
  : Check unit :=
  match operationBody with
  | Some (inr requestBody) =>
      let isRequired := isTrue (body_required requestBody) in
      let hasKeys :=
        match inputBody with
        | Some body => Nat.ltb 0 (length (Js.keys body))
        | None => false
        end in
      if isRequired && negb hasKeys
      then Check.push "Missing required request body"
      else
        match inputBody with
        | Some body =>
            if hasKeys then
              (* Find the appropriate content type schema *)
              match bodySchema requestBody with
              | Some s =>
                  validate ← compile {| allErrors := true; strict := false |} s;
                  match validate (VObj body) with
                  | Some text => Check.push ("Invalid request body: " +:+ text)
                  | None => mret tt
                  end
              | None => mret tt
              end
            else mret tt
        | None => mret tt
        end
  | _ => mret tt
  end.

(** The four validators, one after the other, on the same array. *)
Definition validateAll (operation : OperationObject) (input : ValidationInput)
  : Check unit :=
  validateUrlPathParam (urlVariables input) (parameters operation);;
  validateUrlQueryParam (urlQueryParams input) (parameters operation);;
  validateUrlHeaders (headers input) (parameters operation);;
  validateUrlRequestBody (requestBody input) (OpenAPIV3.requestBody operation).

(** [None] when [new RegExp] throws (or the expression is outside the
    fragment of [RegExp]); [Threw e] when a validator throws [e], which
    nothing catches before the caller. *)
Definition validateRequestParameters (url : string) (openApiDoc : Document)
    (method : string) (input : ValidationInput)
  : option (Outcome ValidationResult) :=
  let errors : list string := [] in
  r ← validatePath openApiDoc url;
  match pathValidateRes r, specPathItem r with
  | true, Some specPathItem =>
      (* Check if the method exists for the path *)
      match specPathItem !! Js.toLowerCase method with
      | Some operation =>
          match validateAll operation input errors with
          | (inl _, errors) =>
              Some (Returned {| isValid := Nat.eqb (length errors) 0;
                                errors := errors |})
          | (inr e, _) => Some (Threw e)
          end
      | None =>
          Some (Returned
                  {| isValid := false;
                     errors := errors ++ ["Method " +:+ method +:+ " not found for path "
                                            +:+ specPath r
                                            +:+ " in OpenAPI specification"] |})
      end
  | _, _ =>
      Some (Returned
              {| isValid := false;
                 errors := errors ++ ["API path " +:+ apiPath r
                                        +:+ " is not valid or not found in OpenAPI specification"] |})
  end.

End Validation.

(** ** A reference validator

    What Ajv 8 does with the schemas of the fragment [type] / [items].
    [compile] throws on a [type] outside JSON Schema's seven, which the
    meta-schema refuses, and on a reference: a [$ref] here points into the
    document that the schema was taken from, as the [#/components/...]
    references of an OpenAPI document do, and Ajv, given the schema alone,
    cannot resolve it.  The function it returns gives one error
    [data<instancePath> must be <type>] per failed [type] check, joined by
    [", "] as [errorsText] does; with [allErrors] unset, the first error
    only. *)

Module Ajv.

Definition jsonTypes : list string :=
  ["string"; "number"; "integer"; "boolean"; "array"; "object"; "null"].

Definition typeOk (type : string) (data : Value) : bool :=
  if String.eqb type "string" then match data with VStr _ => true | _ => false end
  else if String.eqb type "number" then
    match data with VNum n => Js.isFinite n | _ => false end
  else if String.eqb type "integer" then
    match data with VNum n => Js.isInteger n | _ => false end
  else if String.eqb type "boolean" then match data with VBool _ => true | _ => false end
  else if String.eqb type "array" then match data with VArr _ => true | _ => false end
  else if String.eqb type "object" then match data with VObj _ => true | _ => false end
  else if String.eqb type "null" then match data with VNull => true | _ => false end
  else false.

(** The place of the outermost [type] that is none of [jsonTypes]. *)
Fixpoint unknownType (schema : SchemaObject) (schemaPath : string) : option string :=
  match schema with
  | SchemaRef _ => None
  | Schema type items =>
      match type with
      | Some t =>
          if Js.includesStr jsonTypes t
          then items ≫= (fun s => unknownType s (schemaPath +:+ "/items"))
          else Some (schemaPath +:+ "/type")
      | None => items ≫= (fun s => unknownType s (schemaPath +:+ "/items"))
      end
  end.

(** The reference of the schema, if it holds one. *)
Fixpoint reference (schema : SchemaObject) : option string :=
  match schema with
  | SchemaRef r => Some r
  | Schema _ items => items ≫= reference
  end.

Definition schemaIsInvalid (place : string) : JsError :=
  {| message := "schema is invalid: data" +:+ place
                  +:+ " must be equal to one of the allowed values, data" +:+ place
                  +:+ " must be array, data" +:+ place
                  +:+ " must match a schema in anyOf";
     responseData := None |}.

Definition missingRef (r : string) : JsError :=
  {| message := "can't resolve reference " +:+ r +:+ " from id #";
     responseData := None |}.

Fixpoint errorsAt (schema : SchemaObject) (instancePath : string) (data : Value)
  : list string :=
  match schema with
  | SchemaRef r => []
  | Schema type items =>
      match type with
      | Some t => if typeOk t data then []
                  else ["data" +:+ instancePath +:+ " must be " +:+ t]
      | None => []
      end ++
      match items, data with
      | Some itemSchema, VArr l =>
          mjoin (imap (fun i item =>
                         errorsAt itemSchema (instancePath +:+ "/" +:+ pretty i) item)
                      l)
      | _, _ => []
      end
  end.

(** [validate(data)] with [ajv.errorsText(validate.errors)], for a schema
    that compiles. *)
Definition validate (opts : AjvOptions) (schema : SchemaObject) (data : Value)
  : option string :=
  match errorsAt schema "" data with
  | [] => None
  | e :: es => Some (Js.join ", " (if allErrors opts then e :: es else [e]))
  end.

Definition compile (opts : AjvOptions) (schema : SchemaObject)
  : (Value -> option string) + JsError :=
  match unknownType schema "", reference schema with
  | Some place, _ => inr (schemaIsInvalid place)
  | None, Some r => inr (missingRef r)
  | None, None => inl (validate opts schema)
  end.

End Ajv.

(** ** A reference URL implementation

    URLs of the form [scheme://host[:port][/path][?query][#fragment]], kept
    as written (no case folding, no dot-segment removal); every other string
    is refused, as [new URL] refuses a string without a scheme. *)

Module SimpleUrl.

Record url := { scheme : string; hostname : string; port : string; rest : string }.

Definition isAlpha (c : ascii) : bool := Js.isUpper c || Js.isLower c.

Definition isSchemeChar (c : ascii) : bool :=
  isAlpha c || Js.isDigit c || Js.charIn c "+-.".

Definition isAuthorityChar (c : ascii) : bool := negb (Js.charIn c "/?#").

Definition isHostChar (c : ascii) : bool := negb (Js.charIn c "/?#:@[]\ ").

Definition startsAlpha (s : string) : bool :=
  match s with String c _ => isAlpha c | EmptyString => false end.

Definition validPort (p : string) : bool :=
  match p with
  | EmptyString => true
  | String c ds => Ascii.eqb c ":" && Js.allChars Js.isDigit ds
  end.

Definition parse (s : string) : option url :=
  let '(sch, r1) := Js.span isSchemeChar s in
  if negb (startsAlpha sch) then None
  else
    r2 ← Js.stripPrefix "://" r1;
    let '(authority, rest) := Js.span isAuthorityChar r2 in
    let '(host, port) := Js.span isHostChar authority in
    if Js.isEmpty host || negb (validPort port) then None
    else Some {| scheme := sch; hostname := host; port := port; rest := rest |}.

Definition toString (u : url) : string :=
  scheme u +:+ "://" +:+ hostname u +:+ port u +:+ rest u.

Definition validHost (h : string) : bool :=
  negb (Js.isEmpty h) && Js.allChars isHostChar h.

Definition setHostname (u : url) (h : string) : url :=
  if validHost h
  then {| scheme := scheme u; hostname := h; port := port u; rest := rest u |}
  else u.

Definition hexDigit (n : nat) : ascii :=
  match String.get n "0123456789ABCDEF" with Some c => c | None => "0" end.

Definition mustEncode (c : ascii) : bool :=
  let n := nat_of_ascii c in
  Nat.leb n 32 || Nat.leb 127 n || Nat.eqb n 34 || Js.charIn c "<>`{}".

Fixpoint percentEncode (s : string) : string :=
  match s with
  | EmptyString => EmptyString
  | String c s' =>
      if mustEncode c
      then String "%" (String (hexDigit (nat_of_ascii c / 16))
                         (String (hexDigit (nat_of_ascii c mod 16)) (percentEncode s')))
      else String c (percentEncode s')
  end.

Definition pathname (u : url) : string :=
  let p := fst (Js.span (fun c => negb (Js.charIn c "?#")) (rest u)) in
  if Js.isEmpty p then "/" else percentEncode p.

Fixpoint decodeURIComponent (s : string) : option string :=
  match s with
  | EmptyString => Some EmptyString
  | String c t =>
      if Ascii.eqb c "%" then
        match t with
        | String a (String b t') =>
            match Js.hexValue a, Js.hexValue b with
            | Some x, Some y =>
                String (ascii_of_nat (Z.to_nat (16 * x + y))) <$> decodeURIComponent t'
            | _, _ => None
            end
        | _ => None
        end
      else String c <$> decodeURIComponent t
  end.

(** What [parse] guarantees of its result. *)
Definition wf (u : url) : bool :=
  startsAlpha (scheme u) && Js.allChars isSchemeChar (scheme u)
  && validHost (hostname u) && validPort (port u)
  && Js.startsOutside isAuthorityChar (rest u).

End SimpleUrl.

#[export] Instance simpleUrlApi : UrlApi := {|
  URL := SimpleUrl.url;
  URL_new := SimpleUrl.parse;
  URL_hostname := SimpleUrl.hostname;
  URL_pathname := SimpleUrl.pathname;
  URL_set_hostname := SimpleUrl.setHostname;
  URL_toString := SimpleUrl.toString;
  decodeURIComponent := SimpleUrl.decodeURIComponent
|}.


(** ** src/helper/http-helper.ts *)

Section HttpHelper.

Context `{api : UrlApi}.

(** Process-wide configuration: [USER_ENVIRONMENT] is
    [findApiEnvironmentByValue(process.env.EBAY_API_ENV || "")] and
    [USER_TOKEN] is [process.env.EBAY_CLIENT_TOKEN || ""], both read once. *)
Variable USER_ENVIRONMENT : ApiEnvironment.
Variable USER_TOKEN : string.

Definition fillDefaultHeaderInfo (headers : gmap string Value)
    (needSetHostByEnv : bool) : gmap string Value :=
  let headers :=
    <["Host" := VStr (if needSetHostByEnv then DOMAIN_NAME USER_ENVIRONMENT
                      else DOMAIN_NAME PRODUCTION)]> headers in
  let headers := <["User-Agent" := VStr "EBAY-API-MCP-Tool/1.0"]> headers in
  let headers := <["Authorization" := VStr ("Bearer " +:+ USER_TOKEN)]> headers in
  <["Content-Type" := Js.or (Js.lookup headers "Content-Type")
                            (VStr "application/json")]> headers.

(** [value[0]] of a header's array of values. *)
Definition firstValue (value : list string) : Value :=
  match value with
  | v :: _ => VStr v
  | [] => VUndefined
  end.

Definition buildHeadersFromInput (inputHeaders : option (gmap string (list string)))
    (needSetHostByEnv : bool) : gmap string Value :=
  let headers :=
    match inputHeaders with
    | Some inputHeaders =>
        map_fold (fun key value headers => Js.setProperty headers key (firstValue value))
                 ∅ inputHeaders
    | None => ∅
    end in
  fillDefaultHeaderInfo headers needSetHostByEnv.

(** The [catch] branch of [replaceDomainNameByEnvironment]: the loop over
    [Object.entries(DOMAIN_NAME)]. *)
Fixpoint replaceKnownDomain (url : string) (entries : list (ApiEnvironment * string))
  : string :=
  match entries with
  | [] => url
  | (env, domain) :: rest =>
      if negb (sameEnv env USER_ENVIRONMENT) && Js.includes url domain
      then Js.replaceFirst url domain (DOMAIN_NAME USER_ENVIRONMENT)
      else replaceKnownDomain url rest
  end.

Definition replaceDomainNameByEnvironment (url : string) : string :=
  match URL_new url with
  | Some urlObj =>
      let currentHostname := URL_hostname urlObj in
      let expectedDomain := DOMAIN_NAME USER_ENVIRONMENT in
      if negb (String.eqb currentHostname expectedDomain)
      then URL_toString (URL_set_hostname urlObj expectedDomain)
      else url
  | None => replaceKnownDomain url DOMAIN_NAME_entries
  end.

End HttpHelper.

(** ** Effects: calls that leave the process or may throw

    A program is a tree of calls; each call is answered by a result or by
    an error, which the program may catch. *)

Record AxiosRequestConfig := {
  req_url : string;
  req_method : string;
  req_headers : gmap string Value;
  req_params : option (gmap string Value);
  req_data : option Js.Obj
}.

Inductive Call : Type -> Type :=
| AxiosGet (url : string) : Call string              (* [(await axios.get(url)).data] *)
| AxiosRequest (config : AxiosRequestConfig) : Call Value   (* [(await axios.request(config)).data] *)
| JsonParse (text : string) : Call Document          (* [JSON.parse(text)] *)
| YamlLoad (text : string) : Call Document           (* [yaml.load(text)] *)
| ConsoleError (text : string) : Call unit.          (* [console.error(text)] *)

Inductive Prog (R : Type) : Type :=
| Ret (r : R)
| Throw (e : JsError)
| Do {X : Type} (c : Call X) (k : X + JsError -> Prog R).

Arguments Ret {R} r.
Arguments Throw {R} e.
Arguments Do {R X} c k.

Fixpoint bind {A B : Type} (p : Prog A) (f : A -> Prog B) : Prog B :=
  match p with
  | Ret a => f a
  | Throw e => Throw e
  | Do c k => Do c (fun r => bind (k r) f)
  end.

(** [await c], rethrowing its error. *)
Definition call {X : Type} (c : Call X) : Prog X :=
  Do c (fun r => match r with inl x => Ret x | inr e => Throw e end).

(** [try { p } catch (e) { h e }] *)
Fixpoint tryCatch {A : Type} (p : Prog A) (h : JsError -> Prog A) : Prog A :=
  match p with
  | Ret a => Ret a
  | Throw e => h e
  | Do c k => Do c (fun r => tryCatch (k r) h)
  end.

(** [console.error(text)], then [p]. *)
Definition log {A : Type} (text : string) (p : Prog A) : Prog A :=
  Do (ConsoleError text) (fun _ => p).

(** A pure computation that may throw. *)
Definition orThrow {A : Type} (e : JsError) (o : option A) : Prog A :=
  match o with
  | Some a => Ret a
  | None => Throw e
  end.

(** A pure computation that returns, throws what it throws, or throws [e]
    from a [new RegExp]. *)
Definition settle {A : Type} (e : JsError) (o : option (Outcome A)) : Prog A :=
  match o with
  | Some (Returned a) => Ret a
  | Some (Threw thrown) => Throw thrown
  | None => Throw e
  end.

#[export] Instance prog_ret : MRet Prog := @Ret.
#[export] Instance prog_bind : MBind Prog := fun A B f p => bind p f.

(** One call with its answer. *)
Inductive Event :=
| Ev (X : Type) (c : Call X) (r : X + JsError).

Arguments Ev {X} c r.

(** [exec p t o]: answered as [t] records, [p] ends as [o]. *)
Fixpoint exec {R : Type} (p : Prog R) (t : list Event) (o : Outcome R) : Prop :=
  match p with
  | Ret r => t = [] /\ o = Returned r
  | Throw e => t = [] /\ o = Threw e
  | Do c k => exists r t', t = Ev c r :: t' /\ exec (k r) t' o
  end.

(** An environment answers every call. *)
Definition World := forall X, Call X -> X + JsError.

Fixpoint run {R : Type} (w : World) (p : Prog R) : list Event * Outcome R :=
  match p with
  | Ret r => ([], Returned r)
  | Throw e => ([], Threw e)
  | Do c k => let '(t, o) := run w (k (w _ c)) in (Ev c (w _ c) :: t, o)
  end.

(** The requests sent to the remote API ([axios.request]). *)
Definition isApiRequest (e : Event) : bool :=
  match e with
  | Ev (AxiosRequest _) _ => true
  | Ev _ _ => false
  end.

Definition apiRequests (t : list Event) : list Event := List.filter isApiRequest t.

(** The parser calls of a trace, in order. *)
Inductive ParserCall := CalledJsonParse | CalledYamlLoad.

Definition parserCall (e : Event) : option ParserCall :=
  match e with
  | Ev (JsonParse _) _ => Some CalledJsonParse
  | Ev (YamlLoad _) _ => Some CalledYamlLoad
  | Ev _ _ => None
  end.

Definition parserCalls (t : list Event) : list ParserCall := omap parserCall t.

(** ** src/helper/openapi-helper.ts *)

(** [util.format(f, ...args)] for the directives [%s] and [%%]: each [%s]
    takes the next argument, or stays as written when none is left; the
    arguments left at the end are appended, each after a space.  The other
    directives do not occur in the sources. *)
Fixpoint format (f : string) (args : list string) : string :=
  match f with
  | String "%" (String "s" rest as t) =>
      match args with
      | a :: args' => a +:+ format rest args'
      | [] => String "%" (format t [])
      end
  | String "%" (String "%" rest) => String "%" (format rest args)
  | String c t => String c (format t args)
  | EmptyString => Template.concat ((fun a => " " +:+ a) <$> args)
  end.

Definition parseOpenApiDoc (specTitle operationId specUrl : string) : Prog Document :=
  let url := format specUrl [specTitle; operationId] in
  docString ← call (AxiosGet url);
  tryCatch
    (* Try parsing as JSON first *)
    (call (JsonParse docString))
    (fun jsonError =>
       tryCatch
         (* If JSON fails, try parsing as YAML *)
         (call (YamlLoad docString))
         (fun yamlError =>
            log "failed to parse OpenAPI document !!!" (Ret emptyDocument))).

(** ** src/service/openapi-service.ts: the generic invoke operation *)

Record InvokeInput := {
  arg_url : string;
  arg_method : string;
  arg_headers : option (gmap string (list string));
  arg_urlVariables : option Js.Obj;
  arg_urlQueryParams : option (gmap string Value);
  arg_requestBody : option Js.Obj;
  arg_specTitle : string;
  arg_operationId : string
}.

(** The tool result: the [text] parts of [content], and [isError]. *)
Record CallToolResult := { content : list string; isError : bool }.

Definition newline : string := String "010" "".

Section Service.

Context `{api : UrlApi}.
Variable ajv : AjvOptions -> SchemaObject -> (Value -> option string) + JsError.
Variable USER_ENVIRONMENT : ApiEnvironment.
Variable USER_TOKEN : string.

(** [RECALL_SPEC_WITH_FIELD_URL], and the second argument the handler gives
    [buildHeadersFromInput] ([true] in the later of the two versions of the
    service, missing, hence falsy, in the earlier). *)
Variable RECALL_SPEC_WITH_FIELD_URL : string.
Variable needSetHostByEnv : bool.

(** [JSON.stringify(v, null, 2)] *)
Variable JSON_stringify : Value -> string.

(** [buildFinalUrl] of http-helper.ts builds regular expressions from the
    caller's keys; it is taken as given, [None] when it throws. *)
Variable buildFinalUrl : string -> option Js.Obj -> option string.

(** What a failing [new RegExp] throws.  The handler below takes every
    expression that [RegExp] does not read for one that throws: what it does
    on a request with such an expression is said of requests whose
    expressions are within the fragment. *)
Variable regExpError : JsError.
Variable buildFinalUrlError : JsError.

Definition formatAxiosError (error : JsError) : string :=
  match responseData error with
  | Some data =>
      if Js.truthy data then JSON_stringify data
      else "Error in invokeAPI tool: " +:+ message error
  | None => "Error in invokeAPI tool: " +:+ message error
  end.

(** [resp.data ? (typeof resp.data === "string" ? resp.data :
    JSON.stringify(resp.data, null, 2)) : "No response body"] *)
Definition responseText (data : Value) : string :=
  if Js.truthy data
  then match data with VStr s => s | _ => JSON_stringify data end
  else "No response body".

(** What the handler passes to [validateRequestParameters]. *)
Definition validationInput (input : InvokeInput) (headers : gmap string Value)
  : ValidationInput :=
  {| urlVariables := arg_urlVariables input;
     urlQueryParams := arg_urlQueryParams input;
     headers := Some headers;
     requestBody := arg_requestBody input |}.

(** The validation the handler runs on the document it loaded. *)
Definition requestValidation (input : InvokeInput) (openApiDoc : Document)
  : option (Outcome ValidationResult) :=
  validateRequestParameters ajv
    (replaceDomainNameByEnvironment USER_ENVIRONMENT (arg_url input))
    openApiDoc (arg_method input)
    (validationInput input
       (buildHeadersFromInput USER_ENVIRONMENT USER_TOKEN (arg_headers input)
                              needSetHostByEnv)).

(** The failure returned for an invalid request. *)
Definition validationFailure (reqParamValidation : ValidationResult) : CallToolResult :=
  {| content := ["Request validation failed:";
                 Js.join newline (errors reqParamValidation)];
     isError := true |}.

(** The failure returned from the [catch] block. *)
Definition caughtFailure (error : JsError) : CallToolResult :=
  {| content := ["Error in invokeOpenAPI tool: " +:+ formatAxiosError error];
     isError := true |}.

Definition requestConfig (input : InvokeInput) (finalUrl : string)
    (headers : gmap string Value) : AxiosRequestConfig :=
  {| req_url := finalUrl;
     req_method := arg_method input;
     req_headers := headers;
     req_params := arg_urlQueryParams input;
     req_data := arg_requestBody input |}.

Definition invokeApi (input : InvokeInput) : Prog CallToolResult :=
  tryCatch
    ((* Build headers *)
     let headers := buildHeadersFromInput USER_ENVIRONMENT USER_TOKEN
                      (arg_headers input) needSetHostByEnv in
     (* query and parse apiSpec by specTitle and operationId *)
     openApiDoc ← parseOpenApiDoc (arg_specTitle input) (arg_operationId input)
                     RECALL_SPEC_WITH_FIELD_URL;
     let replacedDomainUrl :=
       replaceDomainNameByEnvironment USER_ENVIRONMENT (arg_url input) in
     (* Validate req parameters against OpenAPI spec *)
     reqParamValidation ←
       settle regExpError
         (validateRequestParameters ajv replacedDomainUrl openApiDoc (arg_method input)
            (validationInput input headers));
     if negb (isValid reqParamValidation) then
       Ret (validationFailure reqParamValidation)
     else
       (* Make the API request *)
       finalUrl ← orThrow buildFinalUrlError
                     (buildFinalUrl replacedDomainUrl (arg_urlVariables input));
       data ← call (AxiosRequest (requestConfig input finalUrl headers));
       Ret {| content := [responseText data]; isError := false |})
    (fun error => Ret (caughtFailure error)).

End Service.

(** ** Further built-ins

    What the remaining helpers call: [String(v)], [encodeURIComponent],
    [replace] with a string pattern and with a global expression,
    [Object.entries], [split] on line ends.  As above, strings are 8-bit
    (exact on ASCII text) and an object's properties are its own ones. *)

Module Builtin.

Fixpoint zeros (n : nat) : string :=
  match n with
  | O => ""
  | S k => String "0" (zeros k)
  end.

(** The first [n] characters of [s], and the rest. *)
Fixpoint splitAt (n : nat) (s : string) : string * string :=
  match n, s with
  | S k, String c s' => let '(a, b) := splitAt k s' in (String c a, b)
  | _, _ => ("", s)
  end.

(** [Number::toString(x)] in base ten.  For a finite number other than zero
    let [s] be its digits without trailing zeros, [k] their count, and [n]
    such that the number is [0.s * 10 ^ n]: the notation is positional when
    [-6 < n <= 21] and exponential otherwise.  The digits are those of the
    decimal, which are the ones JavaScript prints when the decimal has at
    most 15 significant digits. *)
Definition numberToString (x : JsNumber) : string :=
  match x with
  | NaN => "NaN"
  | Infinity negative => if negative then "-Infinity" else "Infinity"
  | Decimal m e =>
      if (m =? 0)%Z then "0"
      else
        let '(trailing, rdigits) :=
          Js.span (Ascii.eqb "0") (String.rev (pretty (Z.abs m))) in
        let s := String.rev rdigits in
        let k := Z.of_nat (String.length s) in
        let n := (k + e + Z.of_nat (String.length trailing))%Z in
        (if (m <? 0)%Z then "-" else "") +:+
        (if (k <=? n)%Z && (n <=? 21)%Z then s +:+ zeros (Z.to_nat (n - k))
         else if (0 <? n)%Z && (n <=? 21)%Z then
           let '(int, frac) := splitAt (Z.to_nat n) s in int +:+ "." +:+ frac
         else if (-6 <? n)%Z && (n <=? 0)%Z then
           "0." +:+ zeros (Z.to_nat (- n)) +:+ s
         else
           let exponent :=
             "e" +:+ (if (n - 1 <? 0)%Z then "-" else "+")
                 +:+ pretty (Z.abs (n - 1)) in
           match s with
           | String d "" => String d exponent
           | String d more => String d ("." +:+ more +:+ exponent)
           | EmptyString => exponent
           end)
  end.

(** [String(v)]; [None] when it throws a [TypeError].  An array is the
    [join(",")] of its elements, [undefined] and [null] giving the empty
    string.  An object is ["[object Object]"] through the [toString] it
    inherits; one with a property [toString] of its own, which no value of
    [Value] can call, cannot be converted. *)
Fixpoint ToString (v : Value) : option string :=
  match v with
  | VUndefined => Some "undefined"
  | VNull => Some "null"
  | VBool b => Some (if b then "true" else "false")
  | VNum n => Some (numberToString n)
  | VStr s => Some s
  | VArr items =>
      Js.join "," <$>
        (fix elements (l : list Value) : option (list string) :=
           match l with
           | [] => Some []
           | x :: rest =>
               t ← match x with
                   | VUndefined | VNull => Some ""
                   | _ => ToString x
                   end;
               ts ← elements rest;
               Some (t :: ts)
           end) items
  | VObj props =>
      if Js.includesStr (Js.keys props) "toString" then None
      else Some "[object Object]"
  end.

(** The characters [encodeURIComponent] leaves as they are. *)
Definition isUnreserved (c : ascii) : bool :=
  Js.isUpper c || Js.isLower c || Js.isDigit c || Js.charIn c "-_.!~*'()".

Definition hexDigit (n : nat) : ascii :=
  match String.get n "0123456789ABCDEF" with
  | Some c => c
  | None => "0"
  end.

(** [encodeURIComponent(s)]: every other character as [%XX]. *)
Fixpoint encodeURIComponent (s : string) : string :=
  match s with
  | EmptyString => EmptyString
  | String c s' =>
      if isUnreserved c then String c (encodeURIComponent s')
      else String "%" (String (hexDigit (nat_of_ascii c / 16))
                         (String (hexDigit (nat_of_ascii c mod 16))
                            (encodeURIComponent s')))
  end.

(** [GetSubstitution] for a string pattern, which captures nothing: in the
    replacement text [$$] is a dollar, [$&] the matched text, [$`] the text
    before the match and [$'] the text after it; any other [$] stays. *)
Fixpoint getSubstitution (matched before after replacement : string) : string :=
  match replacement with
  | String "$" (String c rest as t) =>
      if Ascii.eqb c "$" then
        String "$" (getSubstitution matched before after rest)
      else if Ascii.eqb c "&" then
        matched +:+ getSubstitution matched before after rest
      else if Ascii.eqb c "`" then
        before +:+ getSubstitution matched before after rest
      else if Ascii.eqb c "'" then
        after +:+ getSubstitution matched before after rest
      else String "$" (getSubstitution matched before after t)
  | String c t => String c (getSubstitution matched before after t)
  | EmptyString => EmptyString
  end.

(** [seen] holds the characters already passed. *)
Fixpoint replaceAfter (seen s pattern replacement : string) : string :=
  match Js.stripPrefix pattern s with
  | Some after => getSubstitution pattern seen after replacement +:+ after
  | None =>
      match s with
      | EmptyString => EmptyString
      | String c s' =>
          String c (replaceAfter (seen +:+ String c "") s' pattern replacement)
      end
  end.

(** [s.replace(pattern, replacement)], both strings: the first occurrence. *)
Definition replace (s pattern replacement : string) : string :=
  replaceAfter "" s pattern replacement.

(** [s.startsWith(prefix)] *)
Definition startsWith (s prefix : string) : bool :=
  match Js.stripPrefix prefix s with
  | Some _ => true
  | None => false
  end.

(** Without one carriage return at its end. *)
Fixpoint chomp (s : string) : string :=
  match s with
  | EmptyString => EmptyString
  | String c EmptyString => if Ascii.eqb c "013" then EmptyString else s
  | String c s' => String c (chomp s')
  end.

(** All pieces but the last without the carriage return at their end. *)
Fixpoint chompInner (pieces : list string) : list string :=
  match pieces with
  | [] => []
  | [piece] => [piece]
  | piece :: rest => chomp piece :: chompInner rest
  end.

(** [s.split(/\r?\n/)]: the pieces between line feeds; a carriage return
    just before a line feed belongs to the separator. *)
Definition splitLines (s : string) : list string :=
  chompInner (Js.split "010" s).

(** [Object.entries(v)] of a value other than [undefined] and [null] (on
    which it throws): the properties of an object, the elements of an array
    and the characters of a string under their indices, nothing for a number
    or a boolean. *)
Definition entries (v : Value) : list (string * Value) :=
  match v with
  | VObj props => props
  | VArr items => imap (fun i x => (pretty i, x)) items
  | VStr s => imap (fun i c => (pretty i, VStr (String c ""))) (list_ascii_of_string s)
  | _ => []
  end.

(** [v[k]] on a value other than [undefined] and [null], for a key that is
    neither an index nor [length]. *)
Definition member (v : Value) (k : string) : Value :=
  match v with
  | VObj props => Js.get props k
  | _ => VUndefined
  end.

End Builtin.

(** ** Replacing every match of an expression *)

Module GlobalReplace.
Import RegExp.

(** The length of the match of [r] at the start of [s], the one the
    backtracking matcher finds first: [[^/]+] takes as much as it can and
    gives back one character at a time. *)
Fixpoint matchLength (r : regex) (s : string) : option nat :=
  match r with
  | [] => Some 0
  | EndAnchor :: r' =>
      match s with EmptyString => matchLength r' EmptyString | _ => None end
  | Lit c :: r' =>
      match s with
      | String x s' => if Ascii.eqb x c then S <$> matchLength r' s' else None
      | EmptyString => None
      end
  | AnyChar :: r' =>
      match s with
      | String x s' =>
          if Js.isLineTerminator x then None else S <$> matchLength r' s'
      | EmptyString => None
      end
  | Segment :: r' =>
      (fix seg (s : string) : option nat :=
         match s with
         | EmptyString => None
         | String x s' =>
             if Ascii.eqb x "/" then None
             else S <$> match seg s' with
                        | Some n => Some n
                        | None => matchLength r' s'
                        end
         end) s
  end.

(** [s.replace(r, replacement)] for [r] with the flag [g] and a replacement
    text without [$]: the matches from left to right, each search starting
    where the last match ended, one character further after an empty match.
    [skip] counts the characters of the current match still to pass. *)
Fixpoint replaceFrom (r : regex) (replacement : string) (skip : nat) (s : string)
  : string :=
  match skip, s with
  | S k, String _ s' => replaceFrom r replacement k s'
  | S _, EmptyString => EmptyString
  | O, _ =>
      match matchLength r s with
      | Some n =>
          replacement +:+
          match s, n with
          | EmptyString, _ => EmptyString
          | String c s', O => String c (replaceFrom r replacement 0 s')
          | String _ s', S k => replaceFrom r replacement k s'
          end
      | None =>
          match s with
          | EmptyString => EmptyString
          | String c s' => String c (replaceFrom r replacement 0 s')
          end
      end
  end.

Definition replaceAll (r : regex) (replacement s : string) : string :=
  replaceFrom r replacement 0 s.

End GlobalReplace.

(** ** src/helper/http-helper.ts: building the request *)

(** What [prepareRequestData] returns. *)
Module RequestData.

Record t := {
  resolvedPath : string;
  headers : gmap string Value;
  params : gmap string Value;
  data : Value
}.

End RequestData.

Module Http.

(** [new Error(`Missing path variable: ${key}`)] *)
Definition missingPathVariable (key : string) : JsError :=
  {| message := "Missing path variable: " +:+ key; responseData := None |}.

(** The [TypeError] of a failing [String(v)]. *)
Definition conversionError : JsError :=
  {| message := "Cannot convert object to primitive value"; responseData := None |}.

(** [String(v)] as a computation that may throw. *)
Definition String_ (v : Value) : Prog string :=
  orThrow conversionError (Builtin.ToString v).

(** The callback of [resolvePath] on each placeholder in turn, from left to
    right, between the characters that [replace] copies. *)
Fixpoint resolveTokens (ts : list Template.token) (pathVariables : gmap string Value)
  : Prog string :=
  match ts with
  | [] => Ret ""
  | Template.Char c :: ts' =>
      rest ← resolveTokens ts' pathVariables;
      Ret (String c rest)
  | Template.Hole key :: ts' =>
      let value := Js.lookup pathVariables key in
      if Js.isUndefined value then Throw (missingPathVariable key)
      else
        text ← String_ value;
        rest ← resolveTokens ts' pathVariables;
        Ret (text +:+ rest)
  end.

(** [pathPattern.replace(/{([^}]+)}/g, ...)] finds the placeholders that
    [Template.tokens] lists. *)
Definition resolvePath (pathPattern : string)
    (pathVariables : option (gmap string Value)) : Prog string :=
  match pathVariables with
  | None => Ret pathPattern
  | Some pathVariables => resolveTokens (Template.tokens pathPattern) pathVariables
  end.

(** One turn of the loop of [buildFinalUrl]; the replacement text, an
    [encodeURIComponent] result, holds no [$]. *)
Definition substituteVariable (url : option string) (entry : string * Value)
  : option string :=
  let '(key, value) := entry in
  url ← url;
  pattern ← RegExp.RegExp_new ("%7B" +:+ key +:+ "%7D");
  text ← Builtin.ToString value;
  Some (GlobalReplace.replaceAll pattern (Builtin.encodeURIComponent text) url).

(** [None] when [new RegExp] or [String] throws (or the expression is
    outside the fragment of [RegExp]). *)
Definition buildFinalUrl (url : string) (urlVariables : option Js.Obj)
  : option string :=
  match urlVariables with
  | Some urlVariables => foldl substituteVariable (Some url) urlVariables
  | None => Some url
  end.

Section Http.

Context `{api : UrlApi}.
Variable USER_ENVIRONMENT : ApiEnvironment.
Variable USER_TOKEN : string.

Definition buildBaseUrlFromOpenApi (openapi : Document) : string :=
  let serverObj :=
    match servers openapi with
    | Some (serverObj :: _) => serverObj
    | _ => {| url := ""; variables := None |}
    end in
  let baseUrl :=
    foldl (fun baseUrl '(key, value) =>
             Builtin.replace baseUrl ("{" +:+ key +:+ "}") (default_ value))
          (url serverObj) (default [] (variables serverObj)) in
  replaceDomainNameByEnvironment USER_ENVIRONMENT baseUrl.

Definition SCHEMA_REQUEST_BODY : string := "requestBody".

(** [operation.parameters?.find(p => !("$ref" in p) && p.name === key)] *)
Definition findParameter (operation : OperationObject) (key : string)
  : option ParameterObject :=
  head (omap (fun p =>
                match p with
                | inr p => if String.eqb (name p) key then Some p else None
                | inl _ => None
                end)
             (default [] (parameters operation))).

(** The variables that the loop of [prepareRequestData] assigns. *)
Record Prepared := {
  headers : gmap string Value;
  params : gmap string Value;
  data : Value;
  pathParams : gmap string Value
}.

(** One turn of that loop. *)
Definition prepareEntry (operation : OperationObject) (state : Prog Prepared)
    (entry : string * Value) : Prog Prepared :=
  let '(key, value) := entry in
  st ← state;
  if String.eqb key SCHEMA_REQUEST_BODY then
    Ret {| headers := headers st; params := params st; data := value;
           pathParams := pathParams st |}
  else
    match findParameter operation key with
    | Some paramDef =>
        if String.eqb (in_ paramDef) "header" then
          text ← String_ value;
          Ret {| headers := Js.setProperty (headers st) key (VStr text);
                 params := params st; data := data st;
                 pathParams := pathParams st |}
        else if String.eqb (in_ paramDef) "query" then
          Ret {| headers := headers st;
                 params := Js.setProperty (params st) key value;
                 data := data st; pathParams := pathParams st |}
        else if String.eqb (in_ paramDef) "path" then
          text ← String_ value;
          Ret {| headers := headers st; params := params st; data := data st;
                 pathParams := Js.setProperty (pathParams st) key (VStr text) |}
        else Ret st
    | None => Ret st
    end.

Definition prepareRequestData (input : Js.Obj) (operation : OperationObject)
    (path : string) : Prog RequestData.t :=
  let prop :=
    let properties := Js.get input "properties" in
    if Js.truthy properties then Builtin.entries properties else [] in
  st ← foldl (prepareEntry operation)
         (Ret {| headers := ∅; params := ∅; data := VUndefined; pathParams := ∅ |})
         prop;
  let headers := fillDefaultHeaderInfo USER_ENVIRONMENT USER_TOKEN (headers st) false in
  resolvedPath ←
    (if Nat.ltb 0 (size (pathParams st))
     then resolvePath path (Some (pathParams st))
     else Ret path);
  Ret {| RequestData.resolvedPath := resolvedPath;
         RequestData.headers := headers;
         RequestData.params := params st;
         RequestData.data := data st |}.

End Http.

End Http.

(** ** src/helper/openapi-helper.ts: schemas and the configured documents *)

Module OpenApiHelper.

Definition SCHEMA_IGNORE_KEYS : list string :=
  ["style"; "explode"; "exampleSetFlag"; "types"; "in"; "required"].

(** Whether [out[k] = ...] leaves [k] out of the object built by
    [readSchema2Map]: an ignored key is skipped, and [__proto__] sets no
    property (see [Js.setProperty]). *)
Definition dropped (k : string) : bool :=
  Js.includesStr SCHEMA_IGNORE_KEYS k || String.eqb k "__proto__".

Fixpoint readSchema2Map (obj : Value) : Value :=
  match obj with
  | VArr items => VArr (List.map readSchema2Map items)
  | VObj props =>
      VObj ((fix out (entries : list (string * Value)) : list (string * Value) :=
               match entries with
               | [] => []
               | (k, v) :: rest =>
                   if dropped k then out rest
                   else (k, readSchema2Map v) :: out rest
               end) props)
  | _ => obj
  end.

(** An operation with its parameters and its request body as the JSON
    objects they are, every field included. *)
Record Operation := {
  parameters : option (list Js.Obj);
  requestBody : option Js.Obj
}.

(** [v?.[k]] *)
Definition optionalMember (v : Value) (k : string) : Value :=
  match v with
  | VUndefined | VNull => VUndefined
  | _ => Builtin.member v k
  end.

Definition SCHEMA_REQUEST_BODY : string := "requestBody".

(** One turn of the loop over the parameters; [None] when the name of the
    parameter cannot be made a property key ([String] throws). *)
Definition addParameter (properties : option (gmap string Value)) (param : Js.Obj)
  : option (gmap string Value) :=
  properties ← properties;
  if Js.includesStr (Js.keys param) "$ref" then Some properties
  else
    let paramSchema := readSchema2Map (VObj param) in
    key ← Builtin.ToString (Js.get param "name");
    Some (Js.setProperty properties key paramSchema).

(** The [properties] of the object that [buildOperationSchema] returns. *)
Definition buildOperationSchema (operation : Operation)
  : option (gmap string Value) :=
  (* handle request param *)
  properties ← foldl addParameter (Some ∅) (default [] (parameters operation));
  (* handle request body *)
  match requestBody operation with
  | Some body =>
      let schema :=
        optionalMember
          (optionalMember (Js.get body "content") "application/json") "schema" in
      if Js.includesStr (Js.keys body) "content" && Js.truthy schema
      then Some (<[SCHEMA_REQUEST_BODY := readSchema2Map schema]> properties)
      else Some properties
  | None => Some properties
  end.

(** The lines of the configuration file that name a document. *)
Definition specPaths (content : string) : list string :=
  List.filter (fun line => Nat.ltb 0 (String.length line)
                           && negb (Builtin.startsWith line "#"))
              (Js.trim <$> Builtin.splitLines content).

(** What [getOpenApiDocumentsFromConfigFile] writes with [console.error]. *)
Inductive Logged :=
| LoadingFrom (urls : list string)
| FailedToLoad (text : string).

Section Loader.

(** [fs.existsSync] and [fs.readFileSync(_, "utf-8")], each called once, and
    [SwaggerParser.dereference], called once for each entry; the last two may
    throw.  What [dereference] answers may change from one call to the next:
    [Sources] is the state of the files and sites that the entries name. *)
Variable Sources : Type.
Variable existsSync : string -> bool.
Variable readFileSync : string -> string + JsError.
Variable dereference : Sources -> string -> (Document + JsError) * Sources.

(** The text of [console.error] for an entry that does not load. *)
Definition failedToLoad (specPath : string) : Logged :=
  FailedToLoad
    ("getOpenApiDocumentsFromConfigFile#[Failed to load OpenAPI doc from the specPath : "
       +:+ specPath +:+ "]").

(** One turn of the loop over the configured documents. *)
Definition loadDocument (state : list Logged * list Document * Sources)
    (specPath : string) : list Logged * list Document * Sources :=
  let '(log, docs, sources) := state in
  let '(answer, sources) := dereference sources specPath in
  match answer with
  | inl doc => (log, docs ++ [doc], sources)
  | inr _ => (log ++ [failedToLoad specPath], docs, sources)
  end.

(** [EBAY_API_DOC_URL_FILE] is [process.env.EBAY_API_DOC_URL_FILE]; an error
    is the one [readFileSync] threw. *)
Definition getOpenApiDocumentsFromConfigFile (EBAY_API_DOC_URL_FILE : option string)
    (sources : Sources) : list Logged * list Document + JsError :=
  let urlFile := default "" EBAY_API_DOC_URL_FILE in
  let read :=
    if negb (Js.isEmpty urlFile) && existsSync urlFile
    then match readFileSync urlFile with
         | inl content => inl (specPaths content)
         | inr e => inr e
         end
    else inl [] in
  match read with
  | inl urls => inl (foldl loadDocument ([LoadingFrom urls], [], sources) urls).1
  | inr e => inr e
  end.

End Loader.

Arguments loadDocument {Sources} dereference state specPath.
Arguments getOpenApiDocumentsFromConfigFile {Sources} existsSync readFileSync
  dereference EBAY_API_DOC_URL_FILE sources.

End OpenApiHelper.

(** ** src/service/openapi-service.ts: the URL of the search operation *)

Module Service.

(** [util.format(RECALL_SPEC_BY_PROMPT_URL, encodeURIComponent(input.prompt))] *)
Definition queryUrl (RECALL_SPEC_BY_PROMPT_URL prompt : string) : string :=
  format RECALL_SPEC_BY_PROMPT_URL [Builtin.encodeURIComponent prompt].

End Service.

(** ** src/index.ts: the check of the environment variables *)

Module Index.

(** What the check writes, with [console.error] or with [console.warn]. *)
Inductive Written :=
| ToError (text : string)
| ToWarn (text : string).

Definition REQUIRED_ENV_VARS : list string := ["EBAY_CLIENT_TOKEN"; "EBAY_API_ENV"].

(** [!process.env[varName]]: the variable is unset or empty. *)
Definition unset (env : gmap string string) (varName : string) : bool :=
  Js.isEmpty (default "" (env !! varName)).

Definition quote : string := String "034" "".

(** [checkEnvironmentVariables] on [process.env]: what it writes, and the
    status with which [process.exit] ends the process, when it does. *)
Definition checkEnvironmentVariables (env : gmap string string)
  : list Written * option nat :=
  (* environment vals check *)
  let missingVars := List.filter (unset env) REQUIRED_ENV_VARS in
  if Nat.ltb 0 (length missingVars) then
    ([ToError ("Missing required environment variables: " +:+ Js.join ", " missingVars)],
     Some 1)
  else if negb (unset env "EBAY_ENVIRONMENT")
          && negb (Js.includesStr ["sandbox"; "production"]
                     (Js.toLowerCase (default "" (env !! "EBAY_ENVIRONMENT")))) then
    ([ToWarn ("Warning: EBAY_ENVIRONMENT must be either " +:+ quote +:+ "sandbox"
                +:+ quote +:+ " or " +:+ quote +:+ "production" +:+ quote);
      ToWarn ("Current value " +:+ quote +:+ default "" (env !! "EBAY_ENVIRONMENT")
                +:+ quote +:+ " is invalid, defaulting to " +:+ quote +:+ "production"
                +:+ quote)],
     None)
  else ([], None).

(** [USER_ENVIRONMENT], from [process.env.EBAY_API_ENV || ""]. *)
Definition userEnvironment (fallback : ApiEnvironment) (env : gmap string string)
  : ApiEnvironment :=
  findApiEnvironmentByValue fallback (default "" (env !! "EBAY_API_ENV")).

End Index.

(** ** Notions used to state the properties *)

(** *** Instances of a path template *)

Module Routing.
Import Template.

(** The template with its placeholders replaced, from left to right, by
    [segments]. *)
Fixpoint fill (ts : list token) (segments : list string) : string :=
  match ts with
  | [] => ""
  | Char c :: ts' => String c (fill ts' segments)
  | Hole _ :: ts' =>
      match segments with
      | seg :: rest => seg +:+ fill ts' rest
      | [] => fill ts' []
      end
  end.

Definition instantiate (template : string) (segments : list string) : string :=
  fill (tokens template) segments.

(** A path segment: not empty, no [/]. *)
Definition isSegment (s : string) : bool :=
  negb (Js.isEmpty s) && Js.allChars (fun c => negb (Ascii.eqb c "/")) s.

Fixpoint holes (ts : list token) : nat :=
  match ts with
  | [] => 0
  | Char _ :: ts' => holes ts'
  | Hole _ :: ts' => S (holes ts')
  end.

(** The atom of a token in the template's expression. *)
Definition atomOf (t : token) : RegExp.atom :=
  match t with
  | Char c => if Ascii.eqb c "." then RegExp.AnyChar else RegExp.Lit c
  | Hole _ => RegExp.Segment
  end.

(** A character that a pattern reads as itself, or [.], which matches it. *)
Definition plainChar (c : ascii) : bool :=
  negb (RegExp.isSyntaxChar c) && negb (Js.charIn c "${}").

(** A template made of placeholders and plain characters. *)
Definition plain (template : string) : bool :=
  forallb (fun t => match t with Char c => plainChar c | Hole _ => true end)
          (tokens template).

(** The test of the loop of [validatePath] on one template. *)
Definition templateMatches (paths : list (string * option PathItemObject))
    (apiPath specPath : string) : bool :=
  match toRegExp specPath with
  | Some re => RegExp.test re apiPath && bool_decide (is_Some (lookupPath paths specPath))
  | None => false
  end.

End Routing.

(** *** What a validator reports, and when it returns *)

(** What a computation pushes when it starts on the empty array. *)
Definition reported {A} (c : Check A) : list string := (c []).2.

(** A computation that only pushes to the array: what it does is what it
    does on the empty array, after the violations that are already there. *)
Definition appends {A} (c : Check A) : Prop :=
  forall errors, c errors = ((c []).1, errors ++ (c []).2).

(** The names under which an object finds a property that it inherits from
    [Object.prototype].  Objects are kept with the properties they have of
    their own: the read [o[k]] is the one of the model when [o] has a
    property [k] of its own, or when [k] is none of these names. *)
Definition inheritedNames : list string :=
  ["constructor"; "hasOwnProperty"; "isPrototypeOf"; "propertyIsEnumerable";
   "toLocaleString"; "toString"; "valueOf"; "__proto__"; "__defineGetter__";
   "__defineSetter__"; "__lookupGetter__"; "__lookupSetter__"].

Definition ownName (key : string) : bool :=
  negb (Js.includesStr inheritedNames key).

Section Compiles.

Variable ajv : AjvOptions -> SchemaObject -> (Value -> option string) + JsError.

(** The options of the parameter validators, and of the body validator. *)
Definition parameterOptions : AjvOptions := {| allErrors := true; strict := true |}.
Definition bodyOptions : AjvOptions := {| allErrors := true; strict := false |}.

Definition compiles (opts : AjvOptions) (schema : SchemaObject) : bool :=
  match ajv opts schema with
  | inl _ => true
  | inr _ => false
  end.

(** Every schema that the parameters declare compiles. *)
Definition parametersCompile
    (parameters : option (list (ReferenceObject + ParameterObject))) : bool :=
  forallb (fun param =>
             match param with
             | inr p =>
                 match schema p with
                 | Some s => compiles parameterOptions s
                 | None => true
                 end
             | inl _ => true
             end)
          (default [] parameters).

(** The schema that the body is validated against, if any, compiles. *)
Definition bodyCompiles (operationBody : option (ReferenceObject + RequestBodyObject))
  : bool :=
  match operationBody with
  | Some (inr requestBody) =>
      match bodySchema requestBody with
      | Some s => compiles bodyOptions s
      | None => true
      end
  | _ => true
  end.

Definition schemasCompile (operation : OperationObject) : bool :=
  parametersCompile (parameters operation)
  && bodyCompiles (OpenAPIV3.requestBody operation).

End Compiles.

(** *** Sample documents and requests *)

Module Examples.

Definition stringSchema : SchemaObject := Schema (Some "string") None.
Definition booleanSchema : SchemaObject := Schema (Some "boolean") None.
Definition integerSchema : SchemaObject := Schema (Some "integer") None.
Definition integerArraySchema : SchemaObject :=
  Schema (Some "array") (Some integerSchema).

Definition param (name location : string) (required : bool) (schema : SchemaObject)
  : ParameterObject :=
  {| name := name; in_ := location; required := Some required;
     schema := Some schema; style := None; explode := None |}.

Definition item_id : ParameterObject := param "item_id" "path" true stringSchema.
Definition fieldgroups : ParameterObject := param "fieldgroups" "query" true stringSchema.
Definition marketplace : ParameterObject :=
  param "X-EBAY-C-MARKETPLACE-ID" "header" true stringSchema.

(** Query parameters of the three coerced types. *)
Definition auto_correct : ParameterObject :=
  param "auto_correct" "query" false booleanSchema.
Definition limit : ParameterObject := param "limit" "query" false integerSchema.

(** [style: form, explode: false], an array of integers. *)
Definition charity_ids : ParameterObject :=
  {| name := "charity_ids"; in_ := "query"; required := Some false;
     schema := Some integerArraySchema; style := Some "form";
     explode := Some false |}.

(** The same array parameter with [style] and [explode] left out. *)
Definition charity_ids_default_style : ParameterObject :=
  param "charity_ids" "query" false integerArraySchema.

Definition getItem : OperationObject :=
  {| operationId := Some "getItem";
     parameters := Some [inr item_id; inr fieldgroups; inr marketplace];
     OpenAPIV3.requestBody := None |}.

Definition getItemByLegacyId : OperationObject :=
  {| operationId := Some "getItemByLegacyId";
     parameters := Some [];
     OpenAPIV3.requestBody := None |}.

Definition getItemPath : PathItemObject := {[ "get" := getItem ]}.
Definition getItemByLegacyIdPath : PathItemObject := {[ "get" := getItemByLegacyId ]}.

(** Two paths of a browse API, the template with a placeholder first. *)
Definition browse : Document :=
  {| servers := None;
     paths := Some [("/item/{item_id}", Some getItemPath);
                    ("/item/get_item_by_legacy_id", Some getItemByLegacyIdPath)] |}.

(** A notification API that declares its base path as a server variable. *)
Definition getTopic : OperationObject :=
  {| operationId := Some "getTopic";
     parameters := Some [inr (param "topic_id" "path" true stringSchema)];
     OpenAPIV3.requestBody := None |}.

Definition getTopicPath : PathItemObject := {[ "get" := getTopic ]}.

Definition notification : Document :=
  {| servers := Some [{| url := "https://api.ebay.com{basePath}";
                         variables := Some [("basePath",
                                             {| default_ := "/commerce/notification/v1" |})] |}];
     paths := Some [("/topic/{topic_id}", Some getTopicPath)] |}.

(** An inventory API.  [updateOffer] gives the schema of its body as the
    specifications do, by a reference into [components]; [replaceItem]
    declares parameters of the three locations and writes the schema of its
    body in place. *)
Definition offerId : ParameterObject := param "offerId" "path" true stringSchema.
Definition contentLanguage : ParameterObject :=
  param "Content-Language" "header" true stringSchema.
Definition sku : ParameterObject := param "sku" "path" true stringSchema.
Definition marketplace_id : ParameterObject :=
  param "marketplace_id" "query" true stringSchema.

Definition offerSchema : SchemaObject :=
  SchemaRef "#/components/schemas/EbayOfferDetailsWithId".
Definition objectSchema : SchemaObject := Schema (Some "object") None.

Definition jsonBody (required : bool) (schema : SchemaObject) : RequestBodyObject :=
  {| body_required := Some required;
     OpenAPIV3.content :=
       {[ "application/json" := {| media_schema := Some schema |} ]} |}.

Definition updateOffer : OperationObject :=
  {| operationId := Some "updateOffer";
     parameters := Some [inr offerId; inr contentLanguage];
     OpenAPIV3.requestBody := Some (inr (jsonBody true offerSchema)) |}.

Definition replaceItem : OperationObject :=
  {| operationId := Some "createOrReplaceInventoryItem";
     parameters := Some [inr sku; inr marketplace_id; inr contentLanguage];
     OpenAPIV3.requestBody := Some (inr (jsonBody true objectSchema)) |}.

Definition updateOfferPath : PathItemObject := {[ "put" := updateOffer ]}.
Definition replaceItemPath : PathItemObject := {[ "put" := replaceItem ]}.

Definition inventory : Document :=
  {| servers := None;
     paths := Some [("/offer/{offerId}", Some updateOfferPath);
                    ("/inventory_item/{sku}", Some replaceItemPath)] |}.

Definition updateOfferUrl : string :=
  "https://api.ebay.com/sell/inventory/v1/offer/{offerId}".
Definition replaceItemUrl : string :=
  "https://api.ebay.com/sell/inventory/v1/inventory_item/{sku}".

Definition updateOfferResolved : PathResult :=
  {| pathValidateRes := true; apiPath := "/sell/inventory/v1/offer/{offerId}";
     specPath := "/offer/{offerId}"; specPathItem := Some updateOfferPath |}.

Definition replaceItemResolved : PathResult :=
  {| pathValidateRes := true; apiPath := "/sell/inventory/v1/inventory_item/{sku}";
     specPath := "/inventory_item/{sku}"; specPathItem := Some replaceItemPath |}.

(** The body of a request that changes the quantity of an offer. *)
Definition offer : Js.Obj := [("availableQuantity", VNum (Decimal 5 0))].

Definition filter : ParameterObject :=
  param "filter" "query" false (SchemaRef "#/components/schemas/FilterField").


Definition options : AjvOptions := {| allErrors := true; strict := true |}.

(** An environment in which the specification service answers [body], and
    neither parser accepts it. *)
Definition parseError (text : string) : JsError :=
  {| message := text; responseData := None |}.

Definition unparsableWorld (body : string) : World :=
  fun X c =>
    match c in Call X return X + JsError with
    | AxiosGet _ => inl body
    | AxiosRequest _ => inl VNull
    | JsonParse _ => inr (parseError "Unexpected token")
    | YamlLoad _ => inr (parseError "bad indentation of a mapping entry")
    | ConsoleError _ => inl tt
    end.

(** An environment in which the specification service answers with a
    document that [JSON.parse] reads as [doc]. *)
Definition world (doc : Document) : World :=
  fun X c =>
    match c in Call X return X + JsError with
    | AxiosGet _ => inl "{...}"
    | AxiosRequest _ => inl (VStr "{}")
    | JsonParse _ => inl doc
    | YamlLoad _ => inl doc
    | ConsoleError _ => inl tt
    end.

(** A request for an item, and what it resolves to. *)
Definition getItemUrl : string := "https://api.ebay.com/buy/browse/v1/item/{item_id}".

Definition getItemResolved : PathResult :=
  {| pathValidateRes := true; apiPath := "/buy/browse/v1/item/{item_id}";
     specPath := "/item/{item_id}"; specPathItem := Some getItemPath |}.

Definition input (vars : option Js.Obj) (query hdrs : option (gmap string Value))
  : ValidationInput :=
  {| urlVariables := vars; urlQueryParams := query; headers := hdrs;
     requestBody := None |}.

(** A request to change the quantity of an offer that leaves out the id of
    the offer. *)
Definition changeQuantity (hdrs : gmap string Value) : ValidationInput :=
  {| urlVariables := Some []; urlQueryParams := None; headers := Some hdrs;
     requestBody := Some offer |}.

(** A request to replace an item that gives nothing of what the operation
    requires. *)
Definition bareRequest : ValidationInput :=
  {| urlVariables := Some []; urlQueryParams := Some ∅; headers := Some ∅;
     requestBody := None |}.

(** The handler of the generic invoke operation, configured. *)
Definition stringify (v : Value) : string := "{}".

Definition handler : InvokeInput -> Prog CallToolResult :=
  invokeApi (api := simpleUrlApi) Ajv.compile SANDBOX "token"
    "https://api.ebay.com/developer/mcp/v1/search/%s?operationId=%s" true
    stringify (fun url _ => Some url)
    (parseError "Invalid regular expression") (parseError "Invalid regular expression").

(** An invocation that leaves out the required path variable. *)
Definition invocation : InvokeInput :=
  {| arg_url := "https://api.ebay.com/buy/browse/v1/item/{item_id}";
     arg_method := "GET";
     arg_headers := None;
     arg_urlVariables := Some [];
     arg_urlQueryParams := None;
     arg_requestBody := None;
     arg_specTitle := "Browse API";
     arg_operationId := "getItem" |}.

End Examples.

(** *** Further notions *)

Module Paths.
Import Template.

(** The names of the placeholders of a template, from left to right. *)
Fixpoint holeNames (ts : list token) : list string :=
  match ts with
  | [] => []
  | Char _ :: ts' => holeNames ts'
  | Hole key :: ts' => key :: holeNames ts'
  end.

(** A character that a pattern reads as itself and nothing else. *)
Definition literalChar (c : ascii) : bool :=
  Routing.plainChar c && negb (Ascii.eqb c ".").

(** A text whose expression matches that text only. *)
Definition literal (s : string) : bool := Js.allChars literalChar s.

(** A variable that [resolvePath] can use: defined, and convertible to the
    text [seg]. *)
Definition provides (pathVariables : gmap string Value) (key seg : string) : Prop :=
  exists v, pathVariables !! key = Some v /\ v <> VUndefined
            /\ Builtin.ToString v = Some seg.

End Paths.

Module Schemas.

(** No property of [v], at any depth, has a key that [readSchema2Map]
    leaves out. *)
Fixpoint free (v : Value) : bool :=
  match v with
  | VArr items => forallb free items
  | VObj props =>
      (fix all (entries : list (string * Value)) : bool :=
         match entries with
         | [] => true
         | (k, v) :: rest => negb (OpenApiHelper.dropped k) && free v && all rest
         end) props
  | _ => true
  end.

End Schemas.

Module Loading.

(** The answers of [dereference] to the entries of the configuration, asked
    one after the other. *)
Fixpoint answers {Sources} (dereference : Sources -> string -> (Document + JsError) * Sources)
    (sources : Sources) (urls : list string) : list (string * (Document + JsError)) :=
  match urls with
  | [] => []
  | specPath :: rest =>
      let '(answer, sources') := dereference sources specPath in
      (specPath, answer) :: answers dereference sources' rest
  end.

(** The documents among the answers, and the failures as they are logged. *)
Definition loaded (outcomes : list (string * (Document + JsError))) : list Document :=
  omap (fun outcome => match outcome.2 with inl doc => Some doc | inr _ => None end)
       outcomes.

Definition failures (outcomes : list (string * (Document + JsError)))
  : list OpenApiHelper.Logged :=
  omap (fun outcome =>
          match outcome.2 with
          | inl _ => None
          | inr _ => Some (OpenApiHelper.failedToLoad outcome.1)
          end)
       outcomes.

End Loading.

(** [yaml.load] threw. *)
Definition yamlLoadThrew (e : Event) : bool :=
  match e with
  | Ev (YamlLoad _) (inr _) => true
  | Ev _ _ => false
  end.

(** *** Further samples *)

Module Samples.
Import Examples.

(** A document whose base path ends its only template. *)
Definition feeds : Document :=
  {| servers := Some [{| url := "https://api.ebay.com{basePath}";
                         variables := Some [("basePath", {| default_ := "/v1" |})] |}];
     paths := Some [("/{api}/v1", Some getItemByLegacyIdPath)] |}.

Definition feedsResolved : PathResult :=
  {| pathValidateRes := true; apiPath := "/sell/feed/v1";
     specPath := "/{api}/v1"; specPathItem := Some getItemByLegacyIdPath |}.

(** The arguments of a call of the operation generated for [getItem]; the
    last one names no parameter of the operation. *)
Definition getItemArguments : list (string * Value) :=
  [("item_id", VStr "v1|123|0");
   ("fieldgroups", VStr "COMPACT");
   ("X-EBAY-C-MARKETPLACE-ID", VStr "EBAY_US");
   ("limit", VNum (Decimal 5 0))].

Definition toolInput (arguments : list (string * Value)) : Js.Obj :=
  [("properties", VObj arguments)].

(** What [prepareRequestData] makes of these arguments in the sandbox. *)
Definition prepared : Prog RequestData.t :=
  Http.prepareRequestData SANDBOX "token" (toolInput getItemArguments) getItem
    "/item/{item_id}".

Definition preparedData : RequestData.t :=
  match prepared with
  | Ret d => d
  | _ => {| RequestData.resolvedPath := ""; RequestData.headers := ∅;
            RequestData.params := ∅; RequestData.data := VUndefined |}
  end.

(** An operation as the JSON object it is: two parameters, one more given by
    reference, and a JSON body whose schema lists a required property. *)
Definition rawOperation : OpenApiHelper.Operation :=
  {| OpenApiHelper.parameters :=
       Some [[("name", VStr "item_id"); ("in", VStr "path");
              ("required", VBool true);
              ("schema", VObj [("type", VStr "string")])];
             [("$ref", VStr "#/components/parameters/marketplace")];
             [("name", VStr "fieldgroups"); ("in", VStr "query");
              ("required", VBool false); ("style", VStr "form");
              ("schema", VObj [("type", VStr "array");
                               ("items", VObj [("type", VStr "string")])])]];
     OpenApiHelper.requestBody :=
       Some [("required", VBool true);
             ("content",
              VObj [("application/json",
                     VObj [("schema",
                            VObj [("type", VStr "object");
                                  ("required", VArr [VStr "sku"]);
                                  ("properties",
                                   VObj [("sku", VObj [("type", VStr "string")])])])])])] |}.

(** A configuration file: a comment, an entry with white space around it,
    an empty line. *)
Definition configuration : list string :=
  ["# the browse API"; "  https://developer.ebay.com/browse.json "; ""].

(** An environment in which neither parser reads the specification. *)
Definition unreadable : World := unparsableWorld "<html>".

(** An invocation of [getItem] with everything the operation requires. *)
Definition validInvocation : InvokeInput :=
  {| arg_url := "https://api.ebay.com/buy/browse/v1/item/{item_id}";
     arg_method := "GET";
     arg_headers := Some {[ "X-EBAY-C-MARKETPLACE-ID" := ["EBAY_US"] ]};
     arg_urlVariables := Some [("item_id", VStr "v1|123|0")];
     arg_urlQueryParams := Some {[ "fieldgroups" := VStr "COMPACT" ]};
     arg_requestBody := None;
     arg_specTitle := "Browse API";
     arg_operationId := "getItem" |}.

(** The invoke operation in production, with [buildFinalUrl] as the helper
    has it. *)
Definition production : InvokeInput -> Prog CallToolResult :=
  invokeApi (api := simpleUrlApi) Ajv.compile PRODUCTION "token"
    "https://api.ebay.com/developer/mcp/v1/search/%s?operationId=%s" true
    stringify Http.buildFinalUrl
    (parseError "Invalid regular expression") (parseError "Invalid regular expression").

(** The requests to the remote API in a trace. *)
Definition requestsOf (t : list Event) : list AxiosRequestConfig :=
  omap (fun e => match e with
                 | Ev (AxiosRequest c) _ => Some c
                 | Ev _ _ => None
                 end) t.

(** A configuration whose second entry is asked for twice; the site answers
    from the second request on. *)
Definition twice : string :=
  Js.join (String "010" "") ["a.json"; "b.json"; "b.json"].

Definition slowSite (asked : nat) (specPath : string) : (Document + JsError) * nat :=
  (if String.eqb specPath "a.json" then inl browse
   else if Nat.ltb 0 asked then inl feeds
   else inr (parseError "ECONNRESET"),
   if String.eqb specPath "b.json" then S asked else asked).

(** The variables of a process whose [EBAY_API_ENV] names no environment. *)
Definition mistyped : gmap string string :=
  {[ "EBAY_CLIENT_TOKEN" := "token"; "EBAY_API_ENV" := "prod" ]}.

(** An operation that declares the bearer token as a required header. *)
Definition authorized : option (list (ReferenceObject + ParameterObject)) :=
  Some [inr (param "Authorization" "header" true stringSchema)].

End Samples.
(** *** Facts on [span], [stripPrefix] and [allChars] *)

Module JsFacts.
Import Js.

Lemma append_cons (c : ascii) (s t : string) : String c s +:+ t = String c (s +:+ t).
Proof. reflexivity. Qed.

Lemma append_nil_l (s : string) : "" +:+ s = s.
Proof. reflexivity. Qed.

Lemma append_nil_r (s : string) : s +:+ "" = s.
Proof.
  induction s as [|c s IH]; [done |]. by rewrite append_cons, IH.
Qed.

Lemma append_assoc (a b c : string) : (a +:+ b) +:+ c = a +:+ (b +:+ c).
Proof.
  induction a as [|x a IH]; [done |]. by rewrite !append_cons, IH.
Qed.

Lemma span_app (p : ascii -> bool) (a b : string) :
  allChars p a = true -> startsOutside p b = true -> span p (a +:+ b) = (a, b).
Proof.
  induction a as [|c a IH]; intros Ha Hb.
  - rewrite append_nil_l. destruct b as [|x b]; simpl in *; [done |].
    apply negb_true_iff in Hb. by rewrite Hb.
  - rewrite append_cons. simpl in *.
    apply andb_true_iff in Ha as [Hc Ha]. rewrite Hc, (IH Ha Hb). done.
Qed.

Lemma span_spec (p : ascii -> bool) (s a b : string) :
  span p s = (a, b) ->
  s = a +:+ b /\ allChars p a = true /\ startsOutside p b = true.
Proof.
  revert a b. induction s as [|c s IH]; simpl; intros a b H.
  - by inversion H.
  - destruct (p c) eqn:Hc.
    + destruct (span p s) as [a' b'] eqn:Hs. inversion H; subst.
      destruct (IH a' b eq_refl) as (-> & Ha & Hb).
      rewrite append_cons. simpl. by rewrite Hc.
    + inversion H; subst. rewrite append_nil_l. simpl. by rewrite Hc.
Qed.

Lemma stripPrefix_app (p s : string) : stripPrefix p (p +:+ s) = Some s.
Proof.
  induction p as [|c p IH]; [by destruct s |].
  rewrite append_cons. simpl. by rewrite Ascii.eqb_refl.
Qed.

Lemma stripPrefix_spec (p s r : string) : stripPrefix p s = Some r -> s = p +:+ r.
Proof.
  revert s. induction p as [|c p IH]; intros s; simpl.
  - destruct s; by inversion 1.
  - destruct s as [|x s]; [done |].
    destruct (Ascii.eqb c x) eqn:E; [| done].
    apply Ascii.eqb_eq in E as ->. intros H.
    by rewrite append_cons, <- (IH _ H).
Qed.

Lemma allChars_app (p : ascii -> bool) (a b : string) :
  allChars p (a +:+ b) = allChars p a && allChars p b.
Proof.
  induction a as [|c a IH]; [done |].
  rewrite append_cons. simpl. by rewrite IH, andb_assoc.
Qed.

Lemma allChars_impl (p q : ascii -> bool) (s : string) :
  (forall c, p c = true -> q c = true) -> allChars p s = true -> allChars q s = true.
Proof.
  intros Hpq. induction s as [|c s IH]; simpl; [done |].
  intros [Hc Hs]%andb_true_iff. by rewrite (Hpq _ Hc), (IH Hs).
Qed.

End JsFacts.

(** *** The reference implementation satisfies the interface's laws *)

Module SimpleUrlFacts.
Import Js JsFacts SimpleUrl.

Ltac by_cases_on c :=
  destruct c as [[] [] [] [] [] [] [] []]; vm_compute; intros; congruence.

Lemma hostChar_authorityChar c : isHostChar c = true -> isAuthorityChar c = true.
Proof. by_cases_on c. Qed.

Lemma digit_authorityChar c : isDigit c = true -> isAuthorityChar c = true.
Proof. by_cases_on c. Qed.

Lemma parse_wf (s : string) (u : url) : parse s = Some u -> wf u = true.
Proof.
  unfold parse, wf.
  destruct (span isSchemeChar s) as [sch r1] eqn:H1.
  destruct (startsAlpha sch) eqn:Hal; cbn [negb]; [| done].
  destruct (stripPrefix "://" r1) as [r2|] eqn:H2; cbn [mbind option_bind]; [| done].
  destruct (span isAuthorityChar r2) as [authority rst] eqn:H3.
  destruct (span isHostChar authority) as [host prt] eqn:H4.
  destruct (isEmpty host) eqn:He; cbn [orb]; [done |].
  destruct (validPort prt) eqn:Hp; cbn [negb]; [| done].
  intros [= <-]; cbn [scheme hostname port rest].
  apply span_spec in H1 as (_ & -> & _).
  apply span_spec in H3 as (_ & _ & ->).
  apply span_spec in H4 as (_ & Hh & _).
  unfold validHost. by rewrite Hal, He, Hh, Hp.
Qed.

Lemma setHostname_wf (u : url) (h : string) :
  wf u = true -> wf (setHostname u h) = true.
Proof.
  unfold setHostname. destruct (validHost h) eqn:Hh; [| done].
  unfold wf; simpl. rewrite Hh.
  intros H. repeat (apply andb_true_iff in H as [H ?]).
  repeat (apply andb_true_iff; split); done.
Qed.

Lemma parse_toString (u : url) : wf u = true -> parse (toString u) = Some u.
Proof.
  destruct u as [sch host prt rst].
  unfold wf, toString, parse; cbn [scheme hostname port rest].
  intros H. repeat (apply andb_true_iff in H as [H ?]).
  match goal with Hv : validHost _ = true |- _ =>
    apply andb_true_iff in Hv as [Hne Hhost] end.
  rewrite (span_app isSchemeChar sch) by (done || reflexivity).
  rewrite H; cbn [negb].
  rewrite stripPrefix_app; cbn [mbind option_bind].
  rewrite <- (append_assoc host prt rst).
  assert (Hprt : allChars isAuthorityChar prt = true).
  { destruct prt as [|c ds]; [done |]. cbn [validPort allChars] in *.
    match goal with Hp : _ && _ = true |- _ =>
      apply andb_true_iff in Hp as [Hc Hds] end.
    apply Ascii.eqb_eq in Hc as ->.
    by rewrite (allChars_impl _ _ _ digit_authorityChar Hds). }
  rewrite (span_app isAuthorityChar (host +:+ prt)); first last; [done | |].
  { rewrite allChars_app, Hprt, andb_true_r.
    by apply (allChars_impl _ _ _ hostChar_authorityChar). }
  rewrite (span_app isHostChar host prt); first last; [| done |].
  { destruct prt as [|c ds]; [done |]. cbn [validPort] in *.
    match goal with Hp : _ && _ = true |- _ =>
      apply andb_true_iff in Hp as [Hc _] end.
    by apply Ascii.eqb_eq in Hc as ->. }
  apply negb_true_iff in Hne. rewrite Hne.
  match goal with Hp : validPort _ = true |- _ => rewrite Hp end. done.
Qed.

Lemma reparse (s : string) (u : url) (h : string) :
  parse s = Some u -> parse (toString (setHostname u h)) = Some (setHostname u h).
Proof.
  intros H. apply parse_toString, setHostname_wf, (parse_wf _ _ H).
Qed.

Lemma setHostname_twice (u : url) (h : string) :
  setHostname (setHostname u h) h = setHostname u h.
Proof.
  unfold setHostname. destruct (validHost h) eqn:Hh; simpl; by rewrite ?Hh.
Qed.

End SimpleUrlFacts.

Lemma simpleUrl_laws : UrlLaws simpleUrlApi.
Proof.
  split; [apply SimpleUrlFacts.reparse | apply SimpleUrlFacts.setHostname_twice].
Qed.

(** ** Computations on the violation list *)

Section CheckFacts.

Lemma ret_appends {A} (a : A) : appends (mret a : Check A).
Proof. intros errors. cbn. by rewrite app_nil_r. Qed.

Lemma push_appends (text : string) : appends (Check.push text).
Proof. by intros errors. Qed.

(** What a sequence does on the empty array. *)
Lemma bind_run {A B} (c : Check A) (f : A -> Check B) :
  (forall a, appends (f a)) ->
  (c ≫= f) [] = match (c []).1 with
                 | inl a => ((f a []).1, (c []).2 ++ (f a []).2)
                 | inr e => (inr e, (c []).2)
                 end.
Proof.
  intros Hf. unfold mbind, check_bind, Check.bind.
  destruct (c []) as [[a | e] out]; cbn [fst snd]; [| done].
  apply (Hf a out).
Qed.

Lemma bind_appends {A B} (c : Check A) (f : A -> Check B) :
  appends c -> (forall a, appends (f a)) -> appends (c ≫= f).
Proof.
  intros Hc Hf errors. rewrite (bind_run c f Hf).
  unfold mbind, check_bind, Check.bind. rewrite (Hc errors).
  destruct (c []) as [[a | e] out]; cbn [fst snd]; [| done].
  rewrite (Hf a (errors ++ out)). by rewrite app_assoc.
Qed.

Lemma forEach_appends {A} (f : A -> Check unit) (l : list A) :
  (forall a, appends (f a)) -> appends (Check.forEach f l).
Proof.
  intros Hf. induction l as [|a l IH]; [apply (ret_appends tt) |].
  apply (bind_appends (f a) (fun _ => Check.forEach f l)); [apply Hf | done].
Qed.

Lemma forEach_cons {A} (f : A -> Check unit) (a : A) (l : list A) :
  (forall a, appends (f a)) ->
  Check.forEach f (a :: l) []
  = match (f a []).1 with
    | inl _ => ((Check.forEach f l []).1, (f a []).2 ++ (Check.forEach f l []).2)
    | inr e => (inr e, (f a []).2)
    end.
Proof.
  intros Hf.
  apply (bind_run (f a) (fun _ => Check.forEach f l)). intros _.
  by apply forEach_appends.
Qed.

(** A loop whose turns all return returns, with what every turn pushed. *)
Lemma forEach_returns {A} (f : A -> Check unit) (l : list A) :
  (forall a, appends (f a)) ->
  (forall a, a ∈ l -> (f a []).1 = inl tt) ->
  (Check.forEach f l []).1 = inl tt
  /\ forall a m, a ∈ l -> m ∈ (f a []).2 -> m ∈ (Check.forEach f l []).2.
Proof.
  intros Hf. induction l as [|a l IH]; intros Hl.
  - split; [done |]. by intros a m ?%elem_of_nil.
  - rewrite (forEach_cons f a l Hf), (Hl a) by apply list_elem_of_here.
    destruct IH as [IH1 IH2]; [intros b Hb; by apply Hl, list_elem_of_further |].
    cbn [fst snd]. split; [done |].
    intros b m [-> | Hb]%elem_of_cons Hm; apply elem_of_app; [by left |].
    right. by apply (IH2 b).
Qed.

(** In a loop that returns every turn returned. *)
Lemma forEach_returned {A} (f : A -> Check unit) (l : list A) :
  (forall a, appends (f a)) ->
  (Check.forEach f l []).1 = inl tt ->
  forall a, a ∈ l -> (f a []).1 = inl tt.
Proof.
  intros Hf. induction l as [|a l IH]; [by intros _ a ?%elem_of_nil |].
  rewrite (forEach_cons f a l Hf).
  destruct (f a []) as [[[] | e] out] eqn:E; cbn [fst snd]; [| done].
  intros Hl b [-> | Hb]%elem_of_cons; [by rewrite E | by apply IH].
Qed.

Lemma forEach_messages {A} (f : A -> Check unit) (l : list A) :
  (forall a, appends (f a)) ->
  (Check.forEach f l []).1 = inl tt ->
  forall a m, a ∈ l -> m ∈ (f a []).2 -> m ∈ (Check.forEach f l []).2.
Proof.
  intros Hf Hl. apply forEach_returns; [done |]. by apply forEach_returned.
Qed.

(** What a loop pushed was pushed by one of its turns. *)
Lemma forEach_reported {A} (f : A -> Check unit) (l : list A) (m : string) :
  (forall a, appends (f a)) ->
  m ∈ (Check.forEach f l []).2 -> exists a, a ∈ l /\ m ∈ (f a []).2.
Proof.
  intros Hf. induction l as [|a l IH]; [by intros ?%elem_of_nil |].
  rewrite (forEach_cons f a l Hf).
  destruct (f a []) as [[[] | e] out] eqn:E; cbn [fst snd].
  - intros [Hm | Hm]%elem_of_app.
    + exists a. split; [apply list_elem_of_here | by rewrite E].
    + destruct (IH Hm) as (b & Hb & Hmb). exists b.
      split; [by apply list_elem_of_further | done].
  - intros Hm. exists a. split; [apply list_elem_of_here | by rewrite E].
Qed.

(** Loops whose turns do the same do the same. *)
Lemma forEach_ext {A} (f g : A -> Check unit) (l : list A) :
  (forall a, a ∈ l -> f a = g a) -> Check.forEach f l = Check.forEach g l.
Proof.
  induction l as [|a l IH]; intros H; [done |]. cbn [Check.forEach].
  rewrite (H a) by apply list_elem_of_here.
  rewrite IH; [done |]. intros b Hb. by apply H, list_elem_of_further.
Qed.

End CheckFacts.

(** ** The validation engine: how violations accumulate *)

Section ValidationFacts.

Context `{api : UrlApi}.
Variable ajv : AjvOptions -> SchemaObject -> (Value -> option string) + JsError.

Lemma compile_appends opts s : appends (compile ajv opts s).
Proof. intros errors. unfold compile. cbn. by rewrite app_nil_r. Qed.

Ltac solve_appends :=
  repeat case_match;
  first [ apply push_appends
        | apply (ret_appends tt)
        | apply bind_appends;
          [apply compile_appends
          | intros ?; case_match; [apply push_appends | apply (ret_appends tt)]] ].

Lemma checkPathParam_appends vars p : appends (checkPathParam ajv vars p).
Proof. unfold checkPathParam. solve_appends. Qed.

Lemma checkQueryParam_appends q p : appends (checkQueryParam ajv q p).
Proof. unfold checkQueryParam. solve_appends. Qed.

Lemma checkHeaderParam_appends h p : appends (checkHeaderParam ajv h p).
Proof. unfold checkHeaderParam. solve_appends. Qed.

Lemma validateUrlPathParam_appends vars ps : appends (validateUrlPathParam ajv vars ps).
Proof.
  destruct vars as [vars|]; [| apply (ret_appends tt)].
  cbn [validateUrlPathParam].
  apply bind_appends; [apply forEach_appends, checkPathParam_appends |].
  intros _. apply bind_appends; [solve_appends |]. intros _. solve_appends.
Qed.

Lemma validateUrlQueryParam_appends q ps : appends (validateUrlQueryParam ajv q ps).
Proof.
  destruct q as [q|]; [| apply (ret_appends tt)].
  apply forEach_appends, checkQueryParam_appends.
Qed.

Lemma validateUrlHeaders_appends h ps : appends (validateUrlHeaders ajv h ps).
Proof.
  destruct h as [h|]; [| apply (ret_appends tt)].
  apply forEach_appends, checkHeaderParam_appends.
Qed.

Lemma validateUrlRequestBody_appends body ob : appends (validateUrlRequestBody ajv body ob).
Proof. unfold validateUrlRequestBody. solve_appends. Qed.

(** *** When the validators return *)

Lemma elem_of_paramsIn (location : string) parameters (param : ParameterObject) :
  inr param ∈ default [] parameters ->
  in_ param = location ->
  param ∈ paramsIn location parameters.
Proof.
  intros Hin Hloc. unfold paramsIn. apply list_elem_of_omap.
  exists (inr param). split; [done |]. by rewrite Hloc, String.eqb_refl.
Qed.

Lemma paramsIn_declared (location : string) parameters (param : ParameterObject) :
  param ∈ paramsIn location parameters ->
  inr param ∈ default [] parameters /\ in_ param = location.
Proof.
  unfold paramsIn. intros ([ref | p] & Hin & H)%list_elem_of_omap; [done |].
  destruct (String.eqb (in_ p) location) eqn:E; [| done].
  injection H as ->. by apply String.eqb_eq in E.
Qed.

Lemma parametersCompile_schema parameters (param : ParameterObject) s :
  parametersCompile ajv parameters = true ->
  inr param ∈ default [] parameters ->
  schema param = Some s ->
  exists validate, ajv parameterOptions s = inl validate.
Proof.
  unfold parametersCompile. rewrite forallb_forall.
  intros H Hin%list_elem_of_In Hs. specialize (H _ Hin). cbn in H.
  rewrite Hs in H. unfold compiles in H.
  destruct (ajv parameterOptions s) as [validate | e]; [by exists validate | done].
Qed.

(** A turn of a parameter loop returns when the schema of its parameter
    compiles. *)
Lemma checkPathParam_returns vars p :
  (forall s, schema p = Some s -> exists validate, ajv parameterOptions s = inl validate) ->
  (checkPathParam ajv vars p []).1 = inl tt.
Proof.
  intros H. unfold checkPathParam. repeat case_match; try done.
  destruct (H _ eq_refl) as [validate Hv].
  unfold mbind, check_bind, Check.bind, compile. fold parameterOptions. rewrite Hv.
  by case_match.
Qed.

Lemma checkQueryParam_returns q p :
  (forall s, schema p = Some s -> exists validate, ajv parameterOptions s = inl validate) ->
  (checkQueryParam ajv q p []).1 = inl tt.
Proof.
  intros H. unfold checkQueryParam. repeat case_match; try done.
  destruct (H _ eq_refl) as [validate Hv].
  unfold mbind, check_bind, Check.bind, compile. fold parameterOptions. rewrite Hv.
  by case_match.
Qed.

Lemma checkHeaderParam_returns h p :
  (forall s, schema p = Some s -> exists validate, ajv parameterOptions s = inl validate) ->
  (checkHeaderParam ajv h p []).1 = inl tt.
Proof.
  intros H. unfold checkHeaderParam. repeat case_match; try done.
  destruct (H _ eq_refl) as [validate Hv].
  unfold mbind, check_bind, Check.bind, compile. fold parameterOptions. rewrite Hv.
  by case_match.
Qed.

Lemma path_loop_returns (vars : Js.Obj) ps :
  parametersCompile ajv ps = true ->
  (Check.forEach (checkPathParam ajv vars) (paramsIn "path" ps) []).1 = inl tt
  /\ forall p m, p ∈ paramsIn "path" ps ->
       m ∈ (checkPathParam ajv vars p []).2 ->
       m ∈ (Check.forEach (checkPathParam ajv vars) (paramsIn "path" ps) []).2.
Proof.
  intros Hc. apply forEach_returns; [apply checkPathParam_appends |].
  intros p [Hp _]%paramsIn_declared. apply checkPathParam_returns.
  intros s Hs. by apply (parametersCompile_schema ps p).
Qed.

Lemma query_loop_returns (q : gmap string Value) ps :
  parametersCompile ajv ps = true ->
  (validateUrlQueryParam ajv (Some q) ps []).1 = inl tt
  /\ forall p m, p ∈ paramsIn "query" ps ->
       m ∈ (checkQueryParam ajv q p []).2 ->
       m ∈ (validateUrlQueryParam ajv (Some q) ps []).2.
Proof.
  intros Hc. apply forEach_returns; [apply checkQueryParam_appends |].
  intros p [Hp _]%paramsIn_declared. apply checkQueryParam_returns.
  intros s Hs. by apply (parametersCompile_schema ps p).
Qed.

Lemma header_loop_returns (h : gmap string Value) ps :
  parametersCompile ajv ps = true ->
  (validateUrlHeaders ajv (Some h) ps []).1 = inl tt
  /\ forall p m, p ∈ paramsIn "header" ps ->
       m ∈ (checkHeaderParam ajv h p []).2 ->
       m ∈ (validateUrlHeaders ajv (Some h) ps []).2.
Proof.
  intros Hc. apply forEach_returns; [apply checkHeaderParam_appends |].
  intros p [Hp _]%paramsIn_declared. apply checkHeaderParam_returns.
  intros s Hs. by apply (parametersCompile_schema ps p).
Qed.

(** [validateUrlPathParam] on the empty array, after its loop. *)
Lemma validateUrlPathParam_run (vars : Js.Obj) ps :
  let loop := Check.forEach (checkPathParam ajv vars) (paramsIn "path" ps) [] in
  let extraParams :=
    List.filter (fun key => negb (Js.includesStr (name <$> paramsIn "path" ps) key))
                (Js.keys vars) in
  let missingPathParams :=
    List.filter (fun param => negb (Js.includesStr (Js.keys vars) param))
      (name <$> List.filter (fun param => isTrue (required param)) (paramsIn "path" ps)) in
  validateUrlPathParam ajv (Some vars) ps []
  = match loop.1 with
    | inl _ =>
        (inl tt,
         loop.2
         ++ (if Nat.ltb 0 (length extraParams)
             then ["Unknown path parameters: " +:+ Js.join ", " extraParams] else [])
         ++ (if Nat.ltb 0 (length missingPathParams)
             then ["Missing required path parameters: "
                     +:+ Js.join ", " missingPathParams] else []))
    | inr e => (inr e, loop.2)
    end.
Proof.
  intros loop extraParams missingPathParams. cbn [validateUrlPathParam].
  fold extraParams. fold missingPathParams.
  rewrite bind_run.
  2: { intros _. apply bind_appends; [solve_appends |]. intros _. solve_appends. }
  fold loop. destruct (loop.1) as [[] | e]; [| done].
  rewrite bind_run by (intros _; solve_appends).
  destruct (Nat.ltb 0 (length extraParams)), (Nat.ltb 0 (length missingPathParams));
    reflexivity.
Qed.

Lemma validateUrlPathParam_returns vars ps :
  parametersCompile ajv ps = true ->
  (validateUrlPathParam ajv vars ps []).1 = inl tt.
Proof.
  intros Hc. destruct vars as [vars|]; [| done].
  rewrite validateUrlPathParam_run. cbn zeta.
  by destruct (path_loop_returns vars ps Hc) as [-> _].
Qed.

Lemma validateUrlPathParam_returned (vars : Js.Obj) ps :
  (validateUrlPathParam ajv (Some vars) ps []).1 = inl tt ->
  (Check.forEach (checkPathParam ajv vars) (paramsIn "path" ps) []).1 = inl tt.
Proof.
  rewrite validateUrlPathParam_run. cbn zeta.
  by destruct (Check.forEach _ _ []) as [[[] | e] out].
Qed.

Lemma validateUrlQueryParam_returns q ps :
  parametersCompile ajv ps = true ->
  (validateUrlQueryParam ajv q ps []).1 = inl tt.
Proof.
  intros Hc. destruct q as [q|]; [| done]. by apply query_loop_returns.
Qed.

Lemma validateUrlHeaders_returns h ps :
  parametersCompile ajv ps = true ->
  (validateUrlHeaders ajv h ps []).1 = inl tt.
Proof.
  intros Hc. destruct h as [h|]; [| done]. by apply header_loop_returns.
Qed.

Lemma validateUrlRequestBody_returns body ob :
  bodyCompiles ajv ob = true ->
  (validateUrlRequestBody ajv body ob []).1 = inl tt.
Proof.
  unfold bodyCompiles, validateUrlRequestBody, compiles.
  destruct ob as [[ref | rb]|]; [done | | done].
  destruct (isTrue (body_required rb) && _); [done |].
  destruct body as [body|]; [| done].
  destruct (Nat.ltb 0 (length (Js.keys body))); [| done].
  destruct (bodySchema rb) as [s|]; [| done].
  unfold mbind, check_bind, Check.bind, compile. fold bodyOptions.
  destruct (ajv bodyOptions s) as [validate | e]; [| done].
  intros _. by case_match.
Qed.

(** The four validators in a row: the first that throws ends the row. *)
Lemma validateAll_run operation input :
  let path := validateUrlPathParam ajv (urlVariables input) (parameters operation) in
  let query := validateUrlQueryParam ajv (urlQueryParams input) (parameters operation) in
  let header := validateUrlHeaders ajv (headers input) (parameters operation) in
  let body := validateUrlRequestBody ajv (requestBody input)
                (OpenAPIV3.requestBody operation) in
  validateAll ajv operation input []
  = match (path []).1, (query []).1, (header []).1 with
    | inr e, _, _ => (inr e, reported path)
    | inl _, inr e, _ => (inr e, reported path ++ reported query)
    | inl _, inl _, inr e => (inr e, reported path ++ reported query ++ reported header)
    | inl _, inl _, inl _ =>
        ((body []).1,
         reported path ++ reported query ++ reported header ++ reported body)
    end.
Proof.
  intros path query header body. unfold validateAll, reported.
  fold path. fold query. fold header. fold body.
  rewrite bind_run.
  2: { intros _. apply bind_appends; [apply validateUrlQueryParam_appends |].
       intros _. apply bind_appends; [apply validateUrlHeaders_appends |].
       intros _. apply validateUrlRequestBody_appends. }
  destruct (path []) as [[[] | e] out1]; cbn [fst snd]; [| done].
  rewrite bind_run.
  2: { intros _. apply bind_appends; [apply validateUrlHeaders_appends |].
       intros _. apply validateUrlRequestBody_appends. }
  destruct (query []) as [[[] | e] out2]; cbn [fst snd]; [| done].
  rewrite bind_run by (intros _; apply validateUrlRequestBody_appends).
  destruct (header []) as [[[] | e] out3]; cbn [fst snd]; [| done].
  done.
Qed.

Lemma validateAll_returns operation input :
  schemasCompile ajv operation = true ->
  validateAll ajv operation input []
  = (inl tt,
     reported (validateUrlPathParam ajv (urlVariables input) (parameters operation))
     ++ reported (validateUrlQueryParam ajv (urlQueryParams input) (parameters operation))
     ++ reported (validateUrlHeaders ajv (headers input) (parameters operation))
     ++ reported (validateUrlRequestBody ajv (requestBody input)
                    (OpenAPIV3.requestBody operation))).
Proof.
  intros [Hp Hb]%andb_true_iff. rewrite validateAll_run. cbn zeta.
  rewrite (validateUrlPathParam_returns _ _ Hp), (validateUrlQueryParam_returns _ _ Hp),
    (validateUrlHeaders_returns _ _ Hp), (validateUrlRequestBody_returns _ _ Hb).
  done.
Qed.

(** A row that returns: the four validators returned, and the array holds
    what each pushed, in this order. *)
Lemma validateAll_returned operation input errs :
  validateAll ajv operation input [] = (inl tt, errs) ->
  let path := validateUrlPathParam ajv (urlVariables input) (parameters operation) in
  let query := validateUrlQueryParam ajv (urlQueryParams input) (parameters operation) in
  let header := validateUrlHeaders ajv (headers input) (parameters operation) in
  let body := validateUrlRequestBody ajv (requestBody input)
                (OpenAPIV3.requestBody operation) in
  (path []).1 = inl tt /\ (query []).1 = inl tt /\ (header []).1 = inl tt
  /\ (body []).1 = inl tt
  /\ errs = reported path ++ reported query ++ reported header ++ reported body.
Proof.
  rewrite validateAll_run. cbn zeta.
  destruct (validateUrlPathParam _ _ _ []) as [[[] | e1] out1]; cbn [fst snd]; [| done].
  destruct (validateUrlQueryParam _ _ _ []) as [[[] | e2] out2]; cbn [fst snd]; [| done].
  destruct (validateUrlHeaders _ _ _ []) as [[[] | e3] out3]; cbn [fst snd]; [| done].
  destruct (validateUrlRequestBody _ _ _ []) as [[[] | e4] out4]; cbn [fst snd]; [| done].
  intros [= <-]. by split_and!.
Qed.

(** [validateRequestParameters] once the path and the method are resolved. *)
Lemma validateRequestParameters_resolved url doc method input p item operation :
  validatePath doc url = Some p ->
  pathValidateRes p = true ->
  specPathItem p = Some item ->
  item !! Js.toLowerCase method = Some operation ->
  validateRequestParameters ajv url doc method input
  = Some match validateAll ajv operation input [] with
         | (inl _, errors) =>
             Returned {| isValid := Nat.eqb (length errors) 0; errors := errors |}
         | (inr e, _) => Threw e
         end.
Proof.
  intros Hp Hres Hitem Hop. unfold validateRequestParameters.
  rewrite Hp; cbn [mbind option_bind]. rewrite Hres, Hitem, Hop.
  by destruct (validateAll ajv operation input []) as [[[] | e] errors].
Qed.

Lemma validateRequestParameters_returned url doc method input p item operation r :
  validatePath doc url = Some p ->
  pathValidateRes p = true ->
  specPathItem p = Some item ->
  item !! Js.toLowerCase method = Some operation ->
  validateRequestParameters ajv url doc method input = Some (Returned r) ->
  validateAll ajv operation input [] = (inl tt, errors r)
  /\ isValid r = Nat.eqb (length (errors r)) 0.
Proof.
  intros Hp Hres Hitem Hop.
  rewrite (validateRequestParameters_resolved _ _ _ input _ _ _ Hp Hres Hitem Hop).
  destruct (validateAll ajv operation input []) as [[[] | e] errs]; [| done].
  by intros [= <-].
Qed.

Lemma validateRequestParameters_returns url doc method input p item operation :
  validatePath doc url = Some p ->
  pathValidateRes p = true ->
  specPathItem p = Some item ->
  item !! Js.toLowerCase method = Some operation ->
  schemasCompile ajv operation = true ->
  exists r, validateRequestParameters ajv url doc method input = Some (Returned r).
Proof.
  intros Hp Hres Hitem Hop Hc.
  rewrite (validateRequestParameters_resolved _ _ _ input _ _ _ Hp Hres Hitem Hop).
  rewrite (validateAll_returns _ _ Hc). by eexists.
Qed.

Lemma get_absent (o : Js.Obj) (k : string) : k ∉ Js.keys o -> Js.get o k = VUndefined.
Proof.
  induction o as [|[k' v] o IH]; simpl; [done |].
  intros Hk. apply not_elem_of_cons in Hk as [Hne Hk].
  destruct (String.eqb k' k) eqn:E; [| by apply IH].
  apply String.eqb_eq in E. congruence.
Qed.

Lemma includesStr_spec (l : list string) (x : string) :
  Js.includesStr l x = true <-> x ∈ l.
Proof.
  unfold Js.includesStr. rewrite existsb_exists. split.
  - intros (y & Hy & ->%String.eqb_eq). by apply list_elem_of_In.
  - intros Hx. exists x. split; [by apply list_elem_of_In | apply String.eqb_refl].
Qed.

Lemma append_inj_r (p a b : string) : p +:+ a = p +:+ b -> a = b.
Proof.
  induction p as [|c p IH]; [done |].
  rewrite !JsFacts.append_cons. intros [= H]. by apply IH.
Qed.

(** What one turn of the path loop may report. *)
Lemma checkPathParam_elem vars p m :
  m ∈ (checkPathParam ajv vars p []).2 ->
  (m = "Missing required path parameter: " +:+ name p
   /\ Js.isUndefined (Js.get vars (name p)) || Js.isNull (Js.get vars (name p)) = true)
  \/ (exists text, m = "Invalid path parameter " +:+ name p +:+ ": " +:+ text).
Proof.
  unfold checkPathParam.
  destruct (isTrue (required p) &&
            (Js.isUndefined (Js.get vars (name p)) || Js.isNull (Js.get vars (name p))))
    eqn:E.
  - intros ->%list_elem_of_singleton. left. split; [done |].
    by apply andb_true_iff in E as [_ ?].
  - destruct (schema p) as [s|]; [| by intros ?%elem_of_nil].
    destruct (negb _); [| by intros ?%elem_of_nil].
    unfold mbind, check_bind, Check.bind, compile.
    destruct (ajv _ s) as [validate | e]; [| by intros ?%elem_of_nil].
    destruct (validate _) as [text|]; [| by intros ?%elem_of_nil].
    intros ->%list_elem_of_singleton. right. by eexists.
Qed.

(** The violations of a required path parameter that the path-variable
    object lacks. *)
Lemma missing_path_parameter_messages (vars : Js.Obj) ps p :
  inr p ∈ default [] ps ->
  in_ p = "path" ->
  required p = Some true ->
  name p ∉ Js.keys vars ->
  let missingPathParams :=
    List.filter (fun param => negb (Js.includesStr (Js.keys vars) param))
      (name <$> List.filter (fun param => isTrue (required param)) (paramsIn "path" ps)) in
  let out := validateUrlPathParam ajv (Some vars) ps [] in
  name p ∈ missingPathParams
  /\ (out.1 = inl tt ->
      "Missing required path parameter: " +:+ name p ∈ out.2
      /\ last out.2 = Some ("Missing required path parameters: "
                              +:+ Js.join ", " missingPathParams)).
Proof.
  intros Hin Hloc Hreq Habs missing out.
  assert (Hp : p ∈ paramsIn "path" ps) by by apply elem_of_paramsIn.
  assert (Hm : name p ∈ missing).
  { apply list_elem_of_In, filter_In. split.
    - apply list_elem_of_In, list_elem_of_fmap. exists p. split; [done |].
      apply list_elem_of_In, filter_In. split; [by apply list_elem_of_In | by rewrite Hreq].
    - apply negb_true_iff, not_true_iff_false. by intros ?%includesStr_spec. }
  split; [done |]. intros Hout.
  pose proof (validateUrlPathParam_returned _ _ Hout) as Hloop.
  pose proof (forEach_messages _ _ (checkPathParam_appends vars) Hloop) as Hmsg.
  subst out. rewrite validateUrlPathParam_run. cbn zeta. fold missing.
  rewrite Hloop. cbn [snd].
  destruct missing as [|k l] eqn:E; [by apply elem_of_nil in Hm |].
  change (Nat.ltb 0 (length (k :: l))) with true. cbn iota. split.
  - apply elem_of_app. left. apply (Hmsg p); [done |].
    unfold checkPathParam. rewrite (get_absent _ _ Habs), Hreq. cbn.
    apply list_elem_of_here.
  - by rewrite !app_assoc, last_snoc.
Qed.

Lemma last_elem_of {A} (l : list A) (x : A) : last l = Some x -> x ∈ l.
Proof.
  destruct l as [|y l _] using rev_ind; [done |].
  rewrite last_snoc. intros [= ->]. apply elem_of_app. right. apply list_elem_of_here.
Qed.

(** C3, amended.  Whatever [validateRequestParameters] returns is valid
    exactly when it lists no violation.  Once the path and the method are
    resolved, a result that it returns lists the violations of the four
    categories (path, query, header, body) in this order, each computed
    whatever the others found: a required path parameter, a required query
    parameter and a required header that the input lacks, and a required body
    that it lacks, are all in the list.  It returns a result when every
    schema of the operation compiles; with a schema that does not compile
    the validation may throw instead, and then no list is returned. *)
Theorem validateRequestParameters_aggregates url doc method input :
  (forall r, validateRequestParameters ajv url doc method input = Some (Returned r) ->
     (isValid r = true <-> errors r = []))
  /\ (forall p item operation,
        validatePath doc url = Some p ->
        pathValidateRes p = true ->
        specPathItem p = Some item ->
        item !! Js.toLowerCase method = Some operation ->
        (forall r,
           validateRequestParameters ajv url doc method input = Some (Returned r) ->
           errors r
           = reported (validateUrlPathParam ajv (urlVariables input)
                         (parameters operation))
             ++ reported (validateUrlQueryParam ajv (urlQueryParams input)
                            (parameters operation))
             ++ reported (validateUrlHeaders ajv (headers input)
                            (parameters operation))
             ++ reported (validateUrlRequestBody ajv (requestBody input)
                            (OpenAPIV3.requestBody operation))
           /\ (forall vars param,
                 urlVariables input = Some vars ->
                 inr param ∈ default [] (parameters operation) ->
                 in_ param = "path" -> required param = Some true ->
                 ownName (name param) = true ->
                 name param ∉ Js.keys vars ->
                 "Missing required path parameter: " +:+ name param ∈ errors r)
           /\ (forall q param,
                 urlQueryParams input = Some q ->
                 inr param ∈ default [] (parameters operation) ->
                 in_ param = "query" -> required param = Some true ->
                 ownName (name param) = true ->
                 q !! name param = None ->
                 "Missing required query parameter: " +:+ name param ∈ errors r)
           /\ (forall h param,
                 headers input = Some h ->
                 inr param ∈ default [] (parameters operation) ->
                 in_ param = "header" -> required param = Some true ->
                 ownName (Js.toLowerCase (name param)) = true ->
                 ownName (name param) = true ->
                 h !! Js.toLowerCase (name param) = None ->
                 h !! name param = None ->
                 "Missing required header parameter: " +:+ name param ∈ errors r)
           /\ (forall rb,
                 OpenAPIV3.requestBody operation = Some (inr rb) ->
                 body_required rb = Some true ->
                 requestBody input = None \/ requestBody input = Some [] ->
                 "Missing required request body" ∈ errors r))
        /\ (schemasCompile ajv operation = true ->
            exists r,
              validateRequestParameters ajv url doc method input = Some (Returned r))).
Proof.
  split.
  - intros r Hr. unfold validateRequestParameters in Hr.
    destruct (validatePath doc url) as [p|]; [| done].
    cbn [mbind option_bind] in Hr.
    destruct (pathValidateRes p), (specPathItem p) as [item|];
      try (injection Hr as <-; simpl; split; [done | by destruct (apiPath p)]).
    destruct (item !! Js.toLowerCase method) as [operation|].
    + destruct (validateAll ajv operation input []) as [[[] | e] errs]; [| done].
      injection Hr as <-. simpl. split.
      * intros H%Nat.eqb_eq. by apply nil_length_inv.
      * by intros ->.
    + injection Hr as <-. simpl. split; [done | by destruct method].
  - intros p item operation Hp Hres Hitem Hop.
    split; [| by apply (validateRequestParameters_returns _ _ _ _ p item)].
    intros r Hr.
    destruct (validateRequestParameters_returned _ _ _ _ _ _ _ _ Hp Hres Hitem Hop Hr)
      as [Hall _].
    destruct (validateAll_returned _ _ _ Hall) as (Hpath & Hquery & Hheader & _ & ->).
    split_and!; [done | | | |].
    + intros vars param Hvars Hin Hloc Hreq _ Habs. rewrite Hvars in Hpath |- *.
      destruct (missing_path_parameter_messages vars _ param Hin Hloc Hreq Habs)
        as [_ Hm].
      apply elem_of_app. left. by apply Hm.
    + intros q param Hq Hin Hloc Hreq _ Habs. rewrite Hq in Hquery |- *.
      apply elem_of_app. right. apply elem_of_app. left.
      apply (forEach_messages _ _ (checkQueryParam_appends q) Hquery param);
        [by apply elem_of_paramsIn |].
      unfold checkQueryParam, Js.lookup. rewrite Habs, Hreq. cbn.
      apply list_elem_of_here.
    + intros h param Hh Hin Hloc Hreq _ _ Hlow Hname. rewrite Hh in Hheader |- *.
      apply elem_of_app. right. apply elem_of_app. right. apply elem_of_app. left.
      apply (forEach_messages _ _ (checkHeaderParam_appends h) Hheader param);
        [by apply elem_of_paramsIn |].
      unfold checkHeaderParam, Js.or, Js.lookup. rewrite Hlow, Hname, Hreq. cbn.
      apply list_elem_of_here.
    + intros rb Hrb Hreq Hbody. rewrite Hrb.
      apply elem_of_app. right. apply elem_of_app. right. apply elem_of_app. right.
      unfold reported, validateUrlRequestBody. rewrite Hreq.
      destruct Hbody as [-> | ->]; cbn; apply list_elem_of_here.
Qed.

(** C1, amended.  When the request resolves to an operation and the caller
    supplies a path-variable object, every required path parameter that the
    operation declares and the object lacks makes a result that
    [validateRequestParameters] returns invalid, with a violation that names
    the parameter: the last violation of the path category lists it, and (for
    a name that is not the one of a property that every object inherits) the
    list holds ["Missing required path parameter: <name>"].  A result is
    returned when every schema of the operation compiles; with a schema that
    does not compile the validation may throw instead. *)
Theorem missing_required_path_parameter_reported
    url doc method input p item operation vars param :
  validatePath doc url = Some p ->
  pathValidateRes p = true ->
  specPathItem p = Some item ->
  item !! Js.toLowerCase method = Some operation ->
  urlVariables input = Some vars ->
  inr param ∈ default [] (parameters operation) ->
  in_ param = "path" ->
  required param = Some true ->
  name param ∉ Js.keys vars ->
  let missingPathParams :=
    List.filter (fun key => negb (Js.includesStr (Js.keys vars) key))
      (name <$> List.filter (fun param => isTrue (required param))
                  (paramsIn "path" (parameters operation))) in
  (forall r,
     validateRequestParameters ajv url doc method input = Some (Returned r) ->
     isValid r = false
     /\ name param ∈ missingPathParams
     /\ "Missing required path parameters: " +:+ Js.join ", " missingPathParams
          ∈ errors r
     /\ (ownName (name param) = true ->
         "Missing required path parameter: " +:+ name param ∈ errors r))
  /\ (schemasCompile ajv operation = true ->
      exists r, validateRequestParameters ajv url doc method input = Some (Returned r)).
Proof.
  intros Hp Hres Hitem Hop Hvars Hin Hloc Hreq Habs missing.
  split; [| by apply (validateRequestParameters_returns _ _ _ _ p item)].
  intros r Hr.
  destruct (validateRequestParameters_returned _ _ _ _ _ _ _ _ Hp Hres Hitem Hop Hr)
    as [Hall Hvalid].
  destruct (validateAll_returned _ _ _ Hall) as (Hpath & _ & _ & _ & Herrs).
  rewrite Hvars in Hpath, Herrs.
  destruct (missing_path_parameter_messages vars _ param Hin Hloc Hreq Habs)
    as [Hmiss Hm].
  destruct (Hm Hpath) as [Hsingular Hplural%last_elem_of].
  assert (Hsub : forall m,
            m ∈ (validateUrlPathParam ajv (Some vars) (parameters operation) []).2 ->
            m ∈ errors r).
  { intros m Hin'. rewrite Herrs. apply elem_of_app. by left. }
  split_and!; [| exact Hmiss | apply Hsub; exact Hplural | intros _; by apply Hsub].
  rewrite Hvalid. apply Hsub in Hsingular.
  destruct (errors r); [by apply elem_of_nil in Hsingular | done].
Qed.

(** C9.  A location whose bucket is missing from the input is not checked
    at all, whatever the operation declares for it; so an input with no
    bucket at all is valid for every operation without a request body. *)
Theorem absent_bucket_not_checked url doc method p item operation body :
  validatePath doc url = Some p ->
  pathValidateRes p = true ->
  specPathItem p = Some item ->
  item !! Js.toLowerCase method = Some operation ->
  OpenAPIV3.requestBody operation = None ->
  (forall errs,
     validateUrlPathParam ajv None (parameters operation) errs = (inl tt, errs)
     /\ validateUrlQueryParam ajv None (parameters operation) errs = (inl tt, errs)
     /\ validateUrlHeaders ajv None (parameters operation) errs = (inl tt, errs))
  /\ validateRequestParameters ajv url doc method
       {| urlVariables := None; urlQueryParams := None; headers := None;
          requestBody := body |}
     = Some (Returned {| isValid := true; errors := [] |}).
Proof.
  intros Hp Hres Hitem Hop Hbody. split; [done |].
  rewrite (validateRequestParameters_resolved _ _ _ _ _ _ _ Hp Hres Hitem Hop).
  unfold validateAll, validateUrlRequestBody. by rewrite Hbody.
Qed.


End ValidationFacts.

(** ** The routing resolver *)

Module RoutingFacts.
Import Js JsFacts RegExp Template Routing.

Lemma RegExp_new_segment (s : string) :
  RegExp_new ("[^/]+" +:+ s) = r ← RegExp_new s; Some (Segment :: r).
Proof. reflexivity. Qed.

Lemma RegExp_new_single (c : ascii) (t : string) :
  Ascii.eqb c "[" = false ->
  RegExp_new (String c t) = a ← atomOfChar c t; r ← RegExp_new t; Some (a :: r).
Proof.
  intros Hc. destruct t as [|c2 [|c3 [|c4 [|c5 rest]]]]; try reflexivity.
  cbn [RegExp_new]. cbn [String.eqb]. by rewrite Hc.
Qed.

Lemma plainChar_atom (c : ascii) (t : string) :
  plainChar c = true -> Ascii.eqb c "[" = false /\ atomOfChar c t = Some (atomOf (Char c)).
Proof.
  destruct c as [[] [] [] [] [] [] [] []]; vm_compute; try discriminate; by split.
Qed.

(** The expression of a plain template, atom by atom. *)
Lemma RegExp_new_plain (ts : list token) :
  forallb (fun t => match t with Char c => plainChar c | Hole _ => true end) ts = true ->
  RegExp_new (concat (render <$> ts) +:+ "$") = Some ((atomOf <$> ts) ++ [EndAnchor]).
Proof.
  induction ts as [|[c|n] ts IH]; cbn [forallb fmap list_fmap concat render].
  - reflexivity.
  - intros [Hc Hts]%andb_true_iff.
    rewrite append_assoc, append_cons, append_nil_l.
    destruct (plainChar_atom c (concat (render <$> ts) +:+ "$") Hc) as [Hb Ha].
    rewrite (RegExp_new_single _ _ Hb), Ha. cbn [mbind option_bind].
    fold (@fmap list _ _ _ render ts). rewrite (IH Hts). done.
  - intros Hts. rewrite append_assoc, RegExp_new_segment.
    fold (@fmap list _ _ _ render ts). rewrite (IH Hts). done.
Qed.

Lemma toRegExp_plain (template : string) :
  plain template = true ->
  toRegExp template = Some ((atomOf <$> tokens template) ++ [EndAnchor]).
Proof. apply RegExp_new_plain. Qed.

Lemma matchHere_segment_cons (r : regex) (x : ascii) (s : string) :
  matchHere (Segment :: r) (String x s)
  = negb (Ascii.eqb x "/") && (matchHere (Segment :: r) s || matchHere r s).
Proof. reflexivity. Qed.

(** [[^/]+] takes a whole segment. *)
Lemma matchHere_segment (r : regex) (seg s : string) :
  isSegment seg = true -> matchHere r s = true ->
  matchHere (Segment :: r) (seg +:+ s) = true.
Proof.
  intros [Hne Hall]%andb_true_iff Hr.
  induction seg as [|x seg IH]; [done |].
  cbn [allChars] in Hall. apply andb_true_iff in Hall as [Hx Hall].
  rewrite append_cons, matchHere_segment_cons, Hx. cbn [andb].
  destruct seg as [|y seg]; [by rewrite append_nil_l, Hr, orb_true_r |].
  by rewrite IH.
Qed.

(** A plain template's expression matches each of its instances. *)
Lemma matchHere_fill (ts : list token) (segments : list string) :
  forallb (fun t => match t with Char c => plainChar c | Hole _ => true end) ts = true ->
  Forall (fun seg => isSegment seg = true) segments ->
  holes ts = length segments ->
  matchHere ((atomOf <$> ts) ++ [EndAnchor]) (fill ts segments) = true.
Proof.
  revert segments.
  induction ts as [|[c|n] ts IH]; intros segments; cbn [forallb holes fill].
  - done.
  - intros [Hc Hts]%andb_true_iff Hsegs Hlen.
    specialize (IH segments Hts Hsegs Hlen).
    change (atomOf <$> Char c :: ts) with (atomOf (Char c) :: (atomOf <$> ts)).
    cbn [atomOf app]. destruct (Ascii.eqb c ".") eqn:E; cbn [matchHere].
    + apply Ascii.eqb_eq in E as ->. by rewrite IH.
    + by rewrite Ascii.eqb_refl, IH.
  - intros Hts Hsegs Hlen.
    destruct segments as [|seg rest]; [done |].
    apply Forall_cons in Hsegs as [Hseg Hrest]. cbn [length] in Hlen.
    change (atomOf <$> Hole n :: ts) with (Segment :: (atomOf <$> ts)).
    cbn [app]. apply matchHere_segment; [done |].
    apply IH; [done | done | lia].
Qed.

(** [test] finds a match that starts after any prefix. *)
Lemma test_after_prefix (r : regex) (prefix s : string) :
  matchHere r s = true -> test r (prefix +:+ s) = true.
Proof.
  intros Hr. induction prefix as [|c prefix IH].
  - rewrite append_nil_l. destruct s; cbn [test]; by rewrite Hr.
  - rewrite append_cons. cbn [test]. by rewrite IH, orb_true_r.
Qed.

Lemma test_instance (template prefix : string) (segments : list string) re :
  plain template = true ->
  Forall (fun seg => isSegment seg = true) segments ->
  holes (tokens template) = length segments ->
  toRegExp template = Some re ->
  test re (prefix +:+ instantiate template segments) = true.
Proof.
  intros Hplain Hsegs Hlen Hre.
  rewrite (toRegExp_plain _ Hplain) in Hre. injection Hre as <-.
  by apply test_after_prefix, matchHere_fill.
Qed.

Section FirstMatch.

Context `{api : UrlApi}.




End FirstMatch.

End RoutingFacts.

(** ** Default headers and environment rewriting *)

Section HttpHelperFacts.

Context `{api : UrlApi}.
Variable USER_ENVIRONMENT : ApiEnvironment.
Variable USER_TOKEN : string.

(** The loop of [buildHeadersFromInput] keeps the first value of each header,
    and adds nothing for the key [__proto__]. *)
Lemma input_headers_fold (inputHeaders : gmap string (list string)) :
  map_fold (fun key value headers => Js.setProperty headers key (firstValue value))
           (∅ : gmap string Value) inputHeaders
  = firstValue <$> delete "__proto__" inputHeaders.
Proof.
  apply (map_fold_weak_ind
           (fun r (m : gmap string (list string)) =>
              r = firstValue <$> delete "__proto__" m)).
  - by rewrite delete_empty, fmap_empty.
  - intros i x m r Hi ->. unfold Js.setProperty.
    destruct (String.eqb i "__proto__") eqn:E.
    + apply String.eqb_eq in E as ->. by rewrite delete_insert_eq.
    + apply String.eqb_neq in E.
      by rewrite delete_insert_ne, fmap_insert by done.
Qed.


Lemma replaceDomain_on_target (url : string) (u : URL) :
  URL_new url = Some u ->
  URL_hostname u = DOMAIN_NAME USER_ENVIRONMENT ->
  replaceDomainNameByEnvironment USER_ENVIRONMENT url = url.
Proof.
  intros Hu Hh. unfold replaceDomainNameByEnvironment.
  by rewrite Hu, Hh, String.eqb_refl.
Qed.

(** C5, amended.  With a URL implementation that obeys [UrlLaws]: a URL
    that the URL parser accepts and whose host is the configured
    environment's domain is returned unchanged; and on every URL that the
    parser accepts, rewriting twice is rewriting once. *)
Theorem replaceDomain_idempotent_on_parsed_urls
    (laws : UrlLaws api) (url : string) (u : URL) :
  URL_new url = Some u ->
  (URL_hostname u = DOMAIN_NAME USER_ENVIRONMENT ->
   replaceDomainNameByEnvironment USER_ENVIRONMENT url = url)
  /\ replaceDomainNameByEnvironment USER_ENVIRONMENT
       (replaceDomainNameByEnvironment USER_ENVIRONMENT url)
     = replaceDomainNameByEnvironment USER_ENVIRONMENT url.
Proof.
  intros Hu. split; [by apply replaceDomain_on_target |].
  set (E := DOMAIN_NAME USER_ENVIRONMENT).
  destruct (String.eqb (URL_hostname u) E) eqn:Hhost.
  - apply String.eqb_eq in Hhost.
    by rewrite !(replaceDomain_on_target url u Hu Hhost).
  - assert (Hf : replaceDomainNameByEnvironment USER_ENVIRONMENT url
                 = URL_toString (URL_set_hostname u E)).
    { unfold replaceDomainNameByEnvironment. fold E. by rewrite Hu, Hhost. }
    rewrite Hf. unfold replaceDomainNameByEnvironment. fold E.
    rewrite (URL_reparse url u E Hu).
    destruct (String.eqb (URL_hostname (URL_set_hostname u E)) E); cbn [negb];
      [done |].
    by rewrite URL_set_hostname_twice.
Qed.

End HttpHelperFacts.

(** ** Programs and their executions *)

Lemma exec_bind {A B} (p : Prog A) (f : A -> Prog B) t o :
  exec (bind p f) t o ->
  (exists t1 a t2, exec p t1 (Returned a) /\ exec (f a) t2 o /\ t = t1 ++ t2)
  \/ (exists e, exec p t (Threw e) /\ o = Threw e).
Proof.
  revert t. induction p as [a | e | X c k IH]; intros t; cbn [bind exec].
  - intros H. left. by exists [], a, t.
  - intros [-> ->]. right. by exists e.
  - intros (r & t' & -> & H). destruct (IH r t' H) as
      [(t1 & a & t2 & H1 & H2 & ->) | (e & H1 & ->)].
    + left. exists (Ev c r :: t1), a, t2. split_and!; [by exists r, t1 | done | done].
    + right. exists e. split; [by exists r, t' | done].
Qed.

Lemma exec_tryCatch {A} (p : Prog A) (h : JsError -> Prog A) t o :
  exec (tryCatch p h) t o ->
  (exists a, exec p t (Returned a) /\ o = Returned a)
  \/ (exists t1 e t2, exec p t1 (Threw e) /\ exec (h e) t2 o /\ t = t1 ++ t2).
Proof.
  revert t. induction p as [a | e | X c k IH]; intros t; cbn [tryCatch exec].
  - intros [-> ->]. left. by exists a.
  - intros H. right. by exists [], e, t.
  - intros (r & t' & -> & H). destruct (IH r t' H) as
      [(a & H1 & ->) | (t1 & e & t2 & H1 & H2 & ->)].
    + left. exists a. split; [by exists r, t' | done].
    + right. exists (Ev c r :: t1), e, t2. split_and!; [by exists r, t1 | done | done].
Qed.

(** Running a program in a world is one of its executions. *)
Lemma run_exec {R} (w : World) (p : Prog R) : exec p (run w p).1 (run w p).2.
Proof.
  induction p as [a | e | X c k IH]; cbn [run exec]; [done | done |].
  specialize (IH (w X c)). destruct (run w (k (w X c))) as [t o].
  by exists (w X c), t.
Qed.

(** The loader sends no request to the remote API. *)
Lemma parseOpenApiDoc_no_api_request specTitle operationId specUrl t o :
  exec (parseOpenApiDoc specTitle operationId specUrl) t o -> apiRequests t = [].
Proof.
  unfold parseOpenApiDoc. cbn.
  intros (fetched & rest & -> & H).
  destruct fetched as [docString | e]; cbn in H; [| by destruct H as [-> _]].
  destruct H as (json & rest1 & -> & H).
  destruct json as [doc | ej]; cbn in H; [by destruct H as [-> _] |].
  destruct H as (yaml & rest2 & -> & H).
  destruct yaml as [doc | ey]; cbn in H; [by destruct H as [-> _] |].
  by destruct H as (a & rest3 & -> & -> & _).
Qed.

(** C8.  Every execution of the on-demand loader starts with the fetch.
    When the fetch gives a body, [JSON.parse] is called on it first; when it
    succeeds the document is returned and [yaml.load] is not called; when it
    throws, [yaml.load] is called on the same body; and when both throw, the
    loader logs the failure and returns the empty document: it does not
    throw. *)
Theorem parseOpenApiDoc_executions specTitle operationId specUrl t o :
  exec (parseOpenApiDoc specTitle operationId specUrl) t o ->
  exists fetched rest,
    t = Ev (AxiosGet (format specUrl [specTitle; operationId])) fetched :: rest
    /\ match fetched with
       | inr e => rest = [] /\ o = Threw e
       | inl docString =>
           exists json rest1,
             rest = Ev (JsonParse docString) json :: rest1
             /\ match json with
                | inl doc => rest1 = [] /\ o = Returned doc
                | inr _ =>
                    exists yaml rest2,
                      rest1 = Ev (YamlLoad docString) yaml :: rest2
                      /\ match yaml with
                         | inl doc => rest2 = [] /\ o = Returned doc
                         | inr _ =>
                             (exists a,
                                rest2 = [Ev (ConsoleError
                                               "failed to parse OpenAPI document !!!") a])
                             /\ o = Returned emptyDocument
                         end
                end
       end.
Proof.
  unfold parseOpenApiDoc. cbn.
  intros (fetched & rest & -> & H). exists fetched, rest. split; [done |].
  destruct fetched as [docString | e]; cbn in H; [| done].
  destruct H as (json & rest1 & -> & H). exists json, rest1. split; [done |].
  destruct json as [doc | ej]; cbn in H; [done |].
  destruct H as (yaml & rest2 & -> & H). exists yaml, rest2. split; [done |].
  destruct yaml as [doc | ey]; cbn in H; [done |].
  destruct H as (a & rest3 & -> & -> & ->). split; [by exists a | done].
Qed.

(** ** The generic invoke operation *)

Section ServiceFacts.

Context `{api : UrlApi}.
Variable ajv : AjvOptions -> SchemaObject -> (Value -> option string) + JsError.
Variable USER_ENVIRONMENT : ApiEnvironment.
Variable USER_TOKEN : string.
Variable RECALL_SPEC_WITH_FIELD_URL : string.
Variable needSetHostByEnv : bool.
Variable JSON_stringify : Value -> string.
Variable buildFinalUrl : string -> option Js.Obj -> option string.
Variable regExpError buildFinalUrlError : JsError.

Local Abbreviation handler :=
  (invokeApi ajv USER_ENVIRONMENT USER_TOKEN RECALL_SPEC_WITH_FIELD_URL
             needSetHostByEnv JSON_stringify buildFinalUrl regExpError
             buildFinalUrlError).

Local Abbreviation validation :=
  (requestValidation ajv USER_ENVIRONMENT USER_TOKEN needSetHostByEnv).

(** Every execution of the handler: the loader runs first; the handler then
    stops without a further call (also when the validation throws), unless
    the document was loaded, the request found valid and the final URL built,
    in which case it sends one request. It always returns. *)
Lemma invokeApi_executions input t o :
  exec (handler input) t o ->
  exists t1 loaded,
    exec (parseOpenApiDoc (arg_specTitle input) (arg_operationId input)
            RECALL_SPEC_WITH_FIELD_URL) t1 loaded
    /\ match loaded with
       | Threw e => t = t1 /\ o = Returned (caughtFailure JSON_stringify e)
       | Returned openApiDoc =>
           match validation input openApiDoc with
           | None => t = t1 /\ o = Returned (caughtFailure JSON_stringify regExpError)
           | Some (Threw e) => t = t1 /\ o = Returned (caughtFailure JSON_stringify e)
           | Some (Returned r) =>
               if isValid r then
                 match buildFinalUrl
                         (replaceDomainNameByEnvironment USER_ENVIRONMENT (arg_url input))
                         (arg_urlVariables input) with
                 | None =>
                     t = t1
                     /\ o = Returned (caughtFailure JSON_stringify buildFinalUrlError)
                 | Some finalUrl =>
                     exists answer,
                       t = t1 ++ [Ev (AxiosRequest
                                        (requestConfig input finalUrl
                                           (buildHeadersFromInput USER_ENVIRONMENT
                                              USER_TOKEN (arg_headers input)
                                              needSetHostByEnv))) answer]
                       /\ o = Returned
                               match answer with
                               | inl data =>
                                   {| content := [responseText JSON_stringify data];
                                      isError := false |}
                               | inr e => caughtFailure JSON_stringify e
                               end
                 end
               else t = t1 /\ o = Returned (validationFailure r)
           end
       end.
Proof.
  unfold invokeApi, requestValidation.
  intros [(a & Hbody & ->) | (t1' & e & t2' & Hbody & Hcatch & ->)]%exec_tryCatch.
  - (* the [try] block returned *)
    apply exec_bind in Hbody as
      [(t1 & doc & t2 & Hload & Hrest & ->) | (e & _ & [=])].
    exists t1, (Returned doc). split; [done |].
    cbn in Hrest.
    destruct (validateRequestParameters ajv _ doc _ _) as [[r | e]|]; cbn in Hrest;
      [| by destruct Hrest | by destruct Hrest].
    destruct (isValid r); cbn in Hrest.
    + destruct buildFinalUrl as [finalUrl|]; cbn in Hrest; [| by destruct Hrest].
      destruct Hrest as (answer & t' & -> & Hrest).
      destruct answer as [data | e]; cbn in Hrest; [| by destruct Hrest].
      destruct Hrest as [-> ->]. by exists (inl data).
    + destruct Hrest as [-> ->]. by rewrite app_nil_r.
  - (* the [try] block threw *)
    cbn in Hcatch. destruct Hcatch as [-> ->]. rewrite app_nil_r.
    apply exec_bind in Hbody as
      [(t1 & doc & t2 & Hload & Hrest & ->) | (e' & Hload & [= <-])].
    2: { by exists t1', (Threw e). }
    exists t1, (Returned doc). split; [done |].
    cbn in Hrest.
    destruct (validateRequestParameters ajv _ doc _ _) as [[r | e']|]; cbn in Hrest.
    2, 3: destruct Hrest as [-> [= <-]]; by rewrite app_nil_r.
    destruct (isValid r); cbn in Hrest; [| by destruct Hrest].
    destruct buildFinalUrl as [finalUrl|]; cbn in Hrest.
    2: { destruct Hrest as [-> [= <-]]. by rewrite app_nil_r. }
    destruct Hrest as (answer & t' & -> & Hrest).
    destruct answer as [data | e']; cbn in Hrest; [by destruct Hrest |].
    destruct Hrest as [-> [= <-]]. by exists (inr e).
Qed.

(** The loader's part of an execution of the handler is a prefix of it. *)
Lemma invokeApi_loader_prefix input t o :
  exec (handler input) t o ->
  exists t1 loaded,
    exec (parseOpenApiDoc (arg_specTitle input) (arg_operationId input)
            RECALL_SPEC_WITH_FIELD_URL) t1 loaded
    /\ t1 `prefix_of` t
    /\ (t = t1
        \/ exists openApiDoc r,
             loaded = Returned openApiDoc
             /\ validation input openApiDoc = Some (Returned r)
             /\ isValid r = true)
    /\ forall openApiDoc r,
         loaded = Returned openApiDoc ->
         validation input openApiDoc = Some (Returned r) ->
         isValid r = false ->
         t = t1 /\ o = Returned (validationFailure r).
Proof.
  intros (t1 & loaded & Hload & H)%invokeApi_executions.
  exists t1, loaded. split; [done |].
  destruct loaded as [doc | e].
  - destruct (validation input doc) as [[r | e]|] eqn:Hr.
    + destruct (isValid r) eqn:Hvalid.
      * split_and!.
        -- destruct buildFinalUrl; [| by destruct H as [-> _]].
           destruct H as (answer & -> & _). by apply prefix_app_r.
        -- right. by exists doc, r.
        -- intros doc' r' [= <-] Hr'. rewrite Hr in Hr'. injection Hr' as <-.
           by rewrite Hvalid.
      * destruct H as [-> ->]. split_and!; [done | by left |].
        intros doc' r' [= <-] Hr'. rewrite Hr in Hr'. by injection Hr' as <-.
    + destruct H as [-> ->]. split_and!; [done | by left |].
      intros doc' r' [= <-] Hr'. by rewrite Hr in Hr'.
    + destruct H as [-> ->]. split_and!; [done | by left |].
      intros doc' r' [= <-] Hr'. by rewrite Hr in Hr'.
  - destruct H as [-> ->]. split_and!; [done | by left | done].
Qed.

(** C6.  In every execution of the generic invoke operation, which starts
    with the loading of the document: if the validation of the request
    against the loaded document finds it invalid, the execution stops there,
    no request is sent to the remote API, and the caller gets the failure
    that carries every violation; and a request is sent to the remote API
    only after a validation that passed. *)
Theorem invokeApi_sends_only_validated_requests input t o :
  exec (handler input) t o ->
  exists t1 loaded,
    exec (parseOpenApiDoc (arg_specTitle input) (arg_operationId input)
            RECALL_SPEC_WITH_FIELD_URL) t1 loaded
    /\ t1 `prefix_of` t
    /\ (forall openApiDoc r,
          loaded = Returned openApiDoc ->
          validation input openApiDoc = Some (Returned r) ->
          isValid r = false ->
          t = t1
          /\ apiRequests t = []
          /\ o = Returned {| content := ["Request validation failed:";
                                         Js.join newline (errors r)];
                             isError := true |})
    /\ (apiRequests t <> [] ->
        exists openApiDoc r,
          loaded = Returned openApiDoc
          /\ validation input openApiDoc = Some (Returned r)
          /\ isValid r = true).
Proof.
  intros (t1 & loaded & Hload & Hprefix & Hsent & Hinvalid)%invokeApi_loader_prefix.
  pose proof (parseOpenApiDoc_no_api_request _ _ _ _ _ Hload) as Hnone.
  exists t1, loaded. split_and!; [done | done | |].
  - intros doc r Hdoc Hr Hv. destruct (Hinvalid doc r Hdoc Hr Hv) as [-> ->]. done.
  - intros Hreq. destruct Hsent as [-> | Hsent]; done.
Qed.

End ServiceFacts.

(** ** The routing resolver: what a result says *)

Module ResolverFacts.
Import Js JsFacts RegExp Template Routing Paths.

Lemma findSpecPath_sound paths path specPaths r :
  findSpecPath paths path specPaths = Some r ->
  apiPath r = path
  /\ (pathValidateRes r = true ->
        specPath r ∈ specPaths
        /\ specPathItem r = lookupPath paths (specPath r)
        /\ is_Some (specPathItem r)
        /\ templateMatches paths path (specPath r) = true)
  /\ (pathValidateRes r = false -> specPath r = "" /\ specPathItem r = None).
Proof.
  induction specPaths as [|k l IH]; cbn [findSpecPath].
  - intros [= <-]. by split_and!.
  - destruct (toRegExp k) as [re|] eqn:Hre; cbn [mbind option_bind]; [| done].
    destruct (test re path) eqn:Ht.
    + destruct (lookupPath paths k) as [item|] eqn:Hitem.
      * intros [= <-]. cbn. split_and!; try done.
        intros _. split_and!; [apply list_elem_of_here | done | done |].
        unfold templateMatches. rewrite Hre, Ht, Hitem. by apply bool_decide_eq_true.
      * intros H. destruct (IH H) as (Hp & Hok & Hko). split_and!; [done | | done].
        intros Hv. destruct (Hok Hv) as (? & ? & ? & ?).
        split_and!; [by apply list_elem_of_further | done | done | done].
    + intros H. destruct (IH H) as (Hp & Hok & Hko). split_and!; [done | | done].
      intros Hv. destruct (Hok Hv) as (? & ? & ? & ?).
      split_and!; [by apply list_elem_of_further | done | done | done].
Qed.

Lemma literalChar_spec (c : ascii) :
  literalChar c = true ->
  plainChar c = true /\ Ascii.eqb c "{" = false /\ atomOf (Char c) = Lit c.
Proof.
  destruct c as [[] [] [] [] [] [] [] []]; vm_compute; intros H; try discriminate H;
    by split_and!.
Qed.

Lemma tokens_literal (s : string) :
  literal s = true -> tokens s = Char <$> list_ascii_of_string s.
Proof.
  unfold tokens. induction s as [|c s IH]; [done |].
  cbn [allChars literal]. intros [Hc Hs]%andb_true_iff.
  destruct (literalChar_spec c Hc) as (_ & Hb & _).
  cbn [scan list_ascii_of_string fmap list_fmap]. rewrite Hb.
  f_equal. by apply IH.
Qed.

Lemma literal_chars (s : string) :
  literal s = true -> Forall (fun c => literalChar c = true) (list_ascii_of_string s).
Proof.
  induction s as [|c s IH]; [constructor |].
  cbn [allChars literal]. intros [Hc Hs]%andb_true_iff. constructor; [done | by apply IH].
Qed.

(** The expression of a literal text is that text, then the end. *)
Lemma toRegExp_literal (s : string) :
  literal s = true ->
  toRegExp s = Some ((Lit <$> list_ascii_of_string s) ++ [EndAnchor]).
Proof.
  intros Hs. rewrite RoutingFacts.toRegExp_plain.
  - rewrite (tokens_literal _ Hs). do 2 f_equal.
    induction (literal_chars _ Hs) as [|c l Hc _ IH]; [done |].
    cbn [fmap list_fmap] in *. rewrite IH.
    by destruct (literalChar_spec c Hc) as (_ & _ & ->).
  - unfold plain. rewrite (tokens_literal _ Hs).
    induction (literal_chars _ Hs) as [|c l Hc _ IH]; [done |].
    cbn [fmap list_fmap forallb] in *. rewrite IH.
    by destruct (literalChar_spec c Hc) as (-> & _ & _).
Qed.

Lemma matchHere_literal (cs : list ascii) (s : string) :
  matchHere ((Lit <$> cs) ++ [EndAnchor]) s = true -> s = string_of_list_ascii cs.
Proof.
  revert s. induction cs as [|c cs IH]; intros s; cbn [fmap list_fmap app matchHere].
  - by destruct s.
  - destruct s as [|x s]; [done |].
    intros [Hx Hs]%andb_true_iff. apply Ascii.eqb_eq in Hx as ->.
    cbn [string_of_list_ascii]. f_equal. by apply IH.
Qed.

Lemma test_literal (cs : list ascii) (s : string) :
  test ((Lit <$> cs) ++ [EndAnchor]) s = true ->
  exists p, s = p +:+ string_of_list_ascii cs.
Proof.
  induction s as [|x s IH]; cbn [test].
  - rewrite orb_false_r. intros ->%matchHere_literal. by exists "".
  - intros [H | H]%orb_true_iff.
    + exists "". by apply matchHere_literal in H.
    + destruct (IH H) as [p ->]. by exists (String x p).
Qed.

Section Resolver.

Context `{api : UrlApi}.

(** X1.  Whatever [validatePath] returns, [apiPath] is the path parsed from
    the URL, and success goes with a path item: on success the template
    returned is a key of the document's [paths], the path item is the one
    declared under that key, and the end-anchored expression of the template
    matches the path; on failure there is no template and no path item. *)
Theorem validatePath_result_is_consistent doc url r :
  validatePath doc url = Some r ->
  apiPath r = parseApiPathFromUrl url
  /\ (pathValidateRes r = true ->
        specPath r ∈ Js.keys (default [] (paths doc))
        /\ specPathItem r = lookupPath (default [] (paths doc)) (specPath r)
        /\ is_Some (specPathItem r)
        /\ templateMatches (default [] (paths doc)) (apiPath r) (specPath r) = true)
  /\ (pathValidateRes r = false -> specPath r = "" /\ specPathItem r = None).
Proof.
  unfold validatePath.
  destruct (isEmpty (parseApiPathFromUrl url)) eqn:He.
  - intros [= <-]. cbn. split_and!; try done.
    by destruct (parseApiPathFromUrl url).
  - destruct (toRegExp (basePathOf doc)) as [re|]; cbn [mbind option_bind]; [| done].
    destruct (negb (isEmpty (basePathOf doc)) && negb (test re (parseApiPathFromUrl url))).
    + intros [= <-]. by split_and!.
    + intros H. destruct (findSpecPath_sound _ _ _ _ H) as (Hp & Hok & Hko).
      rewrite Hp. by split_and!.
Qed.

(** X2.  The base-path gate is end-anchored like the templates: when the
    document declares a base path made of ordinary characters, [validatePath]
    succeeds only on request paths that end with that base path. *)
Theorem literal_base_path_must_end_the_path doc url r :
  isEmpty (basePathOf doc) = false ->
  literal (basePathOf doc) = true ->
  validatePath doc url = Some r ->
  pathValidateRes r = true ->
  exists p, apiPath r = p +:+ basePathOf doc.
Proof.
  intros Hne Hlit. unfold validatePath.
  destruct (isEmpty (parseApiPathFromUrl url)); [by intros [= <-] |].
  rewrite (toRegExp_literal _ Hlit). cbn [mbind option_bind]. rewrite Hne. cbn [negb andb].
  destruct (test _ (parseApiPathFromUrl url)) eqn:Ht; cbn [negb]; [| by intros [= <-]].
  intros H _. destruct (findSpecPath_sound _ _ _ _ H) as (-> & _).
  apply test_literal in Ht as [p ->]. exists p.
  by rewrite string_of_list_ascii_of_string.
Qed.

End Resolver.

End ResolverFacts.

(** ** The validation engine: what each category looks at *)

Section EngineFacts.

Context `{api : UrlApi}.
Variable ajv : AjvOptions -> SchemaObject -> (Value -> option string) + JsError.

(** What the loop over the path parameters may report. *)
Lemma path_loop_messages vars ps m :
  m ∈ (Check.forEach (checkPathParam ajv vars) ps []).2 ->
  exists p, p ∈ ps
    /\ (m = "Missing required path parameter: " +:+ name p
        \/ exists text, m = "Invalid path parameter " +:+ name p +:+ ": " +:+ text).
Proof.
  intros (p & Hp & Hm)%forEach_reported; [| apply checkPathParam_appends].
  exists p. split; [done |].
  apply checkPathParam_elem in Hm as [[-> _] | [text ->]]; [by left | right; by exists text].
Qed.

(** X3.  [validateUrlPathParam] reports the keys of the path-variable object
    that name no declared path parameter, all in one message and in the order
    of the object's keys; it gives that message exactly when its loop over
    the declared path parameters does not throw and there is such a key.  The
    loop does not throw when the schemas of the parameters compile. *)
Theorem unknown_path_variables_reported (vars : Js.Obj) ps :
  let declared := name <$> paramsIn "path" ps in
  let extraParams :=
    List.filter (fun key => negb (Js.includesStr declared key)) (Js.keys vars) in
  let out := validateUrlPathParam ajv (Some vars) ps [] in
  ("Unknown path parameters: " +:+ Js.join ", " extraParams ∈ out.2
   <-> out.1 = inl tt /\ extraParams <> [])
  /\ (parametersCompile ajv ps = true -> out.1 = inl tt).
Proof.
  intros declared extraParams out. split; [| apply validateUrlPathParam_returns].
  subst out. rewrite validateUrlPathParam_run. cbn zeta.
  fold declared. fold extraParams.
  set (loop := Check.forEach (checkPathParam ajv vars) (paramsIn "path" ps) []).
  set (missing := List.filter _ (name <$> List.filter _ (paramsIn "path" ps))).
  assert (Hloop : forall l, l <> [] ->
            ("Unknown path parameters: " +:+ Js.join ", " l) ∉ loop.2).
  { intros l Hl (p & _ & [H | [text H]])%path_loop_messages; vm_compute in H; congruence. }
  assert (Hnil : ("Unknown path parameters: " +:+ Js.join ", " []) ∉ loop.2).
  { intros (p & _ & [H | [text H]])%path_loop_messages; vm_compute in H; congruence. }
  destruct (loop.1) as [[] | e]; cbn [fst snd].
  - split.
    + intros Hin. split; [done |]. intros E. rewrite E in Hin.
      change (Nat.ltb 0 (length (@nil string))) with false in Hin. cbn iota in Hin.
      apply elem_of_app in Hin as [Hin | Hin]; [done |].
      rewrite app_nil_l in Hin.
      destruct (Nat.ltb 0 (length missing));
        [| by apply elem_of_nil in Hin].
      apply list_elem_of_singleton in Hin. vm_compute in Hin. congruence.
    + intros [_ Hne]. destruct extraParams as [|k l] eqn:E; [done |].
      change (Nat.ltb 0 (length (k :: l))) with true. cbn iota.
      apply elem_of_app. right. apply elem_of_app. left. apply list_elem_of_here.
  - split; [| by intros [[=] _]].
    intros Hin. destruct extraParams as [|k l]; [done |]. by apply Hloop in Hin.
Qed.

(** X4.  Query and header validation read the declared names only: two query
    maps that agree on the declared query parameters, and two header maps
    that agree on the declared headers (under their names and their
    lower-case names), get the same result.  An entry under another name is
    never reported, unlike an unknown path variable. *)
Theorem query_and_header_checks_read_declared_names_only
    (q q' h h' : gmap string Value) ps errs :
  (forall p, p ∈ paramsIn "query" ps -> q !! name p = q' !! name p) ->
  (forall p, p ∈ paramsIn "header" ps ->
     h !! name p = h' !! name p
     /\ h !! Js.toLowerCase (name p) = h' !! Js.toLowerCase (name p)) ->
  validateUrlQueryParam ajv (Some q) ps errs = validateUrlQueryParam ajv (Some q') ps errs
  /\ validateUrlHeaders ajv (Some h) ps errs = validateUrlHeaders ajv (Some h') ps errs.
Proof.
  intros Hq Hh. split; cbn [validateUrlQueryParam validateUrlHeaders].
  - rewrite (forEach_ext (checkQueryParam ajv q) (checkQueryParam ajv q')); [done |].
    intros p Hp. unfold checkQueryParam, Js.lookup. by rewrite (Hq p Hp).
  - rewrite (forEach_ext (checkHeaderParam ajv h) (checkHeaderParam ajv h')); [done |].
    intros p Hp. unfold checkHeaderParam, Js.lookup. destruct (Hh p Hp) as [-> ->]. done.
Qed.

(** X5.  A required path parameter whose key is missing from the
    path-variable object is reported twice, whenever the path validator
    returns: by its own message, and in a last message that lists every
    required path parameter whose key is missing, in the order of their
    declaration.  The validator returns when the schemas of the parameters
    compile, and leaves the violations that were already there in place.  (The
    parameter is not named like a property that every object inherits, such
    as [constructor]: the read of such a key finds the inherited
    property.) *)
Theorem absent_required_path_parameter_reported_twice (vars : Js.Obj) ps errs p :
  inr p ∈ default [] ps ->
  in_ p = "path" ->
  required p = Some true ->
  ownName (name p) = true ->
  name p ∉ Js.keys vars ->
  let missingPathParams :=
    List.filter (fun param => negb (Js.includesStr (Js.keys vars) param))
      (name <$> List.filter (fun param => isTrue (required param)) (paramsIn "path" ps)) in
  let out := validateUrlPathParam ajv (Some vars) ps [] in
  validateUrlPathParam ajv (Some vars) ps errs = (out.1, errs ++ out.2)
  /\ name p ∈ missingPathParams
  /\ (out.1 = inl tt ->
      "Missing required path parameter: " +:+ name p ∈ out.2
      /\ last out.2
         = Some ("Missing required path parameters: " +:+ Js.join ", " missingPathParams))
  /\ (parametersCompile ajv ps = true -> out.1 = inl tt).
Proof.
  intros Hin Hloc Hreq _ Habs missing out.
  destruct (missing_path_parameter_messages ajv vars ps p Hin Hloc Hreq Habs)
    as [Hmiss Hm].
  split_and!.
  - apply validateUrlPathParam_appends.
  - exact Hmiss.
  - exact Hm.
  - apply validateUrlPathParam_returns.
Qed.

(** X6.  A declared header is read under its lower-case name, else under its
    declared name, and nowhere else: when the header map has no entry under
    these two keys, a required header is reported missing whenever the
    header validator returns, whatever the map holds under other keys (the
    same name in another letter case included).  The validator returns when
    the schemas of the parameters compile.  (Neither key is the name of a
    property that every object inherits.) *)
Theorem header_read_under_lower_case_or_declared_name_only
    (h : gmap string Value) ps errs p :
  inr p ∈ default [] ps ->
  in_ p = "header" ->
  required p = Some true ->
  ownName (Js.toLowerCase (name p)) = true ->
  ownName (name p) = true ->
  h !! Js.toLowerCase (name p) = None ->
  h !! name p = None ->
  let out := validateUrlHeaders ajv (Some h) ps [] in
  validateUrlHeaders ajv (Some h) ps errs = (out.1, errs ++ out.2)
  /\ (out.1 = inl tt -> "Missing required header parameter: " +:+ name p ∈ out.2)
  /\ (parametersCompile ajv ps = true -> out.1 = inl tt).
Proof.
  intros Hin Hloc Hreq _ _ Hlow Hname out. split_and!.
  - apply validateUrlHeaders_appends.
  - intros Hret.
    apply (forEach_messages _ _ (checkHeaderParam_appends ajv h) Hret p);
      [by apply elem_of_paramsIn |].
    unfold checkHeaderParam, Js.or, Js.lookup. rewrite Hlow, Hname, Hreq. cbn.
    apply list_elem_of_here.
  - apply validateUrlHeaders_returns.
Qed.

(** X7.  References are not followed: the parameters given as a [$ref] are
    left out of every check, so they are neither validated nor required, and
    a request body given as a [$ref] is not checked either. *)
Theorem references_are_not_validated vars q h body ps r errs :
  let declared :=
    List.filter (fun p => match p with inr _ => true | inl _ => false end) ps in
  validateUrlPathParam ajv vars (Some ps) errs
    = validateUrlPathParam ajv vars (Some declared) errs
  /\ validateUrlQueryParam ajv q (Some ps) errs
    = validateUrlQueryParam ajv q (Some declared) errs
  /\ validateUrlHeaders ajv h (Some ps) errs
    = validateUrlHeaders ajv h (Some declared) errs
  /\ validateUrlRequestBody ajv body (Some (inl r)) errs = (inl tt, errs).
Proof.
  intros declared.
  assert (H : forall location, paramsIn location (Some ps) = paramsIn location (Some declared)).
  { intros location. subst declared. unfold paramsIn.
    change (default [] (Some ps)) with ps.
    change (default [] (Some (List.filter ?f ps))) with (List.filter f ps).
    induction ps as [|[ref | p] l IH]; cbn [omap list_omap List.filter]; [done | done |].
    destruct (String.eqb (in_ p) location); [f_equal |]; apply IH. }
  unfold validateUrlPathParam, validateUrlQueryParam, validateUrlHeaders.
  by rewrite !H.
Qed.

End EngineFacts.

Section EngineEdges.

Context `{api : UrlApi}.
Variable ajv : AjvOptions -> SchemaObject -> (Value -> option string) + JsError.




(** [validateRequestParameters] when the path item lacks the method. *)
Lemma validateRequestParameters_no_method url doc method input p item :
  validatePath doc url = Some p ->
  pathValidateRes p = true ->
  specPathItem p = Some item ->
  item !! Js.toLowerCase method = None ->
  validateRequestParameters ajv url doc method input
  = Some (Returned
            {| isValid := false;
               errors := ["Method " +:+ method +:+ " not found for path "
                            +:+ specPath p +:+ " in OpenAPI specification"] |}).
Proof.
  intros Hp Hres Hitem Hop. unfold validateRequestParameters.
  rewrite Hp; cbn [mbind option_bind]. by rewrite Hres, Hitem, Hop.
Qed.

(** X9.  Once the path is resolved, the operation is looked up under the
    method in lower case: methods that differ in letter case only give the
    same result, and a method that the path item does not declare gives the
    single violation that names the method, as the caller wrote it, and the
    matched template.  (The method in lower case is not the name of a
    property that every object inherits.) *)
Theorem method_is_matched_in_lower_case url doc method method' input p item :
  validatePath doc url = Some p ->
  pathValidateRes p = true ->
  specPathItem p = Some item ->
  Js.toLowerCase method = Js.toLowerCase method' ->
  ownName (Js.toLowerCase method) = true ->
  match item !! Js.toLowerCase method with
  | Some _ =>
      validateRequestParameters ajv url doc method input
        = validateRequestParameters ajv url doc method' input
  | None =>
      validateRequestParameters ajv url doc method input
        = Some (Returned
                  {| isValid := false;
                     errors := ["Method " +:+ method +:+ " not found for path "
                                  +:+ specPath p +:+ " in OpenAPI specification"] |})
  end.
Proof.
  intros Hp Hres Hitem Hm _.
  destruct (item !! Js.toLowerCase method) as [operation|] eqn:Hop.
  - rewrite (validateRequestParameters_resolved ajv _ _ _ input _ _ _ Hp Hres Hitem Hop).
    rewrite Hm in Hop.
    by rewrite (validateRequestParameters_resolved ajv _ _ _ input _ _ _ Hp Hres Hitem Hop).
  - by apply (validateRequestParameters_no_method _ _ _ _ _ item).
Qed.

(** The empty document, which the loader returns when no parser reads the
    specification, resolves no path. *)
Lemma validateRequestParameters_emptyDocument url method input :
  validateRequestParameters ajv url emptyDocument method input
  = Some (Returned
            {| isValid := false;
               errors := ["API path " +:+ parseApiPathFromUrl url
                            +:+ " is not valid or not found in OpenAPI specification"] |}).
Proof.
  unfold validateRequestParameters, validatePath.
  destruct (parseApiPathFromUrl url) as [|c s] eqn:E; [done |].
  reflexivity.
Qed.

End EngineEdges.

(** ** Building the request: path templates *)

Module ResolvePathFacts.
Import Js JsFacts RegExp Template Routing Paths Http.

Lemma holeNames_length (ts : list token) : length (holeNames ts) = holes ts.
Proof.
  induction ts as [|[c | key] ts IH]; cbn [holeNames holes length]; by rewrite ?IH.
Qed.

Lemma lookup_present (m : gmap string Value) (k : string) (v : Value) :
  m !! k = Some v -> Js.lookup m k = v.
Proof. unfold Js.lookup. by intros ->. Qed.

Lemma resolveTokens_filled (ts : list token) pathVariables (segments : list string) :
  Forall2 (provides pathVariables) (holeNames ts) segments ->
  resolveTokens ts pathVariables = Ret (fill ts segments).
Proof.
  revert segments. induction ts as [|[c | key] ts IH]; intros segments;
    cbn [holeNames resolveTokens fill].
  - done.
  - intros H. by rewrite (IH _ H).
  - intros H. apply Forall2_cons_inv_l in H as (seg & rest & (v & Hv & Hne & Hs) & H & ->).
    rewrite (lookup_present _ _ _ Hv).
    assert (Js.isUndefined v = false) as -> by by destruct v.
    unfold String_. rewrite Hs. cbn. by rewrite (IH _ H).
Qed.

Lemma resolveTokens_missing (ts : list token) pathVariables before key after :
  holeNames ts = before ++ key :: after ->
  Forall (fun k => exists seg, provides pathVariables k seg) before ->
  Js.lookup pathVariables key = VUndefined ->
  resolveTokens ts pathVariables = Throw (missingPathVariable key).
Proof.
  revert before. induction ts as [|[c | k] ts IH]; intros before;
    cbn [holeNames resolveTokens].
  - by destruct before.
  - intros Hn Hb Hk. by rewrite (IH _ Hn Hb Hk).
  - destruct before as [|k0 before]; cbn [app].
    + intros [= -> Hn] _ Hk. by rewrite Hk.
    + intros [= -> Hn] Hb Hk. apply Forall_cons in Hb as [(seg & v & Hv & Hne & Hs) Hb].
      rewrite (lookup_present _ _ _ Hv).
      assert (Js.isUndefined v = false) as -> by by destruct v.
      unfold String_. rewrite Hs. cbn. by rewrite (IH _ Hn Hb Hk).
Qed.

(** X10.  [resolvePath] fills each placeholder with the text of the variable
    of that name: the result is the template instantiated, from left to
    right, with these texts.  When the template is made of placeholders and
    plain characters and the texts are non-empty and hold no [/], the routing
    expression of the same template matches every path that ends with the
    result. *)
Theorem resolvePath_builds_an_instance_of_the_template
    (T : string) pathVariables (segments : list string) :
  Forall2 (provides pathVariables) (holeNames (tokens T)) segments ->
  resolvePath T (Some pathVariables) = Ret (instantiate T segments)
  /\ (plain T = true ->
      Forall (fun seg => isSegment seg = true) segments ->
      forall re prefix,
        toRegExp T = Some re ->
        test re (prefix +:+ instantiate T segments) = true).
Proof.
  intros H. split; [by apply resolveTokens_filled |].
  intros Hplain Hsegs re prefix Hre.
  apply RoutingFacts.test_instance; [done | done | | done].
  rewrite <- holeNames_length. by apply Forall2_length in H.
Qed.

(** X11.  Without a variable object [resolvePath] returns the pattern as it
    is, placeholders included.  With one, it throws for the first
    placeholder, from the left, that has no value, with the message
    [Missing path variable: <name>].  (The placeholder is not named like a
    property that every object inherits, whose value the read would find.) *)
Theorem resolvePath_throws_on_the_first_missing_variable
    (T : string) pathVariables before key after :
  holeNames (tokens T) = before ++ key :: after ->
  Forall (fun k => exists seg, provides pathVariables k seg) before ->
  ownName key = true ->
  Js.lookup pathVariables key = VUndefined ->
  resolvePath T None = Ret T
  /\ resolvePath T (Some pathVariables)
     = Throw {| message := "Missing path variable: " +:+ key; responseData := None |}.
Proof.
  intros Hn Hb _ Hk. split; [done |]. by apply (resolveTokens_missing _ _ before key after).
Qed.

End ResolvePathFacts.

(** ** Building the request: the final URL *)

Module FinalUrlFacts.
Import Js JsFacts RegExp GlobalReplace Paths Http.

Lemma atomOfChar_literal (c : ascii) (t : string) :
  literalChar c = true -> Ascii.eqb c "[" = false /\ atomOfChar c t = Some (Lit c).
Proof.
  intros Hc. destruct (ResolverFacts.literalChar_spec c Hc) as (Hp & _ & Ha).
  destruct (RoutingFacts.plainChar_atom c t Hp) as [Hb Hat]. by rewrite Hat, Ha.
Qed.

(** The expression of a literal text, whatever follows it. *)
Lemma RegExp_new_literal (s t : string) :
  literal s = true ->
  RegExp_new (s +:+ t) = r ← RegExp_new t; Some ((Lit <$> list_ascii_of_string s) ++ r).
Proof.
  induction s as [|c s IH]; cbn [allChars literal].
  - intros _. rewrite append_nil_l. by destruct (RegExp_new t).
  - intros [Hc Hs]%andb_true_iff. rewrite append_cons.
    destruct (atomOfChar_literal c (s +:+ t) Hc) as [Hb Ha].
    rewrite (RoutingFacts.RegExp_new_single _ _ Hb), Ha, (IH Hs).
    by destruct (RegExp_new t).
Qed.

(** A match of an expression that starts with a text starts with that text. *)
Lemma matchLength_starts (cs : list ascii) (r : regex) (s : string) n :
  matchLength ((Lit <$> cs) ++ r) s = Some n ->
  is_Some (stripPrefix (string_of_list_ascii cs) s).
Proof.
  revert s n. induction cs as [|c cs IH]; intros s n;
    cbn [fmap list_fmap app string_of_list_ascii].
  - intros _. by destruct s.
  - cbn [matchLength stripPrefix]. destruct s as [|x s]; [done |].
    destruct (Ascii.eqb x c) eqn:E; [| done].
    apply Ascii.eqb_eq in E as ->. rewrite Ascii.eqb_refl.
    destruct (matchLength ((Lit <$> cs) ++ r) s) as [k|] eqn:Hk; [| done].
    intros _. by apply (IH s k).
Qed.

Lemma includes_false (s pat : string) :
  includes s pat = false ->
  stripPrefix pat s = None
  /\ match s with EmptyString => True | String _ s' => includes s' pat = false end.
Proof.
  destruct s as [|c s]; cbn [includes]; destruct (stripPrefix pat _); done.
Qed.

(** Where the text that every match starts with does not occur, nothing is
    replaced. *)
Lemma replaceFrom_no_occurrence (r : regex) (replacement start s : string) :
  (forall s' n, matchLength r s' = Some n -> is_Some (stripPrefix start s')) ->
  includes s start = false ->
  replaceFrom r replacement 0 s = s.
Proof.
  intros Hstart. induction s as [|c s IH]; intros Hs;
    destruct (includes_false _ _ Hs) as [Hnone Hrest]; cbn [replaceFrom].
  - destruct (matchLength r "") as [n|] eqn:Hm; [| done].
    apply Hstart in Hm as [? Hm]. congruence.
  - destruct (matchLength r (String c s)) as [n|] eqn:Hm.
    + apply Hstart in Hm as [? Hm]. congruence.
    + by rewrite (IH Hrest).
Qed.

Lemma pattern_starts (key : string) re :
  RegExp_new ("%7B" +:+ key +:+ "%7D") = Some re ->
  forall s' n, matchLength re s' = Some n -> is_Some (stripPrefix "%7B" s').
Proof.
  rewrite (RegExp_new_literal "%7B" (key +:+ "%7D") eq_refl).
  destruct (RegExp_new (key +:+ "%7D")) as [r|]; [| done].
  intros [= <-] s' n. apply (matchLength_starts ["%"; "7"; "B"]%char r).
Qed.

Lemma buildFinalUrl_no_occurrence (url : string) (urlVariables : Js.Obj) :
  includes url "%7B" = false ->
  Forall (fun entry =>
            is_Some (RegExp_new ("%7B" +:+ entry.1 +:+ "%7D"))
            /\ is_Some (Builtin.ToString entry.2)) urlVariables ->
  buildFinalUrl url (Some urlVariables) = Some url.
Proof.
  intros Hurl Hvars. cbn [buildFinalUrl].
  induction Hvars as [|[key value] l [[re Hre] [text Htext]] _ IH]; [done |].
  cbn [foldl substituteVariable mbind option_bind]. cbn [fst snd] in *.
  rewrite Hre, Htext. cbn [mbind option_bind].
  unfold replaceAll.
  by rewrite (replaceFrom_no_occurrence _ _ "%7B" _ (pattern_starts _ _ Hre) Hurl).
Qed.

Lemma substitute_nothing (urlVariables : Js.Obj) :
  foldl substituteVariable None urlVariables = None.
Proof. induction urlVariables as [|[key value] l IH]; [done | apply IH]. Qed.

(** Whatever [buildFinalUrl] returns for a URL without [%7B] is that URL. *)
Lemma buildFinalUrl_unchanged (url : string) urlVariables (finalUrl : string) :
  includes url "%7B" = false ->
  buildFinalUrl url urlVariables = Some finalUrl ->
  finalUrl = url.
Proof.
  intros Hurl. destruct urlVariables as [urlVariables|]; cbn [buildFinalUrl];
    [| by intros [= <-]].
  induction urlVariables as [|[key value] l IH]; [by intros [= <-] |].
  cbn [foldl substituteVariable mbind option_bind].
  destruct (RegExp_new ("%7B" +:+ key +:+ "%7D")) as [re|] eqn:Hre;
    cbn [mbind option_bind]; [| by rewrite substitute_nothing].
  destruct (Builtin.ToString value) as [text|];
    cbn [mbind option_bind]; [| by rewrite substitute_nothing].
  unfold replaceAll.
  by rewrite (replaceFrom_no_occurrence _ _ "%7B" _ (pattern_starts _ _ Hre) Hurl).
Qed.

Section OnTheEnvironmentHost.

Context `{api : UrlApi}.
Variable ajv : AjvOptions -> SchemaObject -> (Value -> option string) + JsError.
Variable USER_ENVIRONMENT : ApiEnvironment.
Variable USER_TOKEN : string.
Variable RECALL_SPEC_WITH_FIELD_URL : string.
Variable needSetHostByEnv : bool.
Variable JSON_stringify : Value -> string.
Variable regExpError buildFinalUrlError : JsError.

(** The invoke operation with [buildFinalUrl] as [http-helper.ts] has it. *)
Local Abbreviation invoke :=
  (invokeApi ajv USER_ENVIRONMENT USER_TOKEN RECALL_SPEC_WITH_FIELD_URL
             needSetHostByEnv JSON_stringify buildFinalUrl regExpError
             buildFinalUrlError).

(** X12.  [buildFinalUrl] looks for the percent-encoded placeholder
    [%7B<name>%7D] only: a URL in which [%7B] does not occur comes back as it
    is, whatever the variables, so a placeholder written with braces, like
    [{item_id}], is not substituted.  The invoke operation builds the final
    URL from the URL that environment rewriting returns; when the request URL
    already names the host of the configured environment, that is the URL as
    the caller wrote it: when the names of the caller's path variables hold
    nothing that a regular expression reads specially (the placeholder
    expression of each is within the fragment of [RegExp]), every request
    that the operation then sends goes to that URL, braces included. *)
Theorem final_url_keeps_brace_placeholders (input : InvokeInput) (u : URL) :
  includes (arg_url input) "%7B" = false ->
  URL_new (arg_url input) = Some u ->
  URL_hostname u = DOMAIN_NAME USER_ENVIRONMENT ->
  Forall (fun entry => is_Some (RegExp_new ("%7B" +:+ entry.1 +:+ "%7D")))
         (default [] (arg_urlVariables input)) ->
  (forall urlVariables : Js.Obj,
     Forall (fun entry =>
               is_Some (RegExp_new ("%7B" +:+ entry.1 +:+ "%7D"))
               /\ is_Some (Builtin.ToString entry.2)) urlVariables ->
     buildFinalUrl (arg_url input) (Some urlVariables) = Some (arg_url input))
  /\ (forall t o e,
        exec (invoke input) t o ->
        e ∈ apiRequests t ->
        exists answer,
          e = Ev (AxiosRequest
                    (requestConfig input (arg_url input)
                       (buildHeadersFromInput USER_ENVIRONMENT USER_TOKEN
                          (arg_headers input) needSetHostByEnv))) answer).
Proof.
  intros Hurl Hu Hhost _. split; [intros vars; by apply buildFinalUrl_no_occurrence |].
  intros t o e (t1 & loaded & Hload & H)%invokeApi_executions.
  pose proof (parseOpenApiDoc_no_api_request _ _ _ _ _ Hload) as Hnone.
  rewrite (replaceDomain_on_target USER_ENVIRONMENT _ u Hu Hhost) in H.
  assert (Hquiet : t = t1 -> e ∈ apiRequests t -> False).
  { intros ->. rewrite Hnone. apply not_elem_of_nil. }
  destruct loaded as [doc | err]; [| destruct H as [Ht _]; intros He; by destruct Hquiet].
  destruct (requestValidation _ _ _ _ _ _) as [[r | thrown]|];
    [| destruct H as [Ht _]; intros He; by destruct Hquiet
     | destruct H as [Ht _]; intros He; by destruct Hquiet].
  destruct (isValid r); [| destruct H as [Ht _]; intros He; by destruct Hquiet].
  destruct (buildFinalUrl _ _) as [finalUrl|] eqn:Hfinal;
    [| destruct H as [Ht _]; intros He; by destruct Hquiet].
  apply (buildFinalUrl_unchanged _ _ _ Hurl) in Hfinal as ->.
  destruct H as (answer & -> & _). unfold apiRequests in *.
  rewrite List.filter_app, Hnone. cbn [List.filter isApiRequest app].
  intros ->%list_elem_of_singleton. by exists answer.
Qed.

End OnTheEnvironmentHost.

Lemma matchLength_literal_text (s rest : string) :
  matchLength (Lit <$> list_ascii_of_string s) (s +:+ rest) = Some (String.length s).
Proof.
  induction s as [|c s IH]; [by destruct rest |].
  rewrite append_cons. cbn [list_ascii_of_string fmap list_fmap matchLength String.length].
  fold (@fmap list _ _ _ Lit (list_ascii_of_string s)).
  by rewrite Ascii.eqb_refl, IH.
Qed.

(** The characters of the current match are passed over. *)
Lemma replaceFrom_skip (r : regex) (replacement p s : string) :
  replaceFrom r replacement (String.length p) (p +:+ s) = replaceFrom r replacement 0 s.
Proof.
  induction p as [|c p IH]; [by rewrite append_nil_l |].
  by rewrite append_cons.
Qed.

(** Characters with which no match starts are copied. *)
Lemma replaceFrom_copy (r : regex) (replacement a s : string) :
  allChars (fun c => negb (Ascii.eqb c "%")) a = true ->
  replaceFrom (Lit "%" :: r) replacement 0 (a +:+ s)
  = a +:+ replaceFrom (Lit "%" :: r) replacement 0 s.
Proof.
  induction a as [|c a IH]; [by rewrite append_nil_l |].
  cbn [allChars]. intros [Hc Ha]%andb_true_iff. apply negb_true_iff in Hc.
  rewrite !append_cons. cbn [replaceFrom matchLength]. by rewrite Hc, (IH Ha).
Qed.

(** A match at the start is replaced. *)
Lemma replaceFrom_match (replacement s rest : string) :
  s <> "" ->
  replaceFrom (Lit <$> list_ascii_of_string s) replacement 0 (s +:+ rest)
  = replacement +:+ replaceFrom (Lit <$> list_ascii_of_string s) replacement 0 rest.
Proof.
  intros Hs. pose proof (matchLength_literal_text s rest) as Hm.
  set (r := Lit <$> list_ascii_of_string s) in *.
  destruct s as [|c s]; [done |]. rewrite append_cons in *.
  cbn [replaceFrom]. rewrite Hm. cbn [String.length]. f_equal.
  apply replaceFrom_skip.
Qed.

Lemma encoded_char (c : ascii) :
  Builtin.isUnreserved (Builtin.hexDigit (nat_of_ascii c / 16)) = true
  /\ Builtin.isUnreserved (Builtin.hexDigit (nat_of_ascii c mod 16)) = true.
Proof. destruct c as [[] [] [] [] [] [] [] []]; by vm_compute. Qed.

(** An encoded text holds unreserved characters and [%] only. *)
Lemma encodeURIComponent_chars (s : string) :
  allChars (fun c => Builtin.isUnreserved c || Ascii.eqb c "%")
           (Builtin.encodeURIComponent s) = true.
Proof.
  induction s as [|c s IH]; [done |]. cbn [Builtin.encodeURIComponent].
  destruct (Builtin.isUnreserved c) eqn:Hc; cbn [allChars].
  - by rewrite Hc, IH.
  - destruct (encoded_char c) as [-> ->]. by rewrite IH.
Qed.

(** X13.  Where the URL holds the percent-encoded placeholder of a variable,
    [buildFinalUrl] puts the variable's text in its place, percent-encoded:
    the text brings in unreserved characters and [%] only, hence no [/],
    [?], [#] or [&]. *)
Theorem buildFinalUrl_substitutes_the_encoded_placeholder
    (a b key : string) (value : Value) (text : string) :
  literal key = true ->
  allChars (fun c => negb (Ascii.eqb c "%")) a = true ->
  allChars (fun c => negb (Ascii.eqb c "%")) b = true ->
  Builtin.ToString value = Some text ->
  buildFinalUrl (a +:+ "%7B" +:+ key +:+ "%7D" +:+ b) (Some [(key, value)])
  = Some (a +:+ Builtin.encodeURIComponent text +:+ b)
  /\ allChars (fun c => Builtin.isUnreserved c || Ascii.eqb c "%")
               (Builtin.encodeURIComponent text) = true.
Proof.
  intros Hkey Ha Hb Htext. split; [| apply encodeURIComponent_chars].
  set (pattern := "%7B" +:+ key +:+ "%7D").
  assert (Hlit : literal pattern = true).
  { unfold literal, pattern in *. by rewrite !allChars_app, Hkey. }
  assert (Hre : RegExp_new pattern
                = Some (Lit <$> list_ascii_of_string pattern)).
  { rewrite <- (append_nil_r pattern) at 1. rewrite (RegExp_new_literal _ _ Hlit).
    cbn. by rewrite app_nil_r. }
  assert (Hurl : a +:+ "%7B" +:+ key +:+ "%7D" +:+ b = a +:+ pattern +:+ b).
  { unfold pattern. by rewrite !append_assoc. }
  rewrite Hurl. cbn [buildFinalUrl foldl substituteVariable mbind option_bind].
  fold pattern. rewrite Hre, Htext. cbn [mbind option_bind]. f_equal.
  unfold replaceAll.
  assert (Hhead : Lit <$> list_ascii_of_string pattern
                  = Lit "%" :: (Lit <$> list_ascii_of_string ("7B" +:+ key +:+ "%7D")))
    by reflexivity.
  rewrite Hhead, (replaceFrom_copy _ _ _ _ Ha), <- Hhead. f_equal.
  assert (Hmatch : replaceFrom (Lit <$> list_ascii_of_string pattern)
                     (Builtin.encodeURIComponent text) 0 (pattern +:+ b)
                   = Builtin.encodeURIComponent text
                     +:+ replaceFrom (Lit <$> list_ascii_of_string pattern)
                           (Builtin.encodeURIComponent text) 0 b).
  { by apply replaceFrom_match. }
  rewrite Hmatch. f_equal.
  rewrite Hhead. rewrite <- (append_nil_r b) at 1.
  rewrite (replaceFrom_copy _ _ _ _ Hb). by rewrite append_nil_r.
Qed.

End FinalUrlFacts.

(** ** Building the request of a generated operation *)

Module PrepareFacts.
Import Js JsFacts Http.

Lemma bind_Ret_inv {A B} (p : Prog A) (f : A -> Prog B) (b : B) :
  p ≫= f = Ret b -> exists a, p = Ret a /\ f a = Ret b.
Proof. destruct p as [a | e | X c k]; [| done | done]. intros H. by exists a. Qed.

Section Prepare.

Variable USER_ENVIRONMENT : ApiEnvironment.
Variable USER_TOKEN : string.
Variable operation : OperationObject.

(** The arguments of the input: [input.properties || {}], entry by entry. *)
Local Abbreviation arguments input :=
  (if Js.truthy (Js.get input "properties")
   then Builtin.entries (Js.get input "properties") else []).

Lemma loop_thrown (e : JsError) (props : list (string * Value)) :
  foldl (prepareEntry operation) (Throw e) props = Throw e.
Proof. induction props as [|[key value] props IH]; [done | apply IH]. Qed.

(** A turn of the loop returns or throws. *)
Lemma prepareEntry_settles (st : Prepared) (entry : string * Value) :
  (exists st', prepareEntry operation (Ret st) entry = Ret st')
  \/ (exists e, prepareEntry operation (Ret st) entry = Throw e).
Proof.
  destruct entry as [key value]. unfold prepareEntry, String_. cbn.
  destruct (Builtin.ToString value); repeat case_match; cbn; eauto.
Qed.

(** A turn on an entry that is neither the body nor named like a declared
    parameter changes nothing. *)
Lemma prepareEntry_undeclared (st : Prepared) (key : string) (value : Value) :
  String.eqb key SCHEMA_REQUEST_BODY = false ->
  findParameter operation key = None ->
  prepareEntry operation (Ret st) (key, value) = Ret st.
Proof. intros Hb Hf. unfold prepareEntry. cbn. by rewrite Hb, Hf. Qed.

Lemma loop_filter (keep : string * Value -> bool) (props : list (string * Value)) :
  (forall key value, keep (key, value) = false ->
     String.eqb key SCHEMA_REQUEST_BODY = false /\ findParameter operation key = None) ->
  forall st,
    foldl (prepareEntry operation) (Ret st) (List.filter keep props)
    = foldl (prepareEntry operation) (Ret st) props.
Proof.
  intros Hkeep. induction props as [|[key value] props IH]; intros st; [done |].
  cbn [List.filter foldl]. destruct (keep (key, value)) eqn:E.
  - cbn [foldl].
    destruct (prepareEntry_settles st (key, value)) as [[st' ->] | [e ->]];
      [apply IH | by rewrite !loop_thrown].
  - destruct (Hkeep _ _ E) as [Hb Hf].
    rewrite (prepareEntry_undeclared _ _ _ Hb Hf). apply IH.
Qed.

(** X14.  [prepareRequestData] takes the arguments from [input.properties]
    and nowhere else; among them it reads [requestBody] and the entries named
    like a declared parameter, and no other: leaving all the others out of
    the input changes nothing. *)
Theorem prepareRequestData_reads_declared_arguments_only
    (input input' : Js.Obj) (props : list (string * Value)) (path : string) :
  Js.get input "properties" = VObj props ->
  Js.get input' "properties"
  = VObj (List.filter
            (fun entry =>
               String.eqb entry.1 "requestBody"
               || bool_decide (is_Some (findParameter operation entry.1)))
            props) ->
  prepareRequestData USER_ENVIRONMENT USER_TOKEN input' operation path
  = prepareRequestData USER_ENVIRONMENT USER_TOKEN input operation path.
Proof.
  intros Hin Hin'. unfold prepareRequestData. rewrite Hin, Hin'.
  cbn [truthy Builtin.entries]. rewrite loop_filter; [done |].
  intros key value [Hb Hf]%orb_false_iff. cbn [fst] in *. split; [done |].
  apply bool_decide_eq_false in Hf. destruct (findParameter operation key); [| done].
  destruct Hf. by eexists.
Qed.

(** Without a path argument the loop leaves [pathParams] as it is, and it
    returns when every argument can be converted to a string. *)
Lemma loop_without_path_argument (props : list (string * Value)) :
  (forall key value p,
     (key, value) ∈ props -> String.eqb key SCHEMA_REQUEST_BODY = false ->
     findParameter operation key = Some p -> in_ p <> "path") ->
  (forall key value, (key, value) ∈ props -> is_Some (Builtin.ToString value)) ->
  forall st, exists st',
    foldl (prepareEntry operation) (Ret st) props = Ret st'
    /\ pathParams st' = pathParams st.
Proof.
  induction props as [|[key value] props IH]; intros Hpath Hconv st; [by exists st |].
  cbn [foldl].
  assert (Hturn : exists st1, prepareEntry operation (Ret st) (key, value) = Ret st1
                              /\ pathParams st1 = pathParams st).
  { destruct (Hconv key value) as [text Htext]; [apply list_elem_of_here |].
    unfold prepareEntry, String_. cbn. rewrite Htext. cbn.
    destruct (String.eqb key SCHEMA_REQUEST_BODY) eqn:Hb; [by eexists |].
    destruct (findParameter operation key) as [p|] eqn:Hf; [| by eexists].
    destruct (String.eqb (in_ p) "header"); [by eexists |].
    destruct (String.eqb (in_ p) "query"); [by eexists |].
    destruct (String.eqb (in_ p) "path") eqn:Hp; [| by eexists].
    apply String.eqb_eq in Hp. destruct (Hpath key value p); try done.
    apply list_elem_of_here. }
  destruct Hturn as (st1 & -> & H1).
  destruct (IH) with (st := st1) as (st' & Hloop & H');
    [intros k v p Hk; by apply (Hpath k v p), list_elem_of_further
    |intros k v Hk; by apply (Hconv k v), list_elem_of_further |].
  exists st'. split; [done | congruence].
Qed.

(** X15.  When no argument names a declared path parameter,
    [prepareRequestData] does not resolve the template: provided every
    argument can be converted to a string, it returns, and the path it
    returns is the template as it is, placeholders included. *)
Theorem prepareRequestData_without_path_argument_keeps_the_template
    (input : Js.Obj) (path : string) :
  (forall key value p,
     (key, value) ∈ arguments input -> String.eqb key "requestBody" = false ->
     findParameter operation key = Some p -> in_ p <> "path") ->
  (forall key value,
     (key, value) ∈ arguments input -> is_Some (Builtin.ToString value)) ->
  exists d,
    prepareRequestData USER_ENVIRONMENT USER_TOKEN input operation path = Ret d
    /\ RequestData.resolvedPath d = path.
Proof.
  intros Hpath Hconv. unfold prepareRequestData.
  destruct (loop_without_path_argument _ Hpath Hconv
              {| headers := ∅; params := ∅; data := VUndefined; pathParams := ∅ |})
    as (st' & -> & Hp).
  cbn [pathParams] in Hp. cbn. rewrite Hp. cbn. by eexists.
Qed.

(** A turn of the loop touches the header of its own key only. *)
Lemma prepareEntry_other_headers (st st1 : Prepared) (key0 key : string) (value0 : Value) :
  prepareEntry operation (Ret st) (key0, value0) = Ret st1 ->
  key <> key0 ->
  headers st1 !! key = headers st !! key.
Proof.
  unfold prepareEntry, String_, Js.setProperty. cbn. intros H Hne.
  destruct (Builtin.ToString value0); cbn in H; repeat case_match;
    try discriminate H; injection H as <-; cbn; rewrite ?lookup_insert_ne; done.
Qed.

Lemma prepareEntry_header (st st1 : Prepared) (key text : string) (value : Value) p :
  prepareEntry operation (Ret st) (key, value) = Ret st1 ->
  String.eqb key SCHEMA_REQUEST_BODY = false ->
  findParameter operation key = Some p ->
  in_ p = "header" ->
  Builtin.ToString value = Some text ->
  key <> "__proto__" ->
  headers st1 !! key = Some (VStr text).
Proof.
  unfold prepareEntry, String_, Js.setProperty. cbn.
  intros H Hb Hf Hin Htext Hproto. rewrite Hb, Hf, Hin, Htext in H. cbn in H.
  apply String.eqb_neq in Hproto. rewrite Hproto in H.
  injection H as <-. cbn. by rewrite lookup_insert_eq.
Qed.

(** What the loop leaves in [headers], for arguments with distinct keys. *)
Lemma loop_headers (props : list (string * Value)) :
  NoDup props.*1 ->
  forall st st',
    foldl (prepareEntry operation) (Ret st) props = Ret st' ->
    (forall key, key ∉ props.*1 -> headers st' !! key = headers st !! key)
    /\ (forall key value p text,
          (key, value) ∈ props ->
          String.eqb key SCHEMA_REQUEST_BODY = false ->
          findParameter operation key = Some p ->
          in_ p = "header" ->
          Builtin.ToString value = Some text ->
          key <> "__proto__" ->
          headers st' !! key = Some (VStr text)).
Proof.
  induction props as [|[key0 value0] props IH]; intros Hnd st st'.
  - intros [= <-]. split; [done |]. by intros ? ? ? ? ?%elem_of_nil.
  - cbn [fmap list_fmap fst] in Hnd. apply NoDup_cons in Hnd as [Hfresh Hnd].
    cbn [foldl].
    destruct (prepareEntry_settles st (key0, value0)) as [[st1 Hst1] | [e He]];
      [| by rewrite He, loop_thrown].
    rewrite Hst1. intros Hloop. destruct (IH Hnd st1 st' Hloop) as [Hother Hset].
    split.
    + intros key Hkey. cbn [fmap list_fmap fst] in Hkey.
      apply not_elem_of_cons in Hkey as [Hne Hkey].
      rewrite (Hother key Hkey). by apply (prepareEntry_other_headers st st1 key0 key value0).
    + intros key value p text [[= -> ->] | Hin]%elem_of_cons Hb Hf Hloc Htext Hproto.
      * rewrite (Hother key0 Hfresh). by apply (prepareEntry_header st st1 key0 text value0 p).
      * by apply (Hset key value p text).
Qed.

(** X16.  The headers that [prepareRequestData] returns: whatever the
    configured environment and whatever the arguments, [Host] names the
    production domain, and [User-Agent] and [Authorization] are the fixed
    agent and the bearer token, so an argument of one of these names is
    overridden; an argument named like another declared header parameter
    (but [Content-Type]) is passed on, converted to a string. *)
Theorem prepareRequestData_headers
    (input : Js.Obj) (path : string) (d : RequestData.t) :
  prepareRequestData USER_ENVIRONMENT USER_TOKEN input operation path = Ret d ->
  RequestData.headers d !! "Host" = Some (VStr "api.ebay.com")
  /\ RequestData.headers d !! "User-Agent" = Some (VStr "EBAY-API-MCP-Tool/1.0")
  /\ RequestData.headers d !! "Authorization" = Some (VStr ("Bearer " +:+ USER_TOKEN))
  /\ (NoDup (arguments input).*1 ->
      forall key value p text,
        (key, value) ∈ arguments input ->
        findParameter operation key = Some p ->
        in_ p = "header" ->
        Builtin.ToString value = Some text ->
        key ∉ ["Host"; "User-Agent"; "Authorization"; "Content-Type";
               "requestBody"; "__proto__"] ->
        RequestData.headers d !! key = Some (VStr text)).
Proof.
  unfold prepareRequestData.
  intros (st & Hloop & (resolved & _ & [= <-])%bind_Ret_inv)%bind_Ret_inv.
  cbn [RequestData.headers]. unfold fillDefaultHeaderInfo.
  split_and!; try by rewrite !lookup_insert_ne, ?lookup_insert_eq by done.
  intros Hnd key value p text Hin Hf Hloc Htext Hkey.
  assert (Hne : key <> "Host" /\ key <> "User-Agent" /\ key <> "Authorization"
                /\ key <> "Content-Type" /\ key <> "requestBody" /\ key <> "__proto__").
  { split_and!; intros ->; apply Hkey; repeat constructor. }
  destruct Hne as (? & ? & ? & ? & Hb & ?).
  rewrite !lookup_insert_ne by done.
  destruct (loop_headers _ Hnd _ _ Hloop) as [_ Hset].
  apply (Hset key value p text); try done. by apply String.eqb_neq.
Qed.

End Prepare.

End PrepareFacts.

(** ** The base URL of a document, and the default headers *)

Module BaseUrlFacts.
Import Js JsFacts Http.

(** A replacement text without [$] is taken as it is. *)
Lemma getSubstitution_plain (matched before after replacement : string) :
  allChars (fun c => negb (Ascii.eqb c "$")) replacement = true ->
  Builtin.getSubstitution matched before after replacement = replacement.
Proof.
  induction replacement as [|c t IH]; [done |].
  cbn [allChars]. intros [Hc Ht]%andb_true_iff. specialize (IH Ht).
  apply negb_true_iff, Ascii.eqb_neq in Hc.
  cbn [Builtin.getSubstitution].
  destruct c as [[] [] [] [] [] [] [] []]; try (by rewrite IH); by destruct Hc.
Qed.

Lemma replaceAfter_here (seen s pattern replacement after : string) :
  stripPrefix pattern s = Some after ->
  Builtin.replaceAfter seen s pattern replacement
  = Builtin.getSubstitution pattern seen after replacement +:+ after.
Proof. intros H. destruct s; cbn [Builtin.replaceAfter]; by rewrite H. Qed.

(** The pattern is found after a text that holds no [{]. *)
Lemma replaceAfter_found (seen a key rest replacement : string) :
  allChars (fun c => negb (Ascii.eqb c "{")) a = true ->
  Builtin.replaceAfter seen (a +:+ ("{" +:+ key +:+ "}") +:+ rest)
                       ("{" +:+ key +:+ "}") replacement
  = a +:+ Builtin.getSubstitution ("{" +:+ key +:+ "}") (seen +:+ a) rest replacement
      +:+ rest.
Proof.
  revert seen. induction a as [|c a IH]; intros seen.
  - intros _. rewrite !append_nil_l, append_nil_r.
    apply replaceAfter_here, stripPrefix_app.
  - cbn [allChars]. intros [Hc Ha]%andb_true_iff. apply negb_true_iff in Hc.
    rewrite !append_cons. cbn [Builtin.replaceAfter stripPrefix].
    rewrite Ascii.eqb_sym, Hc. rewrite (IH _ Ha).
    by rewrite append_assoc.
Qed.

Section BaseUrl.

Context `{api : UrlApi}.
Variable USER_ENVIRONMENT : ApiEnvironment.
Variable USER_TOKEN : string.

(** X17.  The base URL of a document is its first server URL, each server
    variable's default put in place of the variable's placeholder, rewritten
    for the configured environment: so for a server URL with one variable,
    when no [{] comes before the placeholder and the default holds no [$].
    A document without servers has the base URL that rewriting makes of the
    empty string, which is the empty string when the URL parser refuses
    it. *)
Theorem base_url_substitutes_the_server_variable
    (a key b d : string) (more : list ServerObject) paths :
  allChars (fun c => negb (Ascii.eqb c "{")) a = true ->
  allChars (fun c => negb (Ascii.eqb c "$")) d = true ->
  buildBaseUrlFromOpenApi USER_ENVIRONMENT
    {| servers := Some ({| url := a +:+ ("{" +:+ key +:+ "}") +:+ b;
                           variables := Some [(key, {| default_ := d |})] |} :: more);
       paths := paths |}
  = replaceDomainNameByEnvironment USER_ENVIRONMENT (a +:+ d +:+ b)
  /\ (URL_new "" = None ->
      buildBaseUrlFromOpenApi USER_ENVIRONMENT {| servers := None; paths := paths |} = ""
      /\ buildBaseUrlFromOpenApi USER_ENVIRONMENT {| servers := Some []; paths := paths |}
         = "").
Proof.
  intros Ha Hd. split.
  - unfold buildBaseUrlFromOpenApi. cbn [servers url variables default foldl id default_].
    unfold Builtin.replace. rewrite (replaceAfter_found _ _ _ _ _ Ha).
    by rewrite (getSubstitution_plain _ _ _ _ Hd).
  - intros Hempty. unfold buildBaseUrlFromOpenApi, replaceDomainNameByEnvironment.
    cbn [servers url variables default foldl]. rewrite Hempty.
    by destruct USER_ENVIRONMENT.
Qed.

(** X18.  [Content-Type] is [application/json] unless the caller supplies a
    non-empty one: when the caller's headers leave it out, give it no value,
    or give the empty string as its first value. *)
Theorem content_type_defaults_to_json
    (inputHeaders : option (gmap string (list string))) (needSetHostByEnv : bool) :
  match inputHeaders ≫= (.!! "Content-Type") with
  | None | Some [] | Some ("" :: _) => True
  | Some _ => False
  end ->
  buildHeadersFromInput USER_ENVIRONMENT USER_TOKEN inputHeaders needSetHostByEnv
    !! "Content-Type"
  = Some (VStr "application/json").
Proof.
  intros H. unfold buildHeadersFromInput, fillDefaultHeaderInfo.
  rewrite lookup_insert_eq. f_equal. unfold Js.lookup.
  rewrite !lookup_insert_ne by done.
  destruct inputHeaders as [inputHeaders|]; cbn in H; [| done].
  rewrite input_headers_fold, lookup_fmap, lookup_delete_ne by done.
  destruct (inputHeaders !! "Content-Type") as [[|v more]|]; cbn; [done | | done].
  by destruct v.
Qed.

End BaseUrl.

Lemma lowerChar_idempotent (c : ascii) : lowerChar (lowerChar c) = lowerChar c.
Proof. destruct c as [[] [] [] [] [] [] [] []]; by vm_compute. Qed.

Lemma toLowerCase_idempotent (s : string) : toLowerCase (toLowerCase s) = toLowerCase s.
Proof.
  induction s as [|c s IH]; [done |]. cbn [toLowerCase].
  by rewrite lowerChar_idempotent, IH.
Qed.

(** A value that names no environment gives the fallback. *)
Lemma findApiEnvironmentByValue_fallback (fallback : ApiEnvironment) (value : string) :
  (forall e, toLowerCase value <> envName e) ->
  findApiEnvironmentByValue fallback value = fallback.
Proof.
  intros Hne. unfold findApiEnvironmentByValue. cbn [List.find].
  change (toLowerCase (envName SANDBOX)) with "sandbox".
  change (toLowerCase (envName PRODUCTION)) with "production".
  destruct (String.eqb "sandbox" (toLowerCase value)) eqn:E1.
  { apply String.eqb_eq in E1. by destruct (Hne SANDBOX). }
  destruct (String.eqb "production" (toLowerCase value)) eqn:E2.
  { apply String.eqb_eq in E2. by destruct (Hne PRODUCTION). }
  done.
Qed.

(** X19.  [findApiEnvironmentByValue] reads back the name of each
    environment, and reads a value whatever its letter case; every other
    value, the empty one included, gives the fallback. *)
Theorem findApiEnvironmentByValue_reads_names_in_any_case
    (fallback : ApiEnvironment) (value : string) :
  (forall e, findApiEnvironmentByValue fallback (envName e) = e)
  /\ findApiEnvironmentByValue fallback (toLowerCase value)
     = findApiEnvironmentByValue fallback value
  /\ (forall e, toLowerCase value = envName e ->
        findApiEnvironmentByValue fallback value = e)
  /\ ((forall e, toLowerCase value <> envName e) ->
        findApiEnvironmentByValue fallback value = fallback).
Proof.
  split_and!.
  - by intros [].
  - unfold findApiEnvironmentByValue. by rewrite toLowerCase_idempotent.
  - intros e He. unfold findApiEnvironmentByValue. rewrite He. by destruct e.
  - apply findApiEnvironmentByValue_fallback.
Qed.

End BaseUrlFacts.

(** ** Schemas of the generated operations *)

Module SchemaFacts.
Import Js JsFacts OpenApiHelper Schemas.

(** Induction on a value, its elements and its properties. *)
Lemma Value_nested_ind (P : Value -> Prop) :
  P VUndefined -> P VNull -> (forall b, P (VBool b)) -> (forall n, P (VNum n)) ->
  (forall s, P (VStr s)) ->
  (forall items, Forall P items -> P (VArr items)) ->
  (forall props, Forall (fun entry => P entry.2) props -> P (VObj props)) ->
  forall v, P v.
Proof.
  intros Hu Hn Hb Hnum Hs Ha Ho.
  fix IH 1. intros [| | b | n | s | items | props];
    [apply Hu | apply Hn | apply Hb | apply Hnum | apply Hs | |].
  - apply Ha. induction items as [|x items IHl]; constructor; [apply IH | apply IHl].
  - apply Ho. induction props as [|[k x] props IHl]; constructor; [apply IH | apply IHl].
Qed.

(** The properties that [readSchema2Map] keeps of an object. *)
Lemma readSchema2Map_object (props : list (string * Value)) :
  readSchema2Map (VObj props)
  = VObj (omap (fun entry =>
                  if dropped entry.1 then None
                  else Some (entry.1, readSchema2Map entry.2)) props).
Proof.
  cbn [readSchema2Map]. f_equal.
  induction props as [|[k v] props IH]; [done |]. cbn [omap list_omap fst snd].
  destruct (dropped k); by rewrite IH.
Qed.

Lemma free_object (props : list (string * Value)) :
  free (VObj props)
  = forallb (fun entry => negb (dropped entry.1) && free entry.2) props.
Proof.
  cbn [free]. induction props as [|[k v] props IH]; [done |].
  cbn [forallb fst snd]. by rewrite IH.
Qed.

Lemma readSchema2Map_free (v : Value) : free (readSchema2Map v) = true.
Proof.
  induction v as [| | b | n | s | items IH | props IH] using Value_nested_ind; try done.
  - cbn [readSchema2Map free]. induction IH as [|x items Hx _ IHl]; [done |].
    cbn [List.map forallb]. by rewrite Hx, IHl.
  - rewrite readSchema2Map_object, free_object.
    induction IH as [|[k x] props Hx _ IHl]; [done |].
    cbn [omap list_omap fst snd] in *. destruct (dropped k) eqn:Hk; [done |].
    cbn [forallb fst snd]. by rewrite Hk, Hx, IHl.
Qed.



Lemma free_get_dropped (props : list (string * Value)) (k : string) :
  free (VObj props) = true -> dropped k = true -> Js.get props k = VUndefined.
Proof.
  rewrite free_object. intros Hf Hk.
  induction props as [|[k' v] props IH]; [done |]. cbn [forallb fst snd] in Hf.
  apply andb_true_iff in Hf as [[Hk' _]%andb_true_iff Hf]. cbn [Js.get].
  destruct (String.eqb k' k) eqn:E; [| by apply IH].
  apply String.eqb_eq in E as ->. by rewrite Hk in Hk'.
Qed.

Lemma free_member_dropped (v : Value) (k : string) :
  free v = true -> dropped k = true -> Builtin.member v k = VUndefined.
Proof. destruct v; try done. apply free_get_dropped. Qed.

(** What holds of the properties collected so far. *)
Local Abbreviation stripped properties :=
  (forall (key : string) (schema : Value),
     (properties : gmap string Value) !! key = Some schema -> free schema = true).

Lemma setProperty_stripped (properties : gmap string Value) (key : string) (v : Value) :
  stripped properties -> free v = true ->
  stripped (Js.setProperty properties key v).
Proof.
  intros Hp Hv k schema. unfold Js.setProperty.
  destruct (String.eqb key "__proto__"); [apply Hp |].
  destruct (decide (key = k)) as [-> | Hne].
  - rewrite lookup_insert_eq. by intros [= <-].
  - rewrite lookup_insert_ne by done. apply Hp.
Qed.

Lemma parameters_loop (params : list Js.Obj) :
  Forall (fun param => Js.includesStr (Js.keys param) "$ref" = false ->
                       exists n, Js.get param "name" = VStr n) params ->
  forall properties0, stripped properties0 ->
  exists properties,
    foldl addParameter (Some properties0) params = Some properties
    /\ stripped properties
    /\ (forall key, is_Some (properties0 !! key) -> is_Some (properties !! key))
    /\ (forall param n,
          param ∈ params -> Js.includesStr (Js.keys param) "$ref" = false ->
          Js.get param "name" = VStr n -> n <> "__proto__" ->
          is_Some (properties !! n))
    /\ (forall key,
          is_Some (properties !! key) ->
          is_Some (properties0 !! key)
          \/ exists param,
               param ∈ params /\ Js.includesStr (Js.keys param) "$ref" = false
               /\ Js.get param "name" = VStr key).
Proof.
  induction 1 as [|param params Hparam _ IH]; intros properties0 H0.
  - exists properties0. split_and!; try done; [by intros ? ? ?%elem_of_nil | by left].
  - cbn [foldl]. unfold addParameter at 2. cbn [mbind option_bind].
    destruct (Js.includesStr (Js.keys param) "$ref") eqn:Href.
    + destruct (IH properties0 H0) as (properties & -> & Hs & Hmono & Hin & Hfrom).
      exists properties. split_and!; try done.
      * intros p n [-> | Hp]%elem_of_cons Hr; [congruence | by apply (Hin p)].
      * intros key [Hkey | (p & Hp & Hr & Hn)]%Hfrom; [by left | right].
        exists p. split_and!; [by apply list_elem_of_further | done | done].
    + destruct (Hparam eq_refl) as [name Hname]. rewrite Hname.
      cbn [Builtin.ToString mbind option_bind].
      destruct (IH (Js.setProperty properties0 name (readSchema2Map (VObj param))))
        as (properties & -> & Hs & Hmono & Hin & Hfrom).
      { apply setProperty_stripped; [done | apply readSchema2Map_free]. }
      exists properties. split_and!; try done.
      * intros key Hkey. apply Hmono. unfold Js.setProperty.
        destruct (String.eqb name "__proto__"); [done |].
        destruct (decide (name = key)) as [-> | Hne];
          [by rewrite lookup_insert_eq | by rewrite lookup_insert_ne].
      * intros p n [-> | Hp]%elem_of_cons Hr Hn Hproto; [| by apply (Hin p)].
        apply Hmono. rewrite Hname in Hn. injection Hn as ->.
        unfold Js.setProperty.
        apply String.eqb_neq in Hproto. rewrite Hproto. by rewrite lookup_insert_eq.
      * intros key [Hkey | (p & Hp & Hr & Hn)]%Hfrom.
        -- unfold Js.setProperty in Hkey.
           destruct (String.eqb name "__proto__"); [by left |].
           destruct (decide (name = key)) as [-> | Hne].
           ++ right. exists param. split_and!; [apply list_elem_of_here | done | done].
           ++ rewrite lookup_insert_ne in Hkey by done. by left.
        -- right. exists p. split_and!; [by apply list_elem_of_further | done | done].
Qed.

(** X21.  The schema of a generated operation has an entry for every
    declared parameter, under the parameter's name, and no other entry but
    [requestBody]: a parameter given as a [$ref] brings none.  The body
    schema of [application/json], when there is one, is under [requestBody].
    Every entry went through [readSchema2Map]: it says neither where the
    parameter goes ([in]) nor whether it is required, and holds none of the
    ignored keys at any depth.  (The declared parameters have texts as names,
    and [__proto__] names no property.) *)
Theorem buildOperationSchema_entries_are_stripped (operation : Operation) :
  Forall (fun param => Js.includesStr (Js.keys param) "$ref" = false ->
                       exists n, Js.get param "name" = VStr n)
         (default [] (parameters operation)) ->
  exists properties,
    buildOperationSchema operation = Some properties
    /\ (forall key schema,
          properties !! key = Some schema ->
          free schema = true
          /\ Builtin.member schema "in" = VUndefined
          /\ Builtin.member schema "required" = VUndefined)
    /\ (forall param n,
          param ∈ default [] (parameters operation) ->
          Js.includesStr (Js.keys param) "$ref" = false ->
          Js.get param "name" = VStr n -> n <> "__proto__" ->
          is_Some (properties !! n))
    /\ (forall key,
          is_Some (properties !! key) ->
          key = "requestBody"
          \/ exists param,
               param ∈ default [] (parameters operation)
               /\ Js.includesStr (Js.keys param) "$ref" = false
               /\ Js.get param "name" = VStr key)
    /\ (forall body,
          requestBody operation = Some body ->
          let schema :=
            optionalMember
              (optionalMember (Js.get body "content") "application/json") "schema" in
          Js.includesStr (Js.keys body) "content" = true ->
          Js.truthy schema = true ->
          properties !! "requestBody" = Some (readSchema2Map schema)).
Proof.
  intros Hparams. unfold buildOperationSchema.
  destruct (parameters_loop _ Hparams ∅) as (properties & -> & Hs & _ & Hin & Hfrom);
    [by intros key schema; rewrite lookup_empty |].
  cbn [mbind option_bind].
  assert (Hfree : forall properties' : gmap string Value,
            stripped properties' ->
            forall key schema, properties' !! key = Some schema ->
              free schema = true /\ Builtin.member schema "in" = VUndefined
              /\ Builtin.member schema "required" = VUndefined).
  { intros properties' Hs' key schema Hk. pose proof (Hs' _ _ Hk) as Hf.
    split_and!; [done | by apply free_member_dropped..]. }
  assert (Hkeys : forall key, is_Some (properties !! key) ->
            key = "requestBody"
            \/ exists param,
                 param ∈ default [] (parameters operation)
                 /\ Js.includesStr (Js.keys param) "$ref" = false
                 /\ Js.get param "name" = VStr key).
  { intros key [[? Hkey] | H]%Hfrom; [by rewrite lookup_empty in Hkey | by right]. }
  destruct (requestBody operation) as [body|];
    [| exists properties; split_and!; [done | by apply Hfree | done | done | done]].
  destruct (Js.includesStr (Js.keys body) "content") eqn:Hcontent; cbn [andb];
    [| exists properties; split_and!; [done | by apply Hfree | done | done |];
       intros ? [= <-]; cbn zeta; intros H _; by rewrite Hcontent in H].
  destruct (Js.truthy _) eqn:Hschema;
    [| exists properties; split_and!; [done | by apply Hfree | done | done |];
       intros ? [= <-]; cbn zeta; intros _ H; by rewrite Hschema in H].
  eexists. split_and!; [done | | | |].
  - apply Hfree. intros key schema.
    destruct (decide (SCHEMA_REQUEST_BODY = key)) as [<- | Hne].
    + rewrite lookup_insert_eq. intros [= <-]. apply readSchema2Map_free.
    + rewrite lookup_insert_ne by done. apply Hs.
  - intros param n Hp Hr Hn Hproto.
    destruct (decide (SCHEMA_REQUEST_BODY = n)) as [<- | Hne].
    + by rewrite lookup_insert_eq.
    + rewrite lookup_insert_ne by done. by apply (Hin param).
  - intros key Hkey. destruct (decide (SCHEMA_REQUEST_BODY = key)) as [<- | Hne]; [by left |].
    rewrite lookup_insert_ne in Hkey by done. by apply Hkeys.
  - intros ? [= <-]; cbn zeta; intros _ _. by rewrite lookup_insert_eq.
Qed.

End SchemaFacts.

(** ** The configured documents *)

Module LoaderFacts.
Import Js JsFacts OpenApiHelper.

Lemma rev_app_spec (s acc : string) : String.rev_app s acc = String.rev s +:+ acc.
Proof.
  unfold String.rev. revert acc. induction s as [|c s IH]; intros acc; [done |].
  cbn [String.rev_app]. rewrite (IH (String c acc)), (IH (String c "")).
  by rewrite append_assoc.
Qed.

Lemma rev_cons (c : ascii) (s : string) : String.rev (String c s) = String.rev s +:+ String c "".
Proof. unfold String.rev at 1. cbn [String.rev_app]. apply rev_app_spec. Qed.

Lemma rev_append (a b : string) : String.rev (a +:+ b) = String.rev b +:+ String.rev a.
Proof.
  induction a as [|c a IH]; [by rewrite append_nil_l, append_nil_r |].
  by rewrite append_cons, !rev_cons, IH, append_assoc.
Qed.

Lemma rev_involutive (s : string) : String.rev (String.rev s) = s.
Proof.
  induction s as [|c s IH]; [done |]. by rewrite rev_cons, rev_append, IH.
Qed.

Lemma span_outside (p : ascii -> bool) (s : string) :
  startsOutside p s = true -> span p s = ("", s).
Proof.
  destruct s as [|c s]; [done |]. cbn. by intros ->%negb_true_iff.
Qed.

(** A trimmed text has no white space at either end. *)
Lemma trim_ends (s : string) :
  startsOutside isWhiteSpace (trim s) = true
  /\ startsOutside isWhiteSpace (String.rev (trim s)) = true.
Proof.
  unfold trim.
  destruct (span isWhiteSpace s) as [a s1] eqn:E1.
  destruct (span_spec _ _ _ _ E1) as (_ & _ & Hs1). cbn [snd].
  destruct (span isWhiteSpace (String.rev s1)) as [w r'] eqn:E2.
  destruct (span_spec _ _ _ _ E2) as (Hr & _ & Hr'). cbn [snd].
  rewrite rev_involutive. split; [| done].
  apply (f_equal String.rev) in Hr. rewrite rev_involutive, rev_append in Hr.
  destruct (String.rev r') as [|c t]; [done |].
  rewrite Hr, append_cons in Hs1. done.
Qed.

Lemma trim_fixed (t : string) :
  startsOutside isWhiteSpace t = true ->
  startsOutside isWhiteSpace (String.rev t) = true ->
  trim t = t.
Proof.
  intros H1 H2. unfold trim. rewrite (span_outside _ _ H1). cbn [snd].
  rewrite (span_outside _ _ H2). cbn [snd]. apply rev_involutive.
Qed.

(** X22.  Each entry that [getOpenApiDocumentsFromConfigFile] takes from the
    configuration file is a line of the file without the white space around
    it, and is neither empty nor a comment (a line that starts with [#] once
    trimmed). *)
Theorem specPaths_are_trimmed_lines (content specPath : string) :
  specPath ∈ specPaths content ->
  (exists line, line ∈ Builtin.splitLines content /\ specPath = trim line)
  /\ specPath <> ""
  /\ Builtin.startsWith specPath "#" = false
  /\ trim specPath = specPath.
Proof.
  unfold specPaths. intros [Hin Hkeep]%list_elem_of_In%filter_In.
  apply list_elem_of_In, list_elem_of_fmap in Hin as (line & -> & Hline).
  apply andb_true_iff in Hkeep as [Hlen Hhash]. apply negb_true_iff in Hhash.
  split_and!; [by exists line | | done |].
  - intros E. by rewrite E in Hlen.
  - destruct (trim_ends line). by apply trim_fixed.
Qed.

(** A text on one line. *)
Local Abbreviation oneLine line :=
  (allChars (fun c => negb (isLineTerminator c)) line = true).

Lemma oneLine_cons (c : ascii) (s : string) :
  oneLine (String c s) ->
  Ascii.eqb c "010" = false /\ Ascii.eqb c "013" = false /\ oneLine s.
Proof.
  cbn [allChars]. intros [Hc Hs]%andb_true_iff.
  apply negb_true_iff, orb_false_iff in Hc as [? ?]. done.
Qed.

Lemma split_one_line (line : string) : oneLine line -> split "010" line = [line].
Proof.
  induction line as [|c s IH]; [done |].
  intros (Hlf & _ & Hs)%oneLine_cons. cbn [split]. by rewrite Hlf, (IH Hs).
Qed.

(** Splitting at the line feed that follows a text on one line, and a
    carriage return or not. *)
Lemma split_line_feed (line rest : string) :
  oneLine line -> split "010" (line +:+ String "010" rest) = line :: split "010" rest.
Proof.
  induction line as [|c s IH]; [done |].
  intros (Hlf & _ & Hs)%oneLine_cons. rewrite append_cons. cbn [split].
  by rewrite Hlf, (IH Hs).
Qed.

Lemma split_carriage_return_line_feed (line rest : string) :
  oneLine line ->
  split "010" (line +:+ String "013" (String "010" rest))
  = (line +:+ String "013" "") :: split "010" rest.
Proof.
  induction line as [|c s IH]; [done |].
  intros (Hlf & _ & Hs)%oneLine_cons. rewrite !append_cons. cbn [split].
  by rewrite Hlf, (IH Hs).
Qed.

Lemma chomp_carriage_return (line : string) :
  oneLine line -> Builtin.chomp (line +:+ String "013" "") = line.
Proof.
  induction line as [|c s IH]; [done |].
  intros (_ & Hcr & Hs)%oneLine_cons. rewrite append_cons.
  cbn [Builtin.chomp]. rewrite (IH Hs).
  destruct s; [by rewrite append_nil_l | by rewrite append_cons].
Qed.

Lemma chomp_one_line (line : string) : oneLine line -> Builtin.chomp line = line.
Proof.
  induction line as [|c s IH]; [done |].
  intros (_ & Hcr & Hs)%oneLine_cons. cbn [Builtin.chomp]. rewrite (IH Hs).
  destruct s; [by rewrite Hcr | done].
Qed.

Lemma split_nonempty (sep : ascii) (s : string) : split sep s <> [].
Proof.
  destruct s as [|c s]; [done |]. cbn [split].
  destruct (Ascii.eqb c sep); [done |]. by destruct (split sep s).
Qed.

Lemma chompInner_cons (piece : string) (rest : list string) :
  rest <> [] ->
  Builtin.chompInner (piece :: rest) = Builtin.chomp piece :: Builtin.chompInner rest.
Proof. by destruct rest. Qed.

Lemma join_cons (sep x y : string) (rest : list string) :
  join sep (x :: y :: rest) = x +:+ sep +:+ join sep (y :: rest).
Proof. reflexivity. Qed.

Lemma splitLines_join (lines : list string) :
  lines <> [] ->
  Forall (fun line => oneLine line) lines ->
  Builtin.splitLines (join (String "013" (String "010" "")) lines) = lines
  /\ Builtin.splitLines (join (String "010" "") lines) = lines.
Proof.
  intros Hne Hlines. unfold Builtin.splitLines.
  induction Hlines as [|x lines Hx Hlines IH]; [done |].
  destruct lines as [|y lines].
  - cbn [join]. by rewrite (split_one_line _ Hx).
  - destruct IH as [IH1 IH2]; [done |].
    rewrite !join_cons, !append_cons, append_nil_l.
    rewrite (split_carriage_return_line_feed _ _ Hx), (split_line_feed _ _ Hx).
    rewrite !chompInner_cons by apply split_nonempty. rewrite append_nil_l.
    by rewrite IH1, IH2, (chomp_carriage_return _ Hx), (chomp_one_line _ Hx).
Qed.

(** X23.  The lines of the configuration file may end with a line feed or
    with a carriage return and a line feed: either way the file is split into
    the same lines, and names the same documents. *)
Theorem configuration_file_line_ends (lines : list string) :
  lines <> [] ->
  Forall (fun line => allChars (fun c => negb (isLineTerminator c)) line = true) lines ->
  Builtin.splitLines (join (String "013" (String "010" "")) lines) = lines
  /\ Builtin.splitLines (join (String "010" "") lines) = lines
  /\ specPaths (join (String "013" (String "010" "")) lines)
     = specPaths (join (String "010" "") lines).
Proof.
  intros Hne Hlines. destruct (splitLines_join lines Hne Hlines) as [H1 H2].
  split_and!; [done | done |]. unfold specPaths. by rewrite H1, H2.
Qed.

Section LoaderRuns.

Variable Sources : Type.
Variable existsSync : string -> bool.
Variable readFileSync : string -> string + JsError.
Variable dereference : Sources -> string -> (Document + JsError) * Sources.

Lemma answers_entries (urls : list string) sources :
  (Loading.answers dereference sources urls).*1 = urls.
Proof.
  revert sources. induction urls as [|specPath urls IH]; intros sources; [done |].
  cbn [Loading.answers]. destruct (dereference sources specPath) as [answer sources'].
  cbn [fmap list_fmap fst]. by rewrite IH.
Qed.

Lemma loadDocument_loop (urls : list string) log docs sources :
  (foldl (loadDocument dereference) (log, docs, sources) urls).1
  = (log ++ Loading.failures (Loading.answers dereference sources urls),
     docs ++ Loading.loaded (Loading.answers dereference sources urls)).
Proof.
  revert log docs sources. induction urls as [|specPath urls IH]; intros log docs sources.
  - cbn. by rewrite !app_nil_r.
  - cbn [foldl loadDocument Loading.answers].
    destruct (dereference sources specPath) as [[doc | e] sources'];
      rewrite IH; unfold Loading.failures, Loading.loaded;
      cbn [omap list_omap fst snd]; by rewrite <- ?app_assoc.
Qed.

Lemma outcomes_split (outcomes : list (string * (Document + JsError))) :
  length (Loading.loaded outcomes) + length (Loading.failures outcomes) = length outcomes.
Proof.
  unfold Loading.loaded, Loading.failures.
  induction outcomes as [|[specPath [doc | e]] outcomes IH]; [done | |];
    cbn [omap list_omap fst snd length]; lia.
Qed.

(** X24.  A document that fails to load does not stop the loading: each
    configured entry is asked for once, in the order of the file; the result
    holds the documents of the entries that load, in that order, and one
    failure is logged for each entry that does not.  Without a configuration
    file (the variable unset or empty, or naming no file) nothing is read
    and no document is returned. *)
Theorem loader_keeps_the_documents_that_load
    (EBAY_API_DOC_URL_FILE : option string) (file content : string) (sources : Sources) :
  (isEmpty (default "" EBAY_API_DOC_URL_FILE)
   || negb (existsSync (default "" EBAY_API_DOC_URL_FILE)) = true ->
   getOpenApiDocumentsFromConfigFile existsSync readFileSync dereference
     EBAY_API_DOC_URL_FILE sources
   = inl ([LoadingFrom []], []))
  /\ (isEmpty file = false -> existsSync file = true ->
      readFileSync file = inl content ->
      let outcomes := Loading.answers dereference sources (specPaths content) in
      outcomes.*1 = specPaths content
      /\ length (Loading.loaded outcomes) + length (Loading.failures outcomes)
         = length (specPaths content)
      /\ getOpenApiDocumentsFromConfigFile existsSync readFileSync dereference
           (Some file) sources
         = inl (LoadingFrom (specPaths content) :: Loading.failures outcomes,
                Loading.loaded outcomes)).
Proof.
  unfold getOpenApiDocumentsFromConfigFile. split.
  - intros H. destruct (isEmpty _); [done |]. cbn in H. apply negb_true_iff in H.
    by rewrite H.
  - intros Hfile Hexists Hread. cbn zeta.
    split_and!; [apply answers_entries | |].
    + by rewrite outcomes_split, <- (length_fmap fst), answers_entries.
    + cbn [default]. unfold id.
      rewrite Hfile, Hexists, Hread. cbn [negb andb]. by rewrite loadDocument_loop.
Qed.

End LoaderRuns.

End LoaderFacts.

(** ** The URLs of the specification service *)

Module ServiceUrlFacts.
Import Js JsFacts.

(** A text without [%] holds no directive. *)
Local Abbreviation plainText s :=
  (allChars (fun c => negb (Ascii.eqb c "%")) s = true).

Lemma format_copy (a rest : string) (args : list string) :
  plainText a -> format (a +:+ rest) args = a +:+ format rest args.
Proof.
  induction a as [|c a IH]; [done |].
  cbn [allChars]. intros [Hc Ha]%andb_true_iff. rewrite !append_cons.
  rewrite <- (IH Ha).
  destruct c as [[] [] [] [] [] [] [] []]; try reflexivity. done.
Qed.

Lemma format_directive (rest x : string) (args : list string) :
  format ("%s" +:+ rest) (x :: args) = x +:+ format rest args.
Proof. reflexivity. Qed.

Lemma format_end (a : string) : plainText a -> format a [] = a.
Proof.
  intros Ha. rewrite <- (append_nil_r a) at 1. rewrite (format_copy _ _ _ Ha).
  by rewrite append_nil_r.
Qed.

(** X25.  The specification is fetched from the URL pattern with its two
    [%s] replaced by the title and by the operation id as the caller gave
    them: nothing is percent-encoded, so their characters, [/], [?], [#] and
    spaces included, become characters of the URL. *)
Theorem specification_url_takes_title_and_id_as_given
    (a b c specTitle operationId : string) :
  plainText a -> plainText b -> plainText c ->
  format (a +:+ "%s" +:+ b +:+ "%s" +:+ c) [specTitle; operationId]
  = a +:+ specTitle +:+ b +:+ operationId +:+ c
  /\ forall t o,
       exec (parseOpenApiDoc specTitle operationId (a +:+ "%s" +:+ b +:+ "%s" +:+ c)) t o ->
       exists answer rest,
         t = Ev (AxiosGet (a +:+ specTitle +:+ b +:+ operationId +:+ c)) answer :: rest.
Proof.
  intros Ha Hb Hc.
  assert (E : format (a +:+ "%s" +:+ b +:+ "%s" +:+ c) [specTitle; operationId]
              = a +:+ specTitle +:+ b +:+ operationId +:+ c).
  { rewrite (format_copy _ _ _ Ha), format_directive, (format_copy _ _ _ Hb),
      format_directive. by rewrite (format_end _ Hc). }
  split; [done |]. intros t o. unfold parseOpenApiDoc. rewrite E. cbn.
  intros (answer & rest & -> & _). by exists answer, rest.
Qed.

(** X26.  The search operation puts the prompt into its URL through
    [encodeURIComponent]: the prompt brings in unreserved characters and [%]
    only, so it cannot end the path or add a query parameter. *)
Theorem query_url_encodes_the_prompt (a b prompt : string) :
  plainText a -> plainText b ->
  Service.queryUrl (a +:+ "%s" +:+ b) prompt
  = a +:+ Builtin.encodeURIComponent prompt +:+ b
  /\ allChars (fun c => Builtin.isUnreserved c || Ascii.eqb c "%")
              (Builtin.encodeURIComponent prompt) = true.
Proof.
  intros Ha Hb. split; [| apply FinalUrlFacts.encodeURIComponent_chars].
  unfold Service.queryUrl.
  by rewrite (format_copy _ _ _ Ha), format_directive, (format_end _ Hb).
Qed.

End ServiceUrlFacts.

(** ** The generic invoke operation: every execution *)

Lemma parseOpenApiDoc_after_yaml_threw specTitle operationId specUrl t o :
  exec (parseOpenApiDoc specTitle operationId specUrl) t o ->
  existsb yamlLoadThrew t = true ->
  o = Returned emptyDocument.
Proof.
  unfold parseOpenApiDoc. cbn.
  intros (fetched & rest & -> & H).
  destruct fetched as [docString | e]; cbn in H; [| by destruct H as [-> _]].
  destruct H as (json & rest1 & -> & H).
  destruct json as [doc | ej]; cbn in H; [by destruct H as [-> _] |].
  destruct H as (yaml & rest2 & -> & H).
  destruct yaml as [doc | ey]; cbn in H; [by destruct H as [-> _] |].
  by destruct H as (a & rest3 & -> & -> & ->).
Qed.

Section InvokeFacts.

Context `{api : UrlApi}.
Variable ajv : AjvOptions -> SchemaObject -> (Value -> option string) + JsError.
Variable USER_ENVIRONMENT : ApiEnvironment.
Variable USER_TOKEN : string.
Variable RECALL_SPEC_WITH_FIELD_URL : string.
Variable needSetHostByEnv : bool.
Variable JSON_stringify : Value -> string.
Variable buildFinalUrl : string -> option Js.Obj -> option string.
Variable regExpError buildFinalUrlError : JsError.

Local Abbreviation handler :=
  (invokeApi ajv USER_ENVIRONMENT USER_TOKEN RECALL_SPEC_WITH_FIELD_URL
             needSetHostByEnv JSON_stringify buildFinalUrl regExpError
             buildFinalUrlError).

(** X27.  The invoke operation never throws: whatever the environment
    answers, fetch failures and rejected requests included, every execution
    returns a tool result.  It sends at most one request to the remote API,
    and a request it sends is the last call of the execution. *)
Theorem invokeApi_always_returns input t o :
  exec (handler input) t o ->
  (exists result, o = Returned result)
  /\ (apiRequests t = []
      \/ exists before request, t = before ++ [request] /\ apiRequests t = [request]).
Proof.
  intros (t1 & loaded & Hload & H)%invokeApi_executions.
  pose proof (parseOpenApiDoc_no_api_request _ _ _ _ _ Hload) as Hnone.
  destruct loaded as [doc | e]; [| destruct H as [-> ->]; split; [by eexists | by left]].
  destruct (requestValidation _ _ _ _ _ _) as [[r | thrown]|];
    [| destruct H as [-> ->]; split; [by eexists | by left]
     | destruct H as [-> ->]; split; [by eexists | by left]].
  destruct (isValid r); [| destruct H as [-> ->]; split; [by eexists | by left]].
  destruct (buildFinalUrl _ _) as [finalUrl|];
    [| destruct H as [-> ->]; split; [by eexists | by left]].
  destruct H as (answer & -> & ->). split; [by eexists |].
  right. eexists t1, _. split; [done |].
  unfold apiRequests in *. by rewrite List.filter_app, Hnone.
Qed.

(** X28.  When no parser reads the fetched specification ([yaml.load]
    throws, after [JSON.parse] did), the invoke operation goes on with the
    empty document, in which no path is declared: it sends no request to the
    remote API and returns the validation failure that says that the path
    of the request is not found. *)
Theorem unparsable_specification_rejects_the_request input t o :
  exec (handler input) t o ->
  existsb yamlLoadThrew t = true ->
  apiRequests t = []
  /\ o = Returned
           {| content :=
                ["Request validation failed:";
                 "API path "
                   +:+ parseApiPathFromUrl
                         (replaceDomainNameByEnvironment USER_ENVIRONMENT (arg_url input))
                   +:+ " is not valid or not found in OpenAPI specification"];
              isError := true |}.
Proof.
  intros (t1 & loaded & Hload & H)%invokeApi_executions Hyaml.
  pose proof (parseOpenApiDoc_no_api_request _ _ _ _ _ Hload) as Hnone.
  assert (Hloaded : loaded = Returned emptyDocument).
  { apply (parseOpenApiDoc_after_yaml_threw _ _ _ _ _ Hload).
    destruct loaded as [doc | e]; [| by destruct H as [-> _]].
    destruct (requestValidation _ _ _ _ _ _) as [[r | thrown]|];
      [| by destruct H as [-> _] | by destruct H as [-> _]].
    destruct (isValid r); [| by destruct H as [-> _]].
    destruct (buildFinalUrl _ _) as [finalUrl|]; [| by destruct H as [-> _]].
    destruct H as (answer & -> & _). rewrite existsb_app in Hyaml.
    apply orb_true_iff in Hyaml as [Hyaml | Hyaml]; done. }
  subst loaded. unfold requestValidation in H.
  rewrite validateRequestParameters_emptyDocument in H. cbn [isValid] in H.
  by destruct H as [-> ->].
Qed.

Lemma truthy_not_missing (v : Value) :
  Js.truthy v = true -> Js.isUndefined v || Js.isNull v || Js.isEmptyString v = false.
Proof. by destruct v as [| | | | [|c s] | |]. Qed.

Lemma truthy_or (a b : Value) : Js.truthy b = true -> Js.truthy (Js.or a b) = true.
Proof. unfold Js.or. by destruct (Js.truthy a) eqn:E. Qed.

(** The four default headers are there, and not empty. *)
Lemma default_headers_truthy inputHeaders key :
  key ∈ ["Host"; "User-Agent"; "Authorization"; "Content-Type"] ->
  Js.truthy (Js.lookup (buildHeadersFromInput USER_ENVIRONMENT USER_TOKEN inputHeaders
                          needSetHostByEnv) key) = true.
Proof.
  unfold buildHeadersFromInput, fillDefaultHeaderInfo.
  set (h := match inputHeaders with Some _ => _ | None => _ end).
  intros Hkey. unfold Js.lookup at 1.
  repeat (apply elem_of_cons in Hkey as [-> | Hkey]);
    [..| by apply elem_of_nil in Hkey];
    rewrite ?lookup_insert_ne by done; rewrite lookup_insert_eq; cbn [default].
  - by destruct needSetHostByEnv, USER_ENVIRONMENT.
  - done.
  - done.
  - by apply truthy_or.
Qed.

(** X29.  The invoke operation validates the headers it built, default
    headers included: a header parameter named [Host], [User-Agent],
    [Authorization] or [Content-Type] is therefore never reported missing,
    whatever the caller supplied. *)
Theorem default_headers_are_never_reported_missing inputHeaders ps key :
  key ∈ ["Host"; "User-Agent"; "Authorization"; "Content-Type"] ->
  "Missing required header parameter: " +:+ key
    ∉ (validateUrlHeaders ajv
         (Some (buildHeadersFromInput USER_ENVIRONMENT USER_TOKEN inputHeaders
                  needSetHostByEnv)) ps []).2.
Proof.
  intros Hkey. cbn [validateUrlHeaders].
  intros (p & _ & Hm)%forEach_reported; [| apply checkHeaderParam_appends].
  unfold checkHeaderParam in Hm.
  set (value := Js.or _ _) in Hm.
  destruct (isTrue (required p) && _) eqn:Hmissing.
  - apply list_elem_of_singleton, append_inj_r in Hm.
    apply andb_true_iff in Hmissing as [_ Hmissing].
    rewrite truthy_not_missing in Hmissing; [done |].
    subst value. apply truthy_or. rewrite <- Hm. by apply default_headers_truthy.
  - destruct (schema p) as [s|]; [| by apply elem_of_nil in Hm].
    destruct (negb _); [| by apply elem_of_nil in Hm].
    unfold mbind, check_bind, Check.bind, compile in Hm.
    destruct (ajv _ s) as [validate | e]; [| by apply elem_of_nil in Hm].
    destruct (validate _) as [text|]; [| by apply elem_of_nil in Hm].
    apply list_elem_of_singleton in Hm. vm_compute in Hm. congruence.
Qed.

End InvokeFacts.

(** ** The check of the environment variables *)

Module IndexFacts.
Import Js Index.

Lemma unset_insert_ne (env : gmap string string) (key varName value : string) :
  key <> varName -> unset (<[key := value]> env) varName = unset env varName.
Proof. intros Hne. unfold unset. by rewrite lookup_insert_ne. Qed.

Lemma unset_insert (env : gmap string string) (key value : string) :
  value <> "" -> unset (<[key := value]> env) key = false.
Proof. intros Hv. unfold unset. rewrite lookup_insert_eq. by destruct value. Qed.

Lemma check_status (env : gmap string string) :
  (checkEnvironmentVariables env).2
  = if unset env "EBAY_CLIENT_TOKEN" || unset env "EBAY_API_ENV" then Some 1 else None.
Proof.
  unfold checkEnvironmentVariables. cbn [REQUIRED_ENV_VARS List.filter].
  destruct (unset env "EBAY_CLIENT_TOKEN"), (unset env "EBAY_API_ENV");
    cbn [length Nat.ltb Nat.leb orb snd]; try done.
  by destruct (_ && _).
Qed.

(** X30.  The check at start-up ends the process, with status 1, exactly
    when [EBAY_CLIENT_TOKEN] or [EBAY_API_ENV] is unset or empty.  Of
    [EBAY_API_ENV] it looks at nothing else: whatever non-empty value the
    variable has, the check writes and does the same, the warning about an
    invalid environment being about another variable, [EBAY_ENVIRONMENT].  A
    value of [EBAY_API_ENV] that names no environment is thus not reported,
    and selects the fallback environment. *)
Theorem environment_check_does_not_read_the_environment_name
    (env : gmap string string) (value : string) :
  value <> "" ->
  ((checkEnvironmentVariables env).2 = Some 1
   <-> unset env "EBAY_CLIENT_TOKEN" = true \/ unset env "EBAY_API_ENV" = true)
  /\ ((checkEnvironmentVariables env).2 = None
      <-> unset env "EBAY_CLIENT_TOKEN" = false /\ unset env "EBAY_API_ENV" = false)
  /\ checkEnvironmentVariables (<["EBAY_API_ENV" := value]> env)
     = checkEnvironmentVariables (<["EBAY_API_ENV" := "sandbox"]> env)
  /\ ((forall e, toLowerCase value <> envName e) ->
      forall fallback,
        userEnvironment fallback (<["EBAY_API_ENV" := value]> env) = fallback).
Proof.
  intros Hv. split_and!.
  - rewrite check_status.
    destruct (unset env "EBAY_CLIENT_TOKEN"), (unset env "EBAY_API_ENV"); cbn [orb];
      intuition congruence.
  - rewrite check_status.
    destruct (unset env "EBAY_CLIENT_TOKEN"), (unset env "EBAY_API_ENV"); cbn [orb];
      intuition congruence.
  - unfold checkEnvironmentVariables. cbn [REQUIRED_ENV_VARS List.filter].
    rewrite !(unset_insert_ne _ "EBAY_API_ENV" "EBAY_CLIENT_TOKEN") by done.
    rewrite !(unset_insert_ne _ "EBAY_API_ENV" "EBAY_ENVIRONMENT") by done.
    rewrite !unset_insert by done.
    by rewrite !(lookup_insert_ne _ "EBAY_API_ENV" "EBAY_ENVIRONMENT") by done.
  - intros Hname fallback. unfold userEnvironment. rewrite lookup_insert_eq.
    by apply BaseUrlFacts.findApiEnvironmentByValue_fallback.
Qed.

End IndexFacts.
(** ** The properties on sample requests *)

Module Checks.
Import Examples.

(** C4.  What query coercion does on the three sample inputs.  A string
    equal to [true] up to case is validated as the boolean [true], and
    passes a boolean schema.  ["abc"] is validated as [NaN], and fails an
    integer schema.  With [style: form] and [explode: false], ["3,4,5"] is
    split into the strings ["3"], ["4"] and ["5"], which are not converted:
    the array fails the array-of-integer schema that the array of numbers
    3, 4, 5 passes.  With [style] left out the string is not split. *)
Theorem query_coercion_on_samples :
  (forall s, Js.toLowerCase s = "true" ->
     coerceQueryValue auto_correct (VStr s) = VBool true)
  /\ checkQueryParam Ajv.compile {[ "auto_correct" := VStr "TRUE" ]} auto_correct []
     = (inl tt, [])
  /\ coerceQueryValue limit (VStr "abc") = VNum NaN
  /\ checkQueryParam Ajv.compile {[ "limit" := VStr "abc" ]} limit []
     = (inl tt, ["Invalid query parameter limit: data must be integer"])
  /\ coerceQueryValue charity_ids (VStr "3,4,5") = VArr [VStr "3"; VStr "4"; VStr "5"]
  /\ checkQueryParam Ajv.compile {[ "charity_ids" := VStr "3,4,5" ]} charity_ids []
     = (inl tt,
        ["Invalid query parameter charity_ids: "
         +:+ "data/0 must be integer, data/1 must be integer, data/2 must be integer"])
  /\ (exists validate,
        Ajv.compile options integerArraySchema = inl validate
        /\ validate (VArr [VNum (Decimal 3 0); VNum (Decimal 4 0); VNum (Decimal 5 0)])
           = None)
  /\ coerceQueryValue charity_ids_default_style (VStr "3,4,5") = VStr "3,4,5".
Proof.
  split_and!; try (vm_compute; reflexivity).
  - intros s Hs. unfold coerceQueryValue. cbn. by rewrite Hs.
  - eexists. split; [reflexivity | vm_compute; reflexivity].
Qed.

Lemma missing_required_path_parameter_reported_witness :
  (validatePath browse getItemUrl = Some getItemResolved
   /\ pathValidateRes getItemResolved = true
   /\ specPathItem getItemResolved = Some getItemPath
   /\ getItemPath !! Js.toLowerCase "GET" = Some getItem
   /\ urlVariables (input (Some []) None None) = Some []
   /\ inr item_id ∈ default [] (parameters getItem)
   /\ in_ item_id = "path"
   /\ required item_id = Some true
   /\ name item_id ∉ Js.keys ([] : Js.Obj))
  /\ validateRequestParameters Ajv.compile getItemUrl browse "GET"
       (input (Some []) None None)
     = Some (Returned {| isValid := false;
                         errors := ["Missing required path parameter: item_id";
                                    "Missing required path parameters: item_id"] |})
  /\ schemasCompile Ajv.compile getItem = true
  /\ let missingPathParams :=
       List.filter (fun key => negb (Js.includesStr (Js.keys ([] : Js.Obj)) key))
         (name <$> List.filter (fun param => isTrue (required param))
                     (paramsIn "path" (parameters getItem))) in
     (forall r,
        validateRequestParameters Ajv.compile getItemUrl browse "GET"
          (input (Some []) None None) = Some (Returned r) ->
        isValid r = false
        /\ name item_id ∈ missingPathParams
        /\ "Missing required path parameters: " +:+ Js.join ", " missingPathParams
             ∈ errors r
        /\ (ownName (name item_id) = true ->
            "Missing required path parameter: " +:+ name item_id ∈ errors r))
     /\ (schemasCompile Ajv.compile getItem = true ->
         exists r,
           validateRequestParameters Ajv.compile getItemUrl browse "GET"
             (input (Some []) None None) = Some (Returned r)).
Proof.
  assert (H1 : validatePath browse getItemUrl = Some getItemResolved)
    by (vm_compute; reflexivity).
  assert (H2 : getItemPath !! Js.toLowerCase "GET" = Some getItem)
    by (vm_compute; reflexivity).
  assert (H3 : inr item_id ∈ default [] (parameters getItem))
    by apply list_elem_of_here.
  assert (H4 : name item_id ∉ Js.keys ([] : Js.Obj)) by apply not_elem_of_nil.
  split; [by split_and! |]. split; [vm_compute; reflexivity |].
  split; [vm_compute; reflexivity |].
  exact (missing_required_path_parameter_reported Ajv.compile getItemUrl browse "GET"
           (input (Some []) None None) getItemResolved getItemPath getItem []
           item_id H1 eq_refl eq_refl H2 eq_refl H3 eq_refl eq_refl H4).
Defined.

(** C1, as stated, fails: [updateOffer] declares the required path parameter
    [offerId], which the path-variable object of the request lacks, and the
    request has a body.  The schema of the body is a reference, which
    [compile] does not resolve: the violation is found, then the validation
    throws, and no result is returned. *)
Lemma missing_path_parameter_lost_when_the_body_schema_is_a_reference :
  validatePath inventory updateOfferUrl = Some updateOfferResolved
  /\ updateOfferPath !! Js.toLowerCase "PUT" = Some updateOffer
  /\ inr offerId ∈ default [] (parameters updateOffer)
  /\ in_ offerId = "path"
  /\ required offerId = Some true
  /\ urlVariables (changeQuantity {[ "Content-Language" := VStr "en-US" ]}) = Some []
  /\ (name offerId ∉ Js.keys ([] : Js.Obj))
  /\ reported (validateUrlPathParam Ajv.compile (Some []) (parameters updateOffer))
     = ["Missing required path parameter: offerId";
        "Missing required path parameters: offerId"]
  /\ validateRequestParameters Ajv.compile updateOfferUrl inventory "PUT"
       (changeQuantity {[ "Content-Language" := VStr "en-US" ]})
     = Some (Threw (Ajv.missingRef "#/components/schemas/EbayOfferDetailsWithId"))
  /\ ~ (exists r,
          validateRequestParameters Ajv.compile updateOfferUrl inventory "PUT"
            (changeQuantity {[ "Content-Language" := VStr "en-US" ]})
          = Some (Returned r)
          /\ isValid r = false
          /\ "Missing required path parameter: offerId" ∈ errors r).
Proof.
  assert (H : validateRequestParameters Ajv.compile updateOfferUrl inventory "PUT"
                (changeQuantity {[ "Content-Language" := VStr "en-US" ]})
              = Some (Threw (Ajv.missingRef "#/components/schemas/EbayOfferDetailsWithId")))
    by (vm_compute; reflexivity).
  split_and!; try (vm_compute; reflexivity).
  - apply list_elem_of_here.
  - apply not_elem_of_nil.
  - intros (r & Hr & _). rewrite H in Hr. discriminate Hr.
Qed.

Lemma validateRequestParameters_aggregates_witness :
  validatePath inventory replaceItemUrl = Some replaceItemResolved
  /\ replaceItemPath !! Js.toLowerCase "PUT" = Some replaceItem
  /\ schemasCompile Ajv.compile replaceItem = true
  /\ validateRequestParameters Ajv.compile replaceItemUrl inventory "PUT" bareRequest
     = Some (Returned
               {| isValid := false;
                  errors := ["Missing required path parameter: sku";
                             "Missing required path parameters: sku";
                             "Missing required query parameter: marketplace_id";
                             "Missing required header parameter: Content-Language";
                             "Missing required request body"] |})
  /\ (forall r,
        validateRequestParameters Ajv.compile replaceItemUrl inventory "PUT" bareRequest
        = Some (Returned r) ->
        (isValid r = true <-> errors r = []))
  /\ (forall p item operation,
        validatePath inventory replaceItemUrl = Some p ->
        pathValidateRes p = true ->
        specPathItem p = Some item ->
        item !! Js.toLowerCase "PUT" = Some operation ->
        (forall r,
           validateRequestParameters Ajv.compile replaceItemUrl inventory "PUT"
             bareRequest = Some (Returned r) ->
           errors r
           = reported (validateUrlPathParam Ajv.compile (urlVariables bareRequest)
                         (parameters operation))
             ++ reported (validateUrlQueryParam Ajv.compile (urlQueryParams bareRequest)
                            (parameters operation))
             ++ reported (validateUrlHeaders Ajv.compile (headers bareRequest)
                            (parameters operation))
             ++ reported (validateUrlRequestBody Ajv.compile (requestBody bareRequest)
                            (OpenAPIV3.requestBody operation))
           /\ (forall vars param,
                 urlVariables bareRequest = Some vars ->
                 inr param ∈ default [] (parameters operation) ->
                 in_ param = "path" -> required param = Some true ->
                 ownName (name param) = true ->
                 name param ∉ Js.keys vars ->
                 "Missing required path parameter: " +:+ name param ∈ errors r)
           /\ (forall q param,
                 urlQueryParams bareRequest = Some q ->
                 inr param ∈ default [] (parameters operation) ->
                 in_ param = "query" -> required param = Some true ->
                 ownName (name param) = true ->
                 q !! name param = None ->
                 "Missing required query parameter: " +:+ name param ∈ errors r)
           /\ (forall h param,
                 headers bareRequest = Some h ->
                 inr param ∈ default [] (parameters operation) ->
                 in_ param = "header" -> required param = Some true ->
                 ownName (Js.toLowerCase (name param)) = true ->
                 ownName (name param) = true ->
                 h !! Js.toLowerCase (name param) = None ->
                 h !! name param = None ->
                 "Missing required header parameter: " +:+ name param ∈ errors r)
           /\ (forall rb,
                 OpenAPIV3.requestBody operation = Some (inr rb) ->
                 body_required rb = Some true ->
                 requestBody bareRequest = None \/ requestBody bareRequest = Some [] ->
                 "Missing required request body" ∈ errors r))
        /\ (schemasCompile Ajv.compile operation = true ->
            exists r,
              validateRequestParameters Ajv.compile replaceItemUrl inventory "PUT"
                bareRequest = Some (Returned r))).
Proof.
  split; [vm_compute; reflexivity |]. split; [vm_compute; reflexivity |].
  split; [vm_compute; reflexivity |]. split; [vm_compute; reflexivity |].
  exact (validateRequestParameters_aggregates Ajv.compile replaceItemUrl inventory "PUT"
           bareRequest).
Defined.

(** C3, as stated, fails: the path and the method of the request resolve to
    [updateOffer]; the path category and the header category each find a
    violation; the body category then throws on the schema of the body, a
    reference, and the violations found are lost: no list is returned. *)
Lemma violations_lost_when_the_body_schema_is_a_reference :
  validatePath inventory updateOfferUrl = Some updateOfferResolved
  /\ updateOfferPath !! Js.toLowerCase "PUT" = Some updateOffer
  /\ reported (validateUrlPathParam Ajv.compile (urlVariables (changeQuantity ∅))
                 (parameters updateOffer))
     = ["Missing required path parameter: offerId";
        "Missing required path parameters: offerId"]
  /\ reported (validateUrlHeaders Ajv.compile (headers (changeQuantity ∅))
                 (parameters updateOffer))
     = ["Missing required header parameter: Content-Language"]
  /\ validateUrlRequestBody Ajv.compile (requestBody (changeQuantity ∅))
       (OpenAPIV3.requestBody updateOffer) []
     = (inr (Ajv.missingRef "#/components/schemas/EbayOfferDetailsWithId"), [])
  /\ validateRequestParameters Ajv.compile updateOfferUrl inventory "PUT"
       (changeQuantity ∅)
     = Some (Threw (Ajv.missingRef "#/components/schemas/EbayOfferDetailsWithId"))
  /\ ~ (exists r,
          validateRequestParameters Ajv.compile updateOfferUrl inventory "PUT"
            (changeQuantity ∅) = Some (Returned r)).
Proof.
  assert (H : validateRequestParameters Ajv.compile updateOfferUrl inventory "PUT"
                (changeQuantity ∅)
              = Some (Threw (Ajv.missingRef "#/components/schemas/EbayOfferDetailsWithId")))
    by (vm_compute; reflexivity).
  split_and!; try (vm_compute; reflexivity).
  intros (r & Hr). rewrite H in Hr. discriminate Hr.
Qed.

Lemma absent_bucket_not_checked_witness :
  (validatePath browse getItemUrl = Some getItemResolved
   /\ pathValidateRes getItemResolved = true
   /\ specPathItem getItemResolved = Some getItemPath
   /\ getItemPath !! Js.toLowerCase "GET" = Some getItem
   /\ OpenAPIV3.requestBody getItem = None)
  /\ (forall errs,
        validateUrlPathParam Ajv.compile None (parameters getItem) errs = (inl tt, errs)
        /\ validateUrlQueryParam Ajv.compile None (parameters getItem) errs
           = (inl tt, errs)
        /\ validateUrlHeaders Ajv.compile None (parameters getItem) errs = (inl tt, errs))
  /\ validateRequestParameters Ajv.compile getItemUrl browse "GET"
       {| urlVariables := None; urlQueryParams := None; headers := None;
          requestBody := None |}
     = Some (Returned {| isValid := true; errors := [] |}).
Proof.
  assert (H1 : validatePath browse getItemUrl = Some getItemResolved)
    by (vm_compute; reflexivity).
  assert (H2 : getItemPath !! Js.toLowerCase "GET" = Some getItem)
    by (vm_compute; reflexivity).
  split; [by split_and! |].
  exact (absent_bucket_not_checked Ajv.compile getItemUrl browse "GET"
           getItemResolved getItemPath getItem None H1 eq_refl eq_refl H2 eq_refl).
Defined.




(** The base-path gate tests the end-anchored expression of the base path
    itself: a request path that goes on after the declared base path is
    refused before any template is tried, and only a path that ends with
    the base path is let through. *)
Example base_path_gate_refuses_longer_paths :
  basePathOf notification = "/commerce/notification/v1"
  /\ validatePath notification
       "https://api.ebay.com/commerce/notification/v1/topic/MARKETPLACE_ACCOUNT_DELETION"
     = Some (notFound "/commerce/notification/v1/topic/MARKETPLACE_ACCOUNT_DELETION")
  /\ validatePath notification "https://api.ebay.com/commerce/notification/v1"
     = Some (notFound "/commerce/notification/v1")
  /\ (forall method input,
        exists r,
          validateRequestParameters Ajv.compile
            "https://api.ebay.com/commerce/notification/v1/topic/MARKETPLACE_ACCOUNT_DELETION"
            notification method input = Some (Returned r)
          /\ isValid r = false).
Proof.
  split_and!; [vm_compute; reflexivity ..|].
  intros method input. eexists. split; [vm_compute; reflexivity | reflexivity].
Qed.


(** C5, as stated, fails: a string without a scheme is no URL for the
    parser, so the textual fallback replaces the first occurrence of the
    other environment's domain; a second occurrence is replaced by a second
    application. *)
Lemma replaceDomain_twice_differs_in_fallback :
  replaceDomainNameByEnvironment PRODUCTION
    (replaceDomainNameByEnvironment PRODUCTION
       "api.sandbox.ebay.com/sell/feed/v1/task?look_back=api.sandbox.ebay.com")
  <> replaceDomainNameByEnvironment PRODUCTION
       "api.sandbox.ebay.com/sell/feed/v1/task?look_back=api.sandbox.ebay.com".
Proof. vm_compute. discriminate. Qed.

Lemma replaceDomain_idempotent_on_parsed_urls_witness :
  URL_new "https://api.ebay.com/sell/inventory/v1/offer?limit=10"
  = Some {| SimpleUrl.scheme := "https"; SimpleUrl.hostname := "api.ebay.com";
            SimpleUrl.port := ""; SimpleUrl.rest := "/sell/inventory/v1/offer?limit=10" |}
  /\ (("api.ebay.com" = DOMAIN_NAME SANDBOX ->
       replaceDomainNameByEnvironment SANDBOX
         "https://api.ebay.com/sell/inventory/v1/offer?limit=10"
       = "https://api.ebay.com/sell/inventory/v1/offer?limit=10")
      /\ replaceDomainNameByEnvironment SANDBOX
           (replaceDomainNameByEnvironment SANDBOX
              "https://api.ebay.com/sell/inventory/v1/offer?limit=10")
         = replaceDomainNameByEnvironment SANDBOX
             "https://api.ebay.com/sell/inventory/v1/offer?limit=10").
Proof.
  split; [vm_compute; reflexivity |].
  exact (replaceDomain_idempotent_on_parsed_urls SANDBOX simpleUrl_laws
           "https://api.ebay.com/sell/inventory/v1/offer?limit=10"
           {| SimpleUrl.scheme := "https"; SimpleUrl.hostname := "api.ebay.com";
              SimpleUrl.port := "";
              SimpleUrl.rest := "/sell/inventory/v1/offer?limit=10" |}
           eq_refl).
Defined.



Lemma parseOpenApiDoc_executions_witness :
  let p := parseOpenApiDoc "Browse API" "getItem"
             "https://api.ebay.com/developer/mcp/v1/search/%s?operationId=%s" in
  let t := (run (unparsableWorld "<html>") p).1 in
  let o := (run (unparsableWorld "<html>") p).2 in
  exec p t o
  /\ o = Returned emptyDocument
  /\ parserCalls t = [CalledJsonParse; CalledYamlLoad]
  /\ exists fetched rest,
       t = Ev (AxiosGet (format "https://api.ebay.com/developer/mcp/v1/search/%s?operationId=%s"
                           ["Browse API"; "getItem"])) fetched :: rest
       /\ match fetched with
          | inr e => rest = [] /\ o = Threw e
          | inl docString =>
              exists json rest1,
                rest = Ev (JsonParse docString) json :: rest1
                /\ match json with
                   | inl doc => rest1 = [] /\ o = Returned doc
                   | inr _ =>
                       exists yaml rest2,
                         rest1 = Ev (YamlLoad docString) yaml :: rest2
                         /\ match yaml with
                            | inl doc => rest2 = [] /\ o = Returned doc
                            | inr _ =>
                                (exists a,
                                   rest2 = [Ev (ConsoleError
                                                  "failed to parse OpenAPI document !!!") a])
                                /\ o = Returned emptyDocument
                            end
                   end
          end.
Proof.
  intros p t o. split; [apply run_exec |].
  split; [vm_compute; reflexivity |]. split; [vm_compute; reflexivity |].
  exact (parseOpenApiDoc_executions "Browse API" "getItem"
           "https://api.ebay.com/developer/mcp/v1/search/%s?operationId=%s" t o
           (run_exec (unparsableWorld "<html>") p)).
Defined.

Lemma invokeApi_sends_only_validated_requests_witness :
  let t := (run (world browse) (handler invocation)).1 in
  let o := (run (world browse) (handler invocation)).2 in
  exec (handler invocation) t o
  /\ apiRequests t = []
  /\ o = Returned {| content := ["Request validation failed:";
                                 "Missing required path parameter: item_id" +:+ newline
                                 +:+ "Missing required path parameters: item_id" +:+ newline
                                 +:+ "Missing required header parameter: X-EBAY-C-MARKETPLACE-ID"];
                     isError := true |}
  /\ exists t1 loaded,
       exec (parseOpenApiDoc (arg_specTitle invocation) (arg_operationId invocation)
               "https://api.ebay.com/developer/mcp/v1/search/%s?operationId=%s") t1 loaded
       /\ t1 `prefix_of` t
       /\ (forall openApiDoc r,
             loaded = Returned openApiDoc ->
             requestValidation Ajv.compile SANDBOX "token" true invocation openApiDoc
             = Some (Returned r) ->
             isValid r = false ->
             t = t1
             /\ apiRequests t = []
             /\ o = Returned {| content := ["Request validation failed:";
                                            Js.join newline (errors r)];
                                isError := true |})
       /\ (apiRequests t <> [] ->
           exists openApiDoc r,
             loaded = Returned openApiDoc
             /\ requestValidation Ajv.compile SANDBOX "token" true invocation openApiDoc
                = Some (Returned r)
             /\ isValid r = true).
Proof.
  intros t o. split; [apply run_exec |].
  split; [vm_compute; reflexivity |]. split; [vm_compute; reflexivity |].
  exact (invokeApi_sends_only_validated_requests Ajv.compile SANDBOX "token"
           "https://api.ebay.com/developer/mcp/v1/search/%s?operationId=%s" true
           stringify (fun url _ => Some url)
           (parseError "Invalid regular expression")
           (parseError "Invalid regular expression")
           invocation t o (run_exec (world browse) (handler invocation))).
Defined.

End Checks.

(** ** The further properties on sample requests *)

Module MoreChecks.
Import Examples Samples.

Lemma validatePath_result_is_consistent_witness :
  validatePath browse getItemUrl = Some getItemResolved
  /\ (apiPath getItemResolved = parseApiPathFromUrl getItemUrl
      /\ (pathValidateRes getItemResolved = true ->
          specPath getItemResolved ∈ Js.keys (default [] (paths browse))
          /\ specPathItem getItemResolved
             = lookupPath (default [] (paths browse)) (specPath getItemResolved)
          /\ is_Some (specPathItem getItemResolved)
          /\ Routing.templateMatches (default [] (paths browse))
               (apiPath getItemResolved) (specPath getItemResolved) = true)
      /\ (pathValidateRes getItemResolved = false ->
          specPath getItemResolved = "" /\ specPathItem getItemResolved = None)).
Proof.
  assert (H : validatePath browse getItemUrl = Some getItemResolved)
    by (vm_compute; reflexivity).
  split; [exact H |].
  exact (ResolverFacts.validatePath_result_is_consistent browse getItemUrl
           getItemResolved H).
Defined.

Lemma literal_base_path_must_end_the_path_witness :
  (Js.isEmpty (basePathOf feeds) = false
   /\ Paths.literal (basePathOf feeds) = true
   /\ validatePath feeds "https://api.ebay.com/sell/feed/v1" = Some feedsResolved
   /\ pathValidateRes feedsResolved = true)
  /\ exists p, apiPath feedsResolved = p +:+ basePathOf feeds.
Proof.
  assert (H : validatePath feeds "https://api.ebay.com/sell/feed/v1" = Some feedsResolved)
    by (vm_compute; reflexivity).
  split; [by split_and! |].
  exact (ResolverFacts.literal_base_path_must_end_the_path feeds
           "https://api.ebay.com/sell/feed/v1" feedsResolved eq_refl eq_refl H eq_refl).
Defined.

Lemma query_and_header_checks_read_declared_names_only_witness :
  ((forall p, p ∈ paramsIn "query" (parameters getItem) ->
      ({[ "fieldgroups" := VStr "COMPACT" ]} : gmap string Value) !! name p
      = ({[ "fieldgroups" := VStr "COMPACT"; "offset" := VStr "x" ]}
           : gmap string Value) !! name p)
   /\ (forall p, p ∈ paramsIn "header" (parameters getItem) ->
         (∅ : gmap string Value) !! name p
         = ({[ "X-Trace" := VStr "1" ]} : gmap string Value) !! name p
         /\ (∅ : gmap string Value) !! Js.toLowerCase (name p)
            = ({[ "X-Trace" := VStr "1" ]} : gmap string Value)
                !! Js.toLowerCase (name p)))
  /\ validateUrlQueryParam Ajv.compile (Some {[ "fieldgroups" := VStr "COMPACT" ]})
       (parameters getItem) []
     = validateUrlQueryParam Ajv.compile
         (Some {[ "fieldgroups" := VStr "COMPACT"; "offset" := VStr "x" ]})
         (parameters getItem) []
  /\ validateUrlHeaders Ajv.compile (Some ∅) (parameters getItem) []
     = validateUrlHeaders Ajv.compile (Some {[ "X-Trace" := VStr "1" ]})
         (parameters getItem) [].
Proof.
  assert (Hq : forall p, p ∈ paramsIn "query" (parameters getItem) ->
             ({[ "fieldgroups" := VStr "COMPACT" ]} : gmap string Value) !! name p
             = ({[ "fieldgroups" := VStr "COMPACT"; "offset" := VStr "x" ]}
                  : gmap string Value) !! name p).
  { intros p ->%list_elem_of_singleton. vm_compute. reflexivity. }
  assert (Hh : forall p, p ∈ paramsIn "header" (parameters getItem) ->
             (∅ : gmap string Value) !! name p
             = ({[ "X-Trace" := VStr "1" ]} : gmap string Value) !! name p
             /\ (∅ : gmap string Value) !! Js.toLowerCase (name p)
                = ({[ "X-Trace" := VStr "1" ]} : gmap string Value)
                    !! Js.toLowerCase (name p)).
  { intros p ->%list_elem_of_singleton. vm_compute. by split. }
  split; [by split |].
  exact (query_and_header_checks_read_declared_names_only Ajv.compile _ _ _ _
           (parameters getItem) [] Hq Hh).
Defined.

Lemma unknown_path_variables_reported_witness :
  validateUrlPathParam Ajv.compile (Some [("itemId", VStr "v1|123|0")])
    (parameters getItem) []
  = (inl tt, ["Missing required path parameter: item_id";
              "Unknown path parameters: itemId";
              "Missing required path parameters: item_id"])
  /\ validateUrlPathParam Ajv.compile
       (Some [("filter", VStr "price"); ("itemId", VStr "v1|123|0")])
       (Some [inr (param "filter" "path" false
                     (SchemaRef "#/components/schemas/FilterField"))]) []
     = (inr (Ajv.missingRef "#/components/schemas/FilterField"), [])
  /\ let declared := name <$> paramsIn "path" (parameters getItem) in
     let extraParams :=
       List.filter (fun key => negb (Js.includesStr declared key))
                   (Js.keys ([("itemId", VStr "v1|123|0")] : Js.Obj)) in
     let out :=
       validateUrlPathParam Ajv.compile (Some [("itemId", VStr "v1|123|0")])
         (parameters getItem) [] in
     ("Unknown path parameters: " +:+ Js.join ", " extraParams ∈ out.2
      <-> out.1 = inl tt /\ extraParams <> [])
     /\ (parametersCompile Ajv.compile (parameters getItem) = true -> out.1 = inl tt).
Proof.
  split; [vm_compute; reflexivity |]. split; [vm_compute; reflexivity |].
  exact (unknown_path_variables_reported Ajv.compile [("itemId", VStr "v1|123|0")]
           (parameters getItem)).
Defined.

Lemma absent_required_path_parameter_reported_twice_witness :
  (inr item_id ∈ default [] (parameters getItem)
   /\ in_ item_id = "path"
   /\ required item_id = Some true
   /\ ownName (name item_id) = true
   /\ name item_id ∉ Js.keys ([("itemId", VStr "v1|123|0")] : Js.Obj))
  /\ validateUrlPathParam Ajv.compile (Some [("itemId", VStr "v1|123|0")])
       (parameters getItem) []
     = (inl tt, ["Missing required path parameter: item_id";
                 "Unknown path parameters: itemId";
                 "Missing required path parameters: item_id"])
  /\ let missingPathParams :=
       List.filter
         (fun param =>
            negb (Js.includesStr (Js.keys ([("itemId", VStr "v1|123|0")] : Js.Obj)) param))
         (name <$> List.filter (fun param => isTrue (required param))
                     (paramsIn "path" (parameters getItem))) in
     let out :=
       validateUrlPathParam Ajv.compile (Some [("itemId", VStr "v1|123|0")])
         (parameters getItem) [] in
     validateUrlPathParam Ajv.compile (Some [("itemId", VStr "v1|123|0")])
       (parameters getItem) ["API path"]
     = (out.1, ["API path"] ++ out.2)
     /\ name item_id ∈ missingPathParams
     /\ (out.1 = inl tt ->
         "Missing required path parameter: " +:+ name item_id ∈ out.2
         /\ last out.2
            = Some ("Missing required path parameters: "
                      +:+ Js.join ", " missingPathParams))
     /\ (parametersCompile Ajv.compile (parameters getItem) = true -> out.1 = inl tt).
Proof.
  assert (H1 : inr item_id ∈ default [] (parameters getItem)) by apply list_elem_of_here.
  assert (H2 : name item_id ∉ Js.keys ([("itemId", VStr "v1|123|0")] : Js.Obj)).
  { intros H%list_elem_of_singleton. discriminate H. }
  split; [by split_and! |]. split; [vm_compute; reflexivity |].
  exact (absent_required_path_parameter_reported_twice Ajv.compile
           [("itemId", VStr "v1|123|0")] (parameters getItem) ["API path"] item_id
           H1 eq_refl eq_refl eq_refl H2).
Defined.

Lemma header_read_under_lower_case_or_declared_name_only_witness :
  (inr marketplace ∈ default [] (parameters getItem)
   /\ in_ marketplace = "header"
   /\ required marketplace = Some true
   /\ ownName (Js.toLowerCase (name marketplace)) = true
   /\ ownName (name marketplace) = true
   /\ ({[ "X-Ebay-C-Marketplace-Id" := VStr "EBAY_US" ]} : gmap string Value)
        !! Js.toLowerCase (name marketplace) = None
   /\ ({[ "X-Ebay-C-Marketplace-Id" := VStr "EBAY_US" ]} : gmap string Value)
        !! name marketplace = None)
  /\ Js.toLowerCase "X-Ebay-C-Marketplace-Id" = Js.toLowerCase (name marketplace)
  /\ validateUrlHeaders Ajv.compile
       (Some {[ "X-Ebay-C-Marketplace-Id" := VStr "EBAY_US" ]}) (parameters getItem) []
     = (inl tt, ["Missing required header parameter: X-EBAY-C-MARKETPLACE-ID"])
  /\ let out :=
       validateUrlHeaders Ajv.compile
         (Some {[ "X-Ebay-C-Marketplace-Id" := VStr "EBAY_US" ]})
         (parameters getItem) [] in
     validateUrlHeaders Ajv.compile
       (Some {[ "X-Ebay-C-Marketplace-Id" := VStr "EBAY_US" ]}) (parameters getItem) []
     = (out.1, [] ++ out.2)
     /\ (out.1 = inl tt ->
         "Missing required header parameter: " +:+ name marketplace ∈ out.2)
     /\ (parametersCompile Ajv.compile (parameters getItem) = true -> out.1 = inl tt).
Proof.
  assert (H1 : inr marketplace ∈ default [] (parameters getItem))
    by (do 2 apply list_elem_of_further; apply list_elem_of_here).
  assert (H2 : ({[ "X-Ebay-C-Marketplace-Id" := VStr "EBAY_US" ]} : gmap string Value)
                 !! Js.toLowerCase (name marketplace) = None)
    by (vm_compute; reflexivity).
  assert (H3 : ({[ "X-Ebay-C-Marketplace-Id" := VStr "EBAY_US" ]} : gmap string Value)
                 !! name marketplace = None) by (vm_compute; reflexivity).
  split; [by split_and! |]. split; [vm_compute; reflexivity |].
  split; [vm_compute; reflexivity |].
  exact (header_read_under_lower_case_or_declared_name_only Ajv.compile
           {[ "X-Ebay-C-Marketplace-Id" := VStr "EBAY_US" ]} (parameters getItem) []
           marketplace H1 eq_refl eq_refl eq_refl eq_refl H2 H3).
Defined.


Lemma method_is_matched_in_lower_case_witness :
  (validatePath browse getItemUrl = Some getItemResolved
   /\ pathValidateRes getItemResolved = true
   /\ specPathItem getItemResolved = Some getItemPath
   /\ Js.toLowerCase "GET" = Js.toLowerCase "Get"
   /\ ownName (Js.toLowerCase "GET") = true)
  /\ getItemPath !! Js.toLowerCase "GET" = Some getItem
  /\ match getItemPath !! Js.toLowerCase "GET" with
     | Some _ =>
         validateRequestParameters Ajv.compile getItemUrl browse "GET"
           (input (Some []) None None)
         = validateRequestParameters Ajv.compile getItemUrl browse "Get"
             (input (Some []) None None)
     | None =>
         validateRequestParameters Ajv.compile getItemUrl browse "GET"
           (input (Some []) None None)
         = Some (Returned
                   {| isValid := false;
                      errors := ["Method " +:+ "GET" +:+ " not found for path "
                                   +:+ specPath getItemResolved
                                   +:+ " in OpenAPI specification"] |})
     end.
Proof.
  assert (H : validatePath browse getItemUrl = Some getItemResolved)
    by (vm_compute; reflexivity).
  split; [by split_and! |]. split; [vm_compute; reflexivity |].
  exact (method_is_matched_in_lower_case Ajv.compile getItemUrl browse "GET" "Get"
           (input (Some []) None None) getItemResolved getItemPath
           H eq_refl eq_refl eq_refl eq_refl).
Defined.

Lemma resolvePath_builds_an_instance_of_the_template_witness :
  Forall2 (Paths.provides {[ "item_id" := VStr "v1|123|0" ]})
          (Paths.holeNames (Template.tokens "/item/{item_id}")) ["v1|123|0"]
  /\ Http.resolvePath "/item/{item_id}" (Some {[ "item_id" := VStr "v1|123|0" ]})
     = Ret "/item/v1|123|0"
  /\ Http.resolvePath "/item/{item_id}" (Some {[ "item_id" := VStr "v1|123|0" ]})
     = Ret (Routing.instantiate "/item/{item_id}" ["v1|123|0"])
  /\ (Routing.plain "/item/{item_id}" = true ->
      Forall (fun seg => Routing.isSegment seg = true) ["v1|123|0"] ->
      forall re prefix,
        Template.toRegExp "/item/{item_id}" = Some re ->
        RegExp.test re (prefix +:+ Routing.instantiate "/item/{item_id}" ["v1|123|0"])
        = true).
Proof.
  assert (H : Forall2 (Paths.provides {[ "item_id" := VStr "v1|123|0" ]})
                (Paths.holeNames (Template.tokens "/item/{item_id}")) ["v1|123|0"]).
  { repeat constructor. exists (VStr "v1|123|0"). by split_and!. }
  split; [exact H |]. split; [vm_compute; reflexivity |].
  exact (ResolvePathFacts.resolvePath_builds_an_instance_of_the_template
           "/item/{item_id}" {[ "item_id" := VStr "v1|123|0" ]} ["v1|123|0"] H).
Defined.

Lemma resolvePath_throws_on_the_first_missing_variable_witness :
  (Paths.holeNames (Template.tokens "/order/{orderId}/item/{lineItemId}")
   = ["orderId"] ++ "lineItemId" :: []
   /\ Forall (fun k => exists seg, Paths.provides {[ "orderId" := VNum (Decimal 42 0) ]} k seg)
             ["orderId"]
   /\ ownName "lineItemId" = true
   /\ Js.lookup {[ "orderId" := VNum (Decimal 42 0) ]} "lineItemId" = VUndefined)
  /\ Http.resolvePath "/order/{orderId}/item/{lineItemId}" None
     = Ret "/order/{orderId}/item/{lineItemId}"
  /\ Http.resolvePath "/order/{orderId}/item/{lineItemId}"
       (Some {[ "orderId" := VNum (Decimal 42 0) ]})
     = Throw {| message := "Missing path variable: " +:+ "lineItemId";
                responseData := None |}.
Proof.
  assert (H : Forall (fun k => exists seg,
                        Paths.provides {[ "orderId" := VNum (Decimal 42 0) ]} k seg)
                ["orderId"]).
  { repeat constructor. exists "42", (VNum (Decimal 42 0)). by split_and!. }
  split; [by split_and! |].
  exact (ResolvePathFacts.resolvePath_throws_on_the_first_missing_variable
           "/order/{orderId}/item/{lineItemId}" {[ "orderId" := VNum (Decimal 42 0) ]}
           ["orderId"] "lineItemId" [] eq_refl H eq_refl eq_refl).
Defined.

Lemma final_url_keeps_brace_placeholders_witness :
  let u := {| SimpleUrl.scheme := "https"; SimpleUrl.hostname := "api.ebay.com";
              SimpleUrl.port := ""; SimpleUrl.rest := "/buy/browse/v1/item/{item_id}" |} in
  let t := (run (world browse) (production validInvocation)).1 in
  (Js.includes (arg_url validInvocation) "%7B" = false
   /\ URL_new (arg_url validInvocation) = Some u
   /\ URL_hostname u = DOMAIN_NAME PRODUCTION
   /\ Forall (fun entry => is_Some (RegExp.RegExp_new ("%7B" +:+ entry.1 +:+ "%7D")))
              (default [] (arg_urlVariables validInvocation)))
  /\ (req_url <$> requestsOf t) = ["https://api.ebay.com/buy/browse/v1/item/{item_id}"]
  /\ (forall urlVariables : Js.Obj,
        Forall (fun entry =>
                  is_Some (RegExp.RegExp_new ("%7B" +:+ entry.1 +:+ "%7D"))
                  /\ is_Some (Builtin.ToString entry.2)) urlVariables ->
        Http.buildFinalUrl (arg_url validInvocation) (Some urlVariables)
        = Some (arg_url validInvocation))
  /\ (forall t o e,
        exec (production validInvocation) t o ->
        e ∈ apiRequests t ->
        exists answer,
          e = Ev (AxiosRequest
                    (requestConfig validInvocation (arg_url validInvocation)
                       (buildHeadersFromInput PRODUCTION "token"
                          (arg_headers validInvocation) true))) answer).
Proof.
  intros u t.
  assert (H : Forall (fun entry =>
                        is_Some (RegExp.RegExp_new ("%7B" +:+ entry.1 +:+ "%7D")))
                (default [] (arg_urlVariables validInvocation))).
  { repeat constructor. vm_compute. by eexists. }
  split; [by split_and! |]. split; [vm_compute; reflexivity |].
  exact (FinalUrlFacts.final_url_keeps_brace_placeholders Ajv.compile PRODUCTION "token"
           "https://api.ebay.com/developer/mcp/v1/search/%s?operationId=%s" true
           stringify (parseError "Invalid regular expression")
           (parseError "Invalid regular expression")
           validInvocation u eq_refl eq_refl eq_refl H).
Defined.

Lemma buildFinalUrl_substitutes_the_encoded_placeholder_witness :
  (Paths.literal "item_id" = true
   /\ Js.allChars (fun c => negb (Ascii.eqb c "%"))
                  "https://api.sandbox.ebay.com/buy/browse/v1/item/" = true
   /\ Js.allChars (fun c => negb (Ascii.eqb c "%")) "?fieldgroups=COMPACT" = true
   /\ Builtin.ToString (VStr "v1|123/4|0") = Some "v1|123/4|0")
  /\ Builtin.encodeURIComponent "v1|123/4|0" = "v1%7C123%2F4%7C0"
  /\ Http.buildFinalUrl
       ("https://api.sandbox.ebay.com/buy/browse/v1/item/"
          +:+ "%7B" +:+ "item_id" +:+ "%7D" +:+ "?fieldgroups=COMPACT")
       (Some [("item_id", VStr "v1|123/4|0")])
     = Some ("https://api.sandbox.ebay.com/buy/browse/v1/item/"
               +:+ Builtin.encodeURIComponent "v1|123/4|0" +:+ "?fieldgroups=COMPACT")
  /\ Js.allChars (fun c => Builtin.isUnreserved c || Ascii.eqb c "%")
                 (Builtin.encodeURIComponent "v1|123/4|0") = true.
Proof.
  split; [by split_and! |]. split; [vm_compute; reflexivity |].
  exact (FinalUrlFacts.buildFinalUrl_substitutes_the_encoded_placeholder
           "https://api.sandbox.ebay.com/buy/browse/v1/item/" "?fieldgroups=COMPACT"
           "item_id" (VStr "v1|123/4|0") "v1|123/4|0" eq_refl eq_refl eq_refl eq_refl).
Defined.

Lemma prepareRequestData_reads_declared_arguments_only_witness :
  (Js.get (("limit", VNum (Decimal 5 0)) :: toolInput getItemArguments) "properties"
   = VObj getItemArguments
   /\ Js.get (toolInput [("item_id", VStr "v1|123|0");
                         ("fieldgroups", VStr "COMPACT");
                         ("X-EBAY-C-MARKETPLACE-ID", VStr "EBAY_US")]) "properties"
      = VObj (List.filter
                (fun entry =>
                   String.eqb entry.1 "requestBody"
                   || bool_decide (is_Some (Http.findParameter getItem entry.1)))
                getItemArguments))
  /\ Http.prepareRequestData SANDBOX "token"
       (toolInput [("item_id", VStr "v1|123|0");
                   ("fieldgroups", VStr "COMPACT");
                   ("X-EBAY-C-MARKETPLACE-ID", VStr "EBAY_US")])
       getItem "/item/{item_id}"
     = Http.prepareRequestData SANDBOX "token"
         (("limit", VNum (Decimal 5 0)) :: toolInput getItemArguments)
         getItem "/item/{item_id}".
Proof.
  assert (H : Js.get (toolInput [("item_id", VStr "v1|123|0");
                                 ("fieldgroups", VStr "COMPACT");
                                 ("X-EBAY-C-MARKETPLACE-ID", VStr "EBAY_US")])
                     "properties"
              = VObj (List.filter
                        (fun entry =>
                           String.eqb entry.1 "requestBody"
                           || bool_decide (is_Some (Http.findParameter getItem entry.1)))
                        getItemArguments)) by (vm_compute; reflexivity).
  split; [by split |].
  exact (PrepareFacts.prepareRequestData_reads_declared_arguments_only SANDBOX "token"
           getItem (("limit", VNum (Decimal 5 0)) :: toolInput getItemArguments)
           (toolInput [("item_id", VStr "v1|123|0");
                       ("fieldgroups", VStr "COMPACT");
                       ("X-EBAY-C-MARKETPLACE-ID", VStr "EBAY_US")])
           getItemArguments "/item/{item_id}" eq_refl H).
Defined.

Lemma prepareRequestData_without_path_argument_keeps_the_template_witness :
  ((forall key value p,
      (key, value)
        ∈ (if Js.truthy (Js.get (toolInput [("fieldgroups", VStr "COMPACT")]) "properties")
           then Builtin.entries
                  (Js.get (toolInput [("fieldgroups", VStr "COMPACT")]) "properties")
           else []) ->
      String.eqb key "requestBody" = false ->
      Http.findParameter getItem key = Some p -> in_ p <> "path")
   /\ (forall key value,
         (key, value)
           ∈ (if Js.truthy (Js.get (toolInput [("fieldgroups", VStr "COMPACT")]) "properties")
              then Builtin.entries
                     (Js.get (toolInput [("fieldgroups", VStr "COMPACT")]) "properties")
              else []) ->
         is_Some (Builtin.ToString value)))
  /\ exists d,
       Http.prepareRequestData SANDBOX "token"
         (toolInput [("fieldgroups", VStr "COMPACT")]) getItem "/item/{item_id}" = Ret d
       /\ RequestData.resolvedPath d = "/item/{item_id}".
Proof.
  assert (H1 : forall key value p,
             (key, value)
               ∈ (if Js.truthy (Js.get (toolInput [("fieldgroups", VStr "COMPACT")])
                                       "properties")
                  then Builtin.entries
                         (Js.get (toolInput [("fieldgroups", VStr "COMPACT")]) "properties")
                  else []) ->
             String.eqb key "requestBody" = false ->
             Http.findParameter getItem key = Some p -> in_ p <> "path").
  { intros key value p [= -> ->]%list_elem_of_singleton _ [= <-]. discriminate. }
  assert (H2 : forall key value,
             (key, value)
               ∈ (if Js.truthy (Js.get (toolInput [("fieldgroups", VStr "COMPACT")])
                                       "properties")
                  then Builtin.entries
                         (Js.get (toolInput [("fieldgroups", VStr "COMPACT")]) "properties")
                  else []) ->
             is_Some (Builtin.ToString value)).
  { intros key value [= -> ->]%list_elem_of_singleton. by eexists. }
  split; [by split |].
  exact (PrepareFacts.prepareRequestData_without_path_argument_keeps_the_template
           SANDBOX "token" getItem (toolInput [("fieldgroups", VStr "COMPACT")])
           "/item/{item_id}" H1 H2).
Defined.

Lemma prepareRequestData_headers_witness :
  Http.prepareRequestData SANDBOX "token" (toolInput getItemArguments) getItem
    "/item/{item_id}" = Ret preparedData
  /\ RequestData.resolvedPath preparedData = "/item/v1|123|0"
  /\ RequestData.headers preparedData !! "X-EBAY-C-MARKETPLACE-ID" = Some (VStr "EBAY_US")
  /\ RequestData.headers preparedData !! "Host" = Some (VStr "api.ebay.com")
  /\ RequestData.headers preparedData !! "User-Agent" = Some (VStr "EBAY-API-MCP-Tool/1.0")
  /\ RequestData.headers preparedData !! "Authorization"
     = Some (VStr ("Bearer " +:+ "token"))
  /\ (NoDup (if Js.truthy (Js.get (toolInput getItemArguments) "properties")
             then Builtin.entries (Js.get (toolInput getItemArguments) "properties")
             else []).*1 ->
      forall key value p text,
        (key, value)
          ∈ (if Js.truthy (Js.get (toolInput getItemArguments) "properties")
             then Builtin.entries (Js.get (toolInput getItemArguments) "properties")
             else []) ->
        Http.findParameter getItem key = Some p ->
        in_ p = "header" ->
        Builtin.ToString value = Some text ->
        key ∉ ["Host"; "User-Agent"; "Authorization"; "Content-Type";
               "requestBody"; "__proto__"] ->
        RequestData.headers preparedData !! key = Some (VStr text)).
Proof.
  assert (H : Http.prepareRequestData SANDBOX "token" (toolInput getItemArguments)
                getItem "/item/{item_id}" = Ret preparedData)
    by (vm_compute; reflexivity).
  split; [exact H |]. split; [vm_compute; reflexivity |].
  split; [vm_compute; reflexivity |].
  exact (PrepareFacts.prepareRequestData_headers SANDBOX "token" getItem
           (toolInput getItemArguments) "/item/{item_id}" preparedData H).
Defined.

Lemma base_url_substitutes_the_server_variable_witness :
  (Js.allChars (fun c => negb (Ascii.eqb c "{")) "https://api.ebay.com" = true
   /\ Js.allChars (fun c => negb (Ascii.eqb c "$")) "/buy/browse/v1" = true)
  /\ Http.buildBaseUrlFromOpenApi SANDBOX
       {| servers := Some [{| url := "https://api.ebay.com{basePath}";
                              variables := Some [("basePath",
                                                  {| default_ := "/buy/browse/v1" |})] |}];
          paths := None |}
     = "https://api.sandbox.ebay.com/buy/browse/v1"
  /\ Http.buildBaseUrlFromOpenApi SANDBOX
       {| servers := Some ({| url := "https://api.ebay.com"
                                     +:+ ("{" +:+ "basePath" +:+ "}") +:+ "";
                              variables := Some [("basePath",
                                                  {| default_ := "/buy/browse/v1" |})] |}
                             :: []);
          paths := None |}
     = replaceDomainNameByEnvironment SANDBOX
         ("https://api.ebay.com" +:+ "/buy/browse/v1" +:+ "")
  /\ (URL_new "" = None ->
      Http.buildBaseUrlFromOpenApi SANDBOX {| servers := None; paths := None |} = ""
      /\ Http.buildBaseUrlFromOpenApi SANDBOX {| servers := Some []; paths := None |}
         = "").
Proof.
  split; [by split |]. split; [vm_compute; reflexivity |].
  exact (BaseUrlFacts.base_url_substitutes_the_server_variable SANDBOX
           "https://api.ebay.com" "basePath" "" "/buy/browse/v1" [] None
           eq_refl eq_refl).
Defined.

Lemma content_type_defaults_to_json_witness :
  match Some ({[ "Content-Type" := [""] ]} : gmap string (list string))
          ≫= (.!! "Content-Type") with
  | None | Some [] | Some ("" :: _) => True
  | Some _ => False
  end
  /\ buildHeadersFromInput PRODUCTION "token" (Some {[ "Content-Type" := [""] ]}) true
       !! "Content-Type"
     = Some (VStr "application/json").
Proof.
  assert (H : match Some ({[ "Content-Type" := [""] ]} : gmap string (list string))
                      ≫= (.!! "Content-Type") with
              | None | Some [] | Some ("" :: _) => True
              | Some _ => False
              end) by (vm_compute; exact I).
  split; [exact H |].
  exact (BaseUrlFacts.content_type_defaults_to_json PRODUCTION "token"
           (Some {[ "Content-Type" := [""] ]}) true H).
Defined.

Lemma buildOperationSchema_entries_are_stripped_witness :
  Forall (fun param => Js.includesStr (Js.keys param) "$ref" = false ->
                       exists n, Js.get param "name" = VStr n)
         (default [] (OpenApiHelper.parameters rawOperation))
  /\ (OpenApiHelper.buildOperationSchema rawOperation ≫= (.!! "fieldgroups"))
     = Some (VObj [("name", VStr "fieldgroups");
                   ("schema", VObj [("type", VStr "array");
                                    ("items", VObj [("type", VStr "string")])])])
  /\ (OpenApiHelper.buildOperationSchema rawOperation ≫= (.!! "requestBody"))
     = Some (VObj [("type", VStr "object");
                   ("properties", VObj [("sku", VObj [("type", VStr "string")])])])
  /\ exists properties,
       OpenApiHelper.buildOperationSchema rawOperation = Some properties
       /\ (forall key schema,
             properties !! key = Some schema ->
             Schemas.free schema = true
             /\ Builtin.member schema "in" = VUndefined
             /\ Builtin.member schema "required" = VUndefined)
       /\ (forall param n,
             param ∈ default [] (OpenApiHelper.parameters rawOperation) ->
             Js.includesStr (Js.keys param) "$ref" = false ->
             Js.get param "name" = VStr n -> n <> "__proto__" ->
             is_Some (properties !! n))
       /\ (forall key,
             is_Some (properties !! key) ->
             key = "requestBody"
             \/ exists param,
                  param ∈ default [] (OpenApiHelper.parameters rawOperation)
                  /\ Js.includesStr (Js.keys param) "$ref" = false
                  /\ Js.get param "name" = VStr key)
       /\ (forall body,
             OpenApiHelper.requestBody rawOperation = Some body ->
             let schema :=
               OpenApiHelper.optionalMember
                 (OpenApiHelper.optionalMember (Js.get body "content") "application/json")
                 "schema" in
             Js.includesStr (Js.keys body) "content" = true ->
             Js.truthy schema = true ->
             properties !! "requestBody" = Some (OpenApiHelper.readSchema2Map schema)).
Proof.
  assert (H : Forall (fun param => Js.includesStr (Js.keys param) "$ref" = false ->
                                   exists n, Js.get param "name" = VStr n)
                (default [] (OpenApiHelper.parameters rawOperation))).
  { repeat constructor; intros Href; try discriminate Href; by eexists. }
  split; [exact H |]. split; [vm_compute; reflexivity |].
  split; [vm_compute; reflexivity |].
  exact (SchemaFacts.buildOperationSchema_entries_are_stripped rawOperation H).
Defined.

Lemma specPaths_are_trimmed_lines_witness :
  "https://developer.ebay.com/browse.json"
    ∈ OpenApiHelper.specPaths (Js.join (String "010" "") configuration)
  /\ OpenApiHelper.specPaths (Js.join (String "010" "") configuration)
     = ["https://developer.ebay.com/browse.json"]
  /\ ((exists line,
         line ∈ Builtin.splitLines (Js.join (String "010" "") configuration)
         /\ "https://developer.ebay.com/browse.json" = Js.trim line)
      /\ "https://developer.ebay.com/browse.json" <> ""
      /\ Builtin.startsWith "https://developer.ebay.com/browse.json" "#" = false
      /\ Js.trim "https://developer.ebay.com/browse.json"
         = "https://developer.ebay.com/browse.json").
Proof.
  assert (E : OpenApiHelper.specPaths (Js.join (String "010" "") configuration)
              = ["https://developer.ebay.com/browse.json"]) by (vm_compute; reflexivity).
  assert (H : "https://developer.ebay.com/browse.json"
                ∈ OpenApiHelper.specPaths (Js.join (String "010" "") configuration)).
  { rewrite E. apply list_elem_of_here. }
  split; [exact H |]. split; [exact E |].
  exact (LoaderFacts.specPaths_are_trimmed_lines
           (Js.join (String "010" "") configuration)
           "https://developer.ebay.com/browse.json" H).
Defined.

Lemma configuration_file_line_ends_witness :
  (configuration <> []
   /\ Forall (fun line => Js.allChars (fun c => negb (Js.isLineTerminator c)) line = true)
             configuration)
  /\ Builtin.splitLines (Js.join (String "013" (String "010" "")) configuration)
     = configuration
  /\ Builtin.splitLines (Js.join (String "010" "") configuration) = configuration
  /\ OpenApiHelper.specPaths (Js.join (String "013" (String "010" "")) configuration)
     = OpenApiHelper.specPaths (Js.join (String "010" "") configuration).
Proof.
  assert (H1 : configuration <> []) by discriminate.
  assert (H2 : Forall (fun line =>
                         Js.allChars (fun c => negb (Js.isLineTerminator c)) line = true)
                 configuration) by (repeat constructor).
  split; [by split |].
  exact (LoaderFacts.configuration_file_line_ends configuration H1 H2).
Defined.

Lemma specification_url_takes_title_and_id_as_given_witness :
  (Js.allChars (fun c => negb (Ascii.eqb c "%"))
               "https://api.ebay.com/developer/mcp/v1/search/" = true
   /\ Js.allChars (fun c => negb (Ascii.eqb c "%")) "?operationId=" = true
   /\ Js.allChars (fun c => negb (Ascii.eqb c "%")) "" = true)
  /\ format "https://api.ebay.com/developer/mcp/v1/search/%s?operationId=%s"
            ["Browse API?x=1#"; "get Item"]
     = "https://api.ebay.com/developer/mcp/v1/search/Browse API?x=1#?operationId=get Item"
  /\ format ("https://api.ebay.com/developer/mcp/v1/search/"
               +:+ "%s" +:+ "?operationId=" +:+ "%s" +:+ "")
            ["Browse API?x=1#"; "get Item"]
     = "https://api.ebay.com/developer/mcp/v1/search/"
         +:+ "Browse API?x=1#" +:+ "?operationId=" +:+ "get Item" +:+ ""
  /\ forall t o,
       exec (parseOpenApiDoc "Browse API?x=1#" "get Item"
               ("https://api.ebay.com/developer/mcp/v1/search/"
                  +:+ "%s" +:+ "?operationId=" +:+ "%s" +:+ "")) t o ->
       exists answer rest,
         t = Ev (AxiosGet ("https://api.ebay.com/developer/mcp/v1/search/"
                             +:+ "Browse API?x=1#" +:+ "?operationId="
                             +:+ "get Item" +:+ "")) answer :: rest.
Proof.
  split; [by split_and! |]. split; [vm_compute; reflexivity |].
  exact (ServiceUrlFacts.specification_url_takes_title_and_id_as_given
           "https://api.ebay.com/developer/mcp/v1/search/" "?operationId=" ""
           "Browse API?x=1#" "get Item" eq_refl eq_refl eq_refl).
Defined.

Lemma query_url_encodes_the_prompt_witness :
  (Js.allChars (fun c => negb (Ascii.eqb c "%"))
               "https://api.ebay.com/developer/mcp/v1/search?query=" = true
   /\ Js.allChars (fun c => negb (Ascii.eqb c "%")) "" = true)
  /\ Service.queryUrl "https://api.ebay.com/developer/mcp/v1/search?query=%s"
       "price & shipping?"
     = "https://api.ebay.com/developer/mcp/v1/search?query=price%20%26%20shipping%3F"
  /\ Service.queryUrl
       ("https://api.ebay.com/developer/mcp/v1/search?query=" +:+ "%s" +:+ "")
       "price & shipping?"
     = "https://api.ebay.com/developer/mcp/v1/search?query="
         +:+ Builtin.encodeURIComponent "price & shipping?" +:+ ""
  /\ Js.allChars (fun c => Builtin.isUnreserved c || Ascii.eqb c "%")
                 (Builtin.encodeURIComponent "price & shipping?") = true.
Proof.
  split; [by split |]. split; [vm_compute; reflexivity |].
  exact (ServiceUrlFacts.query_url_encodes_the_prompt
           "https://api.ebay.com/developer/mcp/v1/search?query=" ""
           "price & shipping?" eq_refl eq_refl).
Defined.

Lemma invokeApi_always_returns_witness :
  let t := (run (world browse) (handler validInvocation)).1 in
  let o := (run (world browse) (handler validInvocation)).2 in
  exec (handler validInvocation) t o
  /\ o = Returned {| content := ["{}"]; isError := false |}
  /\ length (apiRequests t) = 1
  /\ (exists result, o = Returned result)
  /\ (apiRequests t = []
      \/ exists before request, t = before ++ [request] /\ apiRequests t = [request]).
Proof.
  intros t o. split; [apply run_exec |].
  split; [vm_compute; reflexivity |]. split; [vm_compute; reflexivity |].
  exact (invokeApi_always_returns Ajv.compile SANDBOX "token"
           "https://api.ebay.com/developer/mcp/v1/search/%s?operationId=%s" true
           stringify (fun url _ => Some url)
           (parseError "Invalid regular expression")
           (parseError "Invalid regular expression")
           validInvocation t o (run_exec (world browse) (handler validInvocation))).
Defined.

Lemma unparsable_specification_rejects_the_request_witness :
  let t := (run unreadable (handler validInvocation)).1 in
  let o := (run unreadable (handler validInvocation)).2 in
  (exec (handler validInvocation) t o /\ existsb yamlLoadThrew t = true)
  /\ apiRequests t = []
  /\ o = Returned
           {| content :=
                ["Request validation failed:";
                 "API path "
                   +:+ parseApiPathFromUrl
                         (replaceDomainNameByEnvironment SANDBOX (arg_url validInvocation))
                   +:+ " is not valid or not found in OpenAPI specification"];
              isError := true |}.
Proof.
  intros t o.
  assert (H : existsb yamlLoadThrew t = true) by (vm_compute; reflexivity).
  split; [split; [apply run_exec | exact H] |].
  exact (unparsable_specification_rejects_the_request Ajv.compile SANDBOX "token"
           "https://api.ebay.com/developer/mcp/v1/search/%s?operationId=%s" true
           stringify (fun url _ => Some url)
           (parseError "Invalid regular expression")
           (parseError "Invalid regular expression")
           validInvocation t o (run_exec unreadable (handler validInvocation)) H).
Defined.

Lemma default_headers_are_never_reported_missing_witness :
  "Authorization" ∈ ["Host"; "User-Agent"; "Authorization"; "Content-Type"]
  /\ validateUrlHeaders Ajv.compile (Some ∅) authorized []
     = (inl tt, ["Missing required header parameter: Authorization"])
  /\ "Missing required header parameter: " +:+ "Authorization"
       ∉ (validateUrlHeaders Ajv.compile
            (Some (buildHeadersFromInput SANDBOX "token" None true)) authorized []).2.
Proof.
  assert (H : "Authorization" ∈ ["Host"; "User-Agent"; "Authorization"; "Content-Type"])
    by (do 2 apply list_elem_of_further; apply list_elem_of_here).
  split; [exact H |]. split; [vm_compute; reflexivity |].
  exact (default_headers_are_never_reported_missing Ajv.compile SANDBOX "token" true
           None authorized "Authorization" H).
Defined.

(** The loader on a site that answers the second request for a document. *)
Example loader_asks_for_each_entry_in_turn :
  OpenApiHelper.getOpenApiDocumentsFromConfigFile
    (fun _ => true) (fun _ => inl twice) slowSite (Some "specs.txt") 0
  = inl ([OpenApiHelper.LoadingFrom ["a.json"; "b.json"; "b.json"];
          OpenApiHelper.failedToLoad "b.json"],
         [browse; feeds]).
Proof. vm_compute. reflexivity. Qed.

Lemma environment_check_does_not_read_the_environment_name_witness :
  "prod" <> ""
  /\ Index.checkEnvironmentVariables mistyped = ([], None)
  /\ Index.userEnvironment SANDBOX mistyped = SANDBOX
  /\ (Index.checkEnvironmentVariables (<["EBAY_ENVIRONMENT" := "prod"]> mistyped)).2 = None
  /\ (((Index.checkEnvironmentVariables mistyped).2 = Some 1
       <-> Index.unset mistyped "EBAY_CLIENT_TOKEN" = true
           \/ Index.unset mistyped "EBAY_API_ENV" = true)
      /\ ((Index.checkEnvironmentVariables mistyped).2 = None
          <-> Index.unset mistyped "EBAY_CLIENT_TOKEN" = false
              /\ Index.unset mistyped "EBAY_API_ENV" = false)
      /\ Index.checkEnvironmentVariables (<["EBAY_API_ENV" := "prod"]> mistyped)
         = Index.checkEnvironmentVariables (<["EBAY_API_ENV" := "sandbox"]> mistyped)
      /\ ((forall e, Js.toLowerCase "prod" <> envName e) ->
          forall fallback,
            Index.userEnvironment fallback (<["EBAY_API_ENV" := "prod"]> mistyped)
            = fallback)).
Proof.
  assert (H : "prod" <> "") by discriminate.
  split; [exact H |]. split; [vm_compute; reflexivity |].
  split; [vm_compute; reflexivity |]. split; [vm_compute; reflexivity |].
  exact (IndexFacts.environment_check_does_not_read_the_environment_name
           mistyped "prod" H).
Defined.

End MoreChecks.
